(** * MindFlow recommendation servers: embedding, scoring and ranking core

    A shallow embedding of [server_advanced.py] and of the client and the
    engine of [server_production.py]: the behaviour history, the
    preferences computed from it, the scoring and the ranking.  The HTTP
    routes and the request and latency counters are left out.

    Python floats are read as real numbers: every arithmetic operation is
    the exact one, so rounding, overflow, infinities and NaN are outside
    the model.  Python exceptions are values of [exn]; a function that can
    raise returns a [result]. *)

From Stdlib Require Import Reals Lra Lia ZArith List Sorted.
From Stdlib Require Import Ascii.
From stdpp Require Import base option list strings gmap pretty.

Open Scope R_scope.

Global Instance R_eq_dec : EqDecision R := Req_dec_T.

(** ** Exceptions and results *)

Inductive exn : Type :=
  | ValueError
  | TypeError
  | AttributeError
  | KeyError
  | StoreError.

Inductive result (A : Type) : Type :=
  | Ok (a : A)
  | Raise (e : exn).
Arguments Ok {A} a.
Arguments Raise {A} e.

(** ** numpy one-dimensional arrays *)

Module Np.

Abbreviation array := (list R).

(** Elementwise binary operation with numpy's broadcasting rule for
    one-dimensional operands: equal shapes, or one operand of shape (1,). *)
Definition broadcast (f : R -> R -> R) (a b : array) : result array :=
  if decide (length a = length b) then Ok (zip_with f a b)
  else match a, b with
       | [x], _ => Ok (map (f x) b)
       | _, [y] => Ok (map (fun x => f x y) a)
       | _, _ => Raise ValueError
       end.

Definition scale (k : R) (a : array) : array := map (Rmult k) a.

Definition div_scalar (a : array) (k : R) : array := map (fun x => x / k) a.

Fixpoint sum_sq (a : array) : R :=
  match a with
  | [] => 0
  | x :: a' => x * x + sum_sq a'
  end.

(** [np.linalg.norm] of a one-dimensional array. *)
Definition norm (a : array) : R := sqrt (sum_sq a).

Fixpoint dot_aligned (a b : array) : R :=
  match a, b with
  | x :: a', y :: b' => x * y + dot_aligned a' b'
  | _, _ => 0
  end.

(** [np.dot] of two one-dimensional arrays raises unless the lengths agree. *)
Definition dot (a b : array) : result R :=
  if decide (length a = length b) then Ok (dot_aligned a b)
  else Raise ValueError.

Definition zeros (n : nat) : array := replicate n 0.

End Np.

(** ** NeuralEmbedding: the pure part *)

Module NeuralEmbedding.

(** [similarity]: the zero-norm guard is tested before [np.dot] runs. *)
Definition similarity (emb1 emb2 : list R) : result R :=
  let norm_a := Np.norm emb1 in
  let norm_b := Np.norm emb2 in
  if Req_dec_T norm_a 0 then Ok 0
  else if Req_dec_T norm_b 0 then Ok 0
  else match Np.dot emb1 emb2 with
       | Ok d => Ok (d / (norm_a * norm_b))
       | Raise e => Raise e
       end.

(** [current + lr * weight * (target - current)], before the clamp. *)
Definition moved (current target : list R) (weight lr : R) : result (list R) :=
  match Np.broadcast Rminus target current with
  | Raise e => Raise e
  | Ok diff => Np.broadcast Rplus current (Np.scale (lr * weight) diff)
  end.

Definition update_embedding (current target : list R) (weight lr : R)
  : result (list R) :=
  match moved current target weight lr with
  | Raise e => Raise e
  | Ok updated =>
      let norm := Np.norm updated in
      if Rlt_dec 1 norm then Ok (Np.div_scalar updated norm)
      else Ok updated
  end.

End NeuralEmbedding.

(** [current + k * (target - current)], componentwise, for arrays of one
    length. *)
Definition step_towards (k : R) (current target : list R) : list R :=
  zip_with (fun c x => c + k * (x - c)) current target.

(** [n] successive calls [u = update_embedding(u, target, weight, lr)]. *)
Fixpoint repeat_update (n : nat) (u target : list R) (weight lr : R)
  : result (list R) :=
  match n with
  | O => Ok u
  | S n' =>
      match repeat_update n' u target weight lr with
      | Ok v => NeuralEmbedding.update_embedding v target weight lr
      | Raise e => Raise e
      end
  end.

(** ** Python values and dictionaries *)

(** The values a DynamoDB item attribute is read as.  [PInt] stands for any
    integral number (boto3 hands numbers over as [Decimal]); fractional
    numbers, lists and nested maps are not modelled. *)
Inductive pyval : Type :=
  | PNone
  | PInt (z : Z)
  | PStr (s : string).

Global Instance pyval_eq_dec : EqDecision pyval.
Proof. solve_decision. Defined.

Definition pyval_to_sum (v : pyval) : unit + Z + string :=
  match v with
  | PNone => inl (inl tt)
  | PInt z => inl (inr z)
  | PStr s => inr s
  end.

Definition pyval_of_sum (x : unit + Z + string) : pyval :=
  match x with
  | inl (inl _) => PNone
  | inl (inr z) => PInt z
  | inr s => PStr s
  end.

(** Values as dictionary keys. *)
Global Program Instance pyval_countable : Countable pyval :=
  inj_countable' pyval_to_sum pyval_of_sum _.
Next Obligation. intros []; reflexivity. Qed.

(** A content item, follow edge or any other [Dict]. *)
Abbreviation record := (gmap string pyval).

Module Py.

(** Truth value testing: [None], [0] and [''] are false. *)
Definition truthy (v : pyval) : bool :=
  match v with
  | PNone => false
  | PInt z => negb (Z.eqb z 0)
  | PStr s => negb (String.eqb s "")
  end.

(** [a or b] *)
Definition or (a b : pyval) : pyval := if truthy a then a else b.

(** [d.get(k, dflt)] *)
Definition get (d : record) (k : string) (dflt : pyval) : pyval :=
  default dflt (d !! k).

Definition is_space (c : Ascii.ascii) : bool :=
  let n := Ascii.nat_of_ascii c in
  (Nat.eqb n 32 || (Nat.leb 9 n && Nat.leb n 13))%bool.

Definition is_digit (c : Ascii.ascii) : bool :=
  let n := Ascii.nat_of_ascii c in (Nat.leb 48 n && Nat.leb n 57)%bool.

Fixpoint lstrip (l : list Ascii.ascii) : list Ascii.ascii :=
  match l with
  | c :: l' => if is_space c then lstrip l' else l
  | [] => []
  end.

Definition strip (l : list Ascii.ascii) : list Ascii.ascii :=
  rev (lstrip (rev (lstrip l))).

(** Decimal digits, single underscores allowed between two digits. *)
Fixpoint digits (acc : Z) (after_digit : bool) (l : list Ascii.ascii) : option Z :=
  match l with
  | [] => if after_digit then Some acc else None
  | c :: l' =>
      if is_digit c
      then digits (10 * acc + (Z.of_nat (Ascii.nat_of_ascii c) - 48))%Z true l'
      else if (Ascii.eqb c "_"%char && after_digit)%bool then digits acc false l'
      else None
  end.

(** [int(s)] for a string: surrounding whitespace, an optional sign, digits. *)
Definition int_of_string (s : string) : option Z :=
  match strip (String.list_ascii_of_string s) with
  | "-"%char :: l => Z.opp <$> digits 0 false l
  | "+"%char :: l => digits 0 false l
  | l => digits 0 false l
  end.

(** [int(v)] *)
Definition int (v : pyval) : result Z :=
  match v with
  | PNone => Raise TypeError
  | PInt z => Ok z
  | PStr s => match int_of_string s with
              | Some z => Ok z
              | None => Raise ValueError
              end
  end.

(** [str(v)], as an f-string formats it. *)
Definition str (v : pyval) : string :=
  match v with
  | PNone => "None"
  | PInt z => pretty z
  | PStr s => s
  end.

(** [s.replace('Z', '+00:00')] *)
Fixpoint replace_Z (s : string) : string :=
  match s with
  | EmptyString => EmptyString
  | String c s' =>
      if Ascii.eqb c "Z"%char then String.append "+00:00" (replace_Z s')
      else String c (replace_Z s')
  end.

(** [v in l] for a list [l]. *)
Definition mem (v : pyval) (l : list pyval) : bool := bool_decide (v ∈ l).

(** [l[:n]] *)
Definition slice_to {A} (l : list A) (n : Z) : list A :=
  if (0 <=? n)%Z then take (Z.to_nat n) l
  else take (Z.to_nat (Z.of_nat (length l) + n)) l.

End Py.

(** ** The process environment *)

(** A parsed [datetime]: the instant it denotes (seconds), and the two
    calendar fields the code reads. *)
Record datetime : Type := mk_datetime {
  dt_instant : R;
  dt_hour : Z;
  dt_weekday : Z
}.

(** What the servers take from their libraries and from the environment:
    numpy's global generator, [datetime.fromisoformat], the hour of the
    day local time shows at an instant ([datetime.now().hour]),
    [hashlib.md5] and the [CACHE_TTL] setting. *)
Class Runtime : Type := {
  rng : Type;
  np_seed : Z -> rng;
  np_randn : rng -> R * rng;
  np_random : rng -> R * rng;
  fromisoformat : string -> option datetime;
  local_hour : R -> Z;
  md5_int : string -> Z;
  CACHE_TTL : Z
}.

Definition EMBEDDING_DIM : nat := 64.
Definition LEARNING_RATE : R := 1 / 10.

(** [ACTION_WEIGHTS.get(action_type, 0)] of [server_advanced.py]. *)
Definition action_weight (action_type : Z) : R :=
  match action_type with
  | 0%Z => 2 / 10
  | 1%Z => 1
  | 2%Z => 15 / 10
  | 3%Z => 12 / 10
  | 4%Z => 13 / 10
  | 5%Z => - (3 / 10)
  | 6%Z => - (8 / 10)
  | 7%Z => - (8 / 10)
  | _ => 0
  end.

(** ** The external store and the client's state *)

(** Python objects that are shared by reference live in [w_heap]; a [loc]
    is the identity of one [dict]. *)
Abbreviation loc := nat.

(** What [_cache] holds under a key: an embedding, a list of item objects,
    or a list of ids. *)
Inductive payload : Type :=
  | CEmb (v : list R)
  | CItems (ls : list loc)
  | CIds (ids : list pyval).

(** The DynamoDB tables the core reads and writes. *)
Record store : Type := mk_store {
  user_embeddings : gmap string (list R);
  content_embeddings : gmap string (list R);
  posts : list record;
  ott_videos : list record;
  follows : gmap string (list record)
}.

Section Client.

Context {RT : Runtime}.

(** [w_faults] is consumed one entry per call made to the store: [true]
    makes that call raise.  [w_now] is what [time.time()] and
    [datetime.now()] read; it is constant during one operation. *)
Record world : Type := mk_world {
  w_cache : gmap string payload;
  w_cache_times : gmap string R;
  w_heap : list record;
  w_store : store;
  w_faults : list bool;
  w_now : R;
  w_rng : rng;
  w_connected : bool
}.

Definition set_cache (c : gmap string payload) (t : gmap string R) (w : world) :=
  mk_world c t (w_heap w) (w_store w) (w_faults w) (w_now w) (w_rng w)
           (w_connected w).
Definition set_heap (h : list record) (w : world) :=
  mk_world (w_cache w) (w_cache_times w) h (w_store w) (w_faults w) (w_now w)
           (w_rng w) (w_connected w).
Definition set_store (s : store) (w : world) :=
  mk_world (w_cache w) (w_cache_times w) (w_heap w) s (w_faults w) (w_now w)
           (w_rng w) (w_connected w).
Definition set_faults (f : list bool) (w : world) :=
  mk_world (w_cache w) (w_cache_times w) (w_heap w) (w_store w) f (w_now w)
           (w_rng w) (w_connected w).
Definition set_rng (g : rng) (w : world) :=
  mk_world (w_cache w) (w_cache_times w) (w_heap w) (w_store w) (w_faults w)
           (w_now w) g (w_connected w).
Definition set_connected (b : bool) (w : world) :=
  mk_world (w_cache w) (w_cache_times w) (w_heap w) (w_store w) (w_faults w)
           (w_now w) (w_rng w) b.

(** *** A state and exception monad *)

Definition M (A : Type) : Type := world -> result A * world.

Definition ret {A} (a : A) : M A := fun w => (Ok a, w).
Definition raise {A} (e : exn) : M A := fun w => (Raise e, w).
Definition bind {A B} (m : M A) (k : A -> M B) : M B :=
  fun w => match m w with
           | (Ok a, w') => k a w'
           | (Raise e, w') => (Raise e, w')
           end.
(** [try: m except: h]; what [m] did before it raised stays done. *)
Definition try_except {A} (m : M A) (h : M A) : M A :=
  fun w => match m w with
           | (Ok a, w') => (Ok a, w')
           | (Raise _, w') => h w'
           end.
Definition lift {A} (r : result A) : M A := fun w => (r, w).
Definition gets {A} (f : world -> A) : M A := fun w => (Ok (f w), w).
Definition modify (f : world -> world) : M unit := fun w => (Ok tt, f w).

Fixpoint mapM {A B} (f : A -> M B) (l : list A) : M (list B) :=
  match l with
  | [] => ret []
  | x :: l' => bind (f x) (fun y => bind (mapM f l') (fun ys => ret (y :: ys)))
  end.

Fixpoint filterM {A} (f : A -> M bool) (l : list A) : M (list A) :=
  match l with
  | [] => ret []
  | x :: l' =>
      bind (f x) (fun b =>
      bind (filterM f l') (fun ys => ret (if b then x :: ys else ys)))
  end.

Fixpoint forM_ {A} (f : A -> M unit) (l : list A) : M unit :=
  match l with
  | [] => ret tt
  | x :: l' => bind (f x) (fun _ => forM_ f l')
  end.

End Client.

(** [m] leaves the component [f] of the state as it found it, also when it
    raises. *)
Definition preserves {RT : Runtime} {X A} (f : world -> X) (m : M A) : Prop :=
  forall w, f (snd (m w)) = f w.

(** [m] returns, whatever the state. *)
Definition total {RT : Runtime} {A} (m : M A) : Prop :=
  forall w, exists a w', m w = (Ok a, w').

(** A component of the state that the two embedding tables, the fault
    schedule and the generator are no part of. *)
Record frame_field {RT : Runtime} {X} (f : world -> X) : Prop := {
  ff_user_embeddings : forall m w,
    f (set_store (mk_store m (content_embeddings (w_store w)) (posts (w_store w))
                           (ott_videos (w_store w)) (follows (w_store w))) w) = f w;
  ff_content_embeddings : forall m w,
    f (set_store (mk_store (user_embeddings (w_store w)) m (posts (w_store w))
                           (ott_videos (w_store w)) (follows (w_store w))) w) = f w;
  ff_faults : forall fs w, f (set_faults fs w) = f w;
  ff_rng : forall g w, f (set_rng g w) = f w
}.

(** A component of the state that a write to the cache under key [k] does
    not touch. *)
Definition ignores_cache_at {RT : Runtime} {X} (f : world -> X) (k : string)
  : Prop :=
  forall p t w,
    f (set_cache (<[k := p]> (w_cache w)) (<[k := t]> (w_cache_times w)) w) = f w.

Declare Scope py_scope.
Delimit Scope py_scope with py.
Notation "'let!' x ':=' m 'in' k" := (bind m (fun x => k))
  (at level 10, x pattern, m at level 100, k at level 200) : py_scope.
Notation "'run!' m 'in' k" := (bind m (fun _ => k))
  (at level 10, m at level 100, k at level 200) : py_scope.

Open Scope py_scope.

(** ** NeuralEmbedding: feature construction and initial vectors *)

Section Embedding.

Context {RT : Runtime}.

(** [np.random.randn(n)]: [n] successive draws of the global generator. *)
Fixpoint randn_array (n : nat) (g : rng) : list R * rng :=
  match n with
  | O => ([], g)
  | S n' =>
      let '(x, g1) := np_randn g in
      let '(xs, g2) := randn_array n' g1 in
      (x :: xs, g2)
  end.

(** [create_random_embedding]: it takes no argument besides [self] and
    advances the global generator. *)
Definition create_random_embedding : M (list R) :=
  fun w =>
    let '(xs, g) := randn_array EMBEDDING_DIM (w_rng w) in
    (Ok (Np.scale (sqrt (2 / INR EMBEDDING_DIM)) xs), set_rng g w).

(** [int(content.get(k1, 0) or content.get(k2, 0) or last)] *)
Definition counter (content : record) (k1 k2 : string) (last : Z) : result Z :=
  Py.int (Py.or (Py.or (Py.get content k1 (PInt 0)) (Py.get content k2 (PInt 0)))
                (PInt last)).

(** [int(content.get(k, 0) or 0)] *)
Definition counter1 (content : record) (k : string) : result Z :=
  Py.int (Py.or (Py.get content k (PInt 0)) (PInt 0)).

(** [content.get('postId') or content.get('videoId') or ''] *)
Definition content_id_of (content : record) : pyval :=
  Py.or (Py.or (Py.get content "postId" PNone) (Py.get content "videoId" PNone))
        (PStr "").

(** [content.get('userId') or content.get('creatorId') or ''] *)
Definition creator_id_of (content : record) : pyval :=
  Py.or (Py.or (Py.get content "userId" PNone) (Py.get content "creatorId" PNone))
        (PStr "").

(** The guarded timestamp block: [Some] of the parsed creation time when
    [createdAt] is a non-empty string that [fromisoformat] accepts, [None]
    when the field is falsy or the [try] body raised. *)
Definition created_of (content : record) : option datetime :=
  let created_at := Py.get content "createdAt" (PStr "") in
  if Py.truthy created_at then
    match created_at with
    | PStr s => fromisoformat (Py.replace_Z s)
    | _ => None
    end
  else None.

Definition hours_old (now : R) (created_dt : datetime) : R :=
  (now - dt_instant created_dt) / 3600.

(** [embedding[i:i+len(vs)] = vs] *)
Fixpoint set_slice (i : nat) (vs : list R) (e : list R) : list R :=
  match vs with
  | [] => e
  | v :: vs' => set_slice (S i) vs' (<[i := v]> e)
  end.

(** The loop [for i in range(30, dim): embedding[i] = ...], from [i] on,
    [n] iterations. *)
Fixpoint hash_fill (hash_val : Z) (i n : nat) (e : list R) : list R :=
  match n with
  | O => e
  | S n' =>
      hash_fill hash_val (S i) n'
        (<[i := IZR (Z.land (Z.shiftr hash_val (Z.of_nat (i - 30))) 255) / 255]> e)
  end.

Definition time_features (now : R) (content : record) (e : list R) : list R :=
  match created_of content with
  | Some created_dt =>
      <[7%nat := IZR (dt_weekday created_dt) / 7]>
      (<[6%nat := IZR (dt_hour created_dt) / 24]>
      (<[5%nat := Rmax 0 (1 - hours_old now created_dt / 168)]> e))
  | None => e
  end.

Definition type_features (content : record) (e : list R) : list R :=
  let content_type := Py.get content "mediaType" (PStr "text") in
  if decide (content_type = PStr "video") then set_slice 10 [1; 0; 0; 0; 0] e
  else if decide (content_type = PStr "image") then set_slice 10 [0; 1; 0; 0; 0] e
  else set_slice 10 [0; 0; 1; 0; 0] e.

(** [content_id.encode()] exists for strings only. *)
Definition hash_features (content : record) (e : list R) : result (list R) :=
  let content_id := content_id_of content in
  if Py.truthy content_id then
    match content_id with
    | PStr s => Ok (hash_fill (md5_int s) 30 (EMBEDDING_DIM - 30) e)
    | _ => Raise AttributeError
    end
  else Ok e.

(** The content id a record may carry without [encode] failing. *)
Definition id_encodable (content : record) : Prop :=
  Py.truthy (content_id_of content) = false
  \/ exists s, content_id_of content = PStr s.

(** The engagement block, written into the zero vector. *)
Definition engagement_features (likes views comments shares : Z) : list R :=
  <[4%nat := IZR (likes + comments * 2 + shares * 3) / IZR (Z.max views 1)]>
  (<[3%nat := Rmin (IZR shares / 50) 1]>
  (<[2%nat := Rmin (IZR comments / 100) 1]>
  (<[1%nat := Rmin (IZR views / 10000) 1]>
  (<[0%nat := Rmin (IZR likes / 1000) 1]> (Np.zeros EMBEDDING_DIM))))).

Definition create_content_embedding (now : R) (content : record)
  : result (list R) :=
  match counter content "likes" "likeCount" 0 with
  | Raise e => Raise e
  | Ok likes =>
  match counter content "viewCount" "views" 1 with
  | Raise e => Raise e
  | Ok views =>
  match counter content "commentsCount" "commentCount" 0 with
  | Raise e => Raise e
  | Ok comments =>
  match counter1 content "shares" with
  | Raise e => Raise e
  | Ok shares =>
      let e1 := engagement_features likes views comments shares in
      hash_features content (type_features content (time_features now content e1))
  end end end end.

End Embedding.

(** ** AdvancedDynamoDBClient *)

Section DynamoDB.

Context {RT : Runtime}.

(** One call to the store: it raises when the next fault entry says so. *)
Definition store_call : M unit :=
  fun w => match w_faults w with
           | [] => (Ok tt, w)
           | b :: fs => (if b : bool then Raise StoreError else Ok tt, set_faults fs w)
           end.

(** Whether the next call to the store is the one that fails. *)
Definition next_call_fails (w : world) : bool :=
  match w_faults w with
  | true :: _ => true
  | _ => false
  end.

(** [__init__]: fresh caches, the generator seeded with 42, then the
    connection test and [_ensure_embedding_tables]. *)
Definition new_client (s : store) (faults : list bool) (now : R) : world :=
  let w0 := mk_world ∅ ∅ [] s faults now (np_seed 42) false in
  let ensure := try_except store_call (ret tt) in
  snd (try_except
         (run! store_call in
          run! modify (set_connected true) in
          run! ensure in run! ensure in ensure)
         (ret tt) w0).

Definition _cache_key (table key : string) : string :=
  String.append table (String.append ":" key).

Definition _is_cached (cache_key : string) : M bool :=
  fun w => match w_cache_times w !! cache_key with
           | None => (Ok false, w)
           | Some t =>
               (Ok (if Rlt_dec (w_now w - t) (IZR CACHE_TTL) then true else false), w)
           end.

(** [self._cache[cache_key]] *)
Definition cache_read (cache_key : string) : M payload :=
  fun w => match w_cache w !! cache_key with
           | Some p => (Ok p, w)
           | None => (Raise KeyError, w)
           end.

(** [self._cache[cache_key] = p; self._cache_times[cache_key] = time.time()] *)
Definition cache_write (cache_key : string) (p : payload) : M unit :=
  modify (fun w => set_cache (<[cache_key := p]> (w_cache w))
                             (<[cache_key := w_now w]> (w_cache_times w)) w).

(** The namespaces of the cache keys are disjoint, so a key of one kind
    never holds a payload of another; the model raises if it did. *)
Definition as_emb (p : payload) : M (list R) :=
  match p with CEmb v => ret v | _ => raise TypeError end.
Definition as_items (p : payload) : M (list loc) :=
  match p with CItems ls => ret ls | _ => raise TypeError end.
Definition as_ids (p : payload) : M (list pyval) :=
  match p with CIds ids => ret ids | _ => raise TypeError end.

Definition put_user_embedding (user_id : string) (embedding : list R) : M unit :=
  run! store_call in
  modify (fun w =>
    let s := w_store w in
    set_store (mk_store (<[user_id := embedding]> (user_embeddings s))
                        (content_embeddings s) (posts s) (ott_videos s) (follows s)) w).

Definition put_content_embedding (content_id : string) (embedding : list R)
  : M unit :=
  run! store_call in
  modify (fun w =>
    let s := w_store w in
    set_store (mk_store (user_embeddings s)
                        (<[content_id := embedding]> (content_embeddings s))
                        (posts s) (ott_videos s) (follows s)) w).

(** The cache update sits inside the [try], after [put_item]. *)
Definition save_user_embedding (user_id : string) (embedding : list R) : M unit :=
  try_except
    (run! put_user_embedding user_id embedding in
     cache_write (_cache_key "user_emb" user_id) (CEmb embedding))
    (ret tt).

Definition save_content_embedding (content_id : pyval) (embedding : list R)
  : M unit :=
  try_except
    (run! put_content_embedding (Py.str content_id) embedding in
     cache_write (_cache_key "content_emb" (Py.str content_id)) (CEmb embedding))
    (ret tt).

Definition get_user_embedding (user_id : string) : M (list R) :=
  let cache_key := _cache_key "user_emb" user_id in
  let! cached := _is_cached cache_key in
  if cached : bool then (let! p := cache_read cache_key in as_emb p)
  else
    let! found :=
      try_except
        (run! store_call in
         let! item := gets (fun w => user_embeddings (w_store w) !! user_id) in
         match item with
         | Some embedding =>
             run! cache_write cache_key (CEmb embedding) in ret (Some embedding)
         | None => ret None
         end)
        (ret None) in
    match found with
    | Some embedding => ret embedding
    | None =>
        let! embedding := create_random_embedding in
        run! save_user_embedding user_id embedding in
        ret embedding
    end.

Definition get_content_embedding (content_id : pyval) (content : option record)
  : M (list R) :=
  let cache_key := _cache_key "content_emb" (Py.str content_id) in
  let! cached := _is_cached cache_key in
  if cached : bool then (let! p := cache_read cache_key in as_emb p)
  else
    let! found :=
      try_except
        (run! store_call in
         let! item :=
           gets (fun w => content_embeddings (w_store w) !! Py.str content_id) in
         match item with
         | Some embedding =>
             run! cache_write cache_key (CEmb embedding) in ret (Some embedding)
         | None => ret None
         end)
        (ret None) in
    match found with
    | Some embedding => ret embedding
    | None =>
        match content with
        | Some c =>
            if decide (c = ∅) then create_random_embedding
            else
              let! now := gets w_now in
              let! embedding := lift (create_content_embedding now c) in
              run! save_content_embedding content_id embedding in
              ret embedding
        | None => create_random_embedding
        end
    end.

Definition learn_from_interaction (user_id content_id : string)
    (action_type : Z) (content : option record) : M (list R) :=
  let weight := action_weight action_type in
  let! user_emb := get_user_embedding user_id in
  let! content_emb := get_content_embedding (PStr content_id) content in
  let! updated_emb :=
    lift (NeuralEmbedding.update_embedding user_emb content_emb weight LEARNING_RATE) in
  run! save_user_embedding user_id updated_emb in
  ret updated_emb.

(** The items of a response are fresh objects. *)
Definition alloc_all (items : list record) : M (list loc) :=
  fun w => (Ok (seq (length (w_heap w)) (length items)),
            set_heap (w_heap w ++ items) w).

Definition scan_cached (cache_key : string) (table : store -> list record)
    (limit : nat) : M (list loc) :=
  let! cached := _is_cached cache_key in
  if cached : bool then (let! p := cache_read cache_key in as_items p)
  else
    try_except
      (run! store_call in
       let! items := gets (fun w => take limit (table (w_store w))) in
       let! ls := alloc_all items in
       run! cache_write cache_key (CItems ls) in
       ret ls)
      (ret []).

Definition get_all_posts : M (list loc) :=
  scan_cached (_cache_key "posts" "all") posts 500.

Definition get_ott_videos : M (list loc) :=
  scan_cached (_cache_key "videos" "all") ott_videos 200.

(** [[item['followingId'] for item in items]] *)
Fixpoint following_ids (items : list record) : result (list pyval) :=
  match items with
  | [] => Ok []
  | item :: items' =>
      match item !! "followingId" with
      | None => Raise KeyError
      | Some v => match following_ids items' with
                  | Ok vs => Ok (v :: vs)
                  | Raise e => Raise e
                  end
      end
  end.

Definition get_user_follows (user_id : string) : M (list pyval) :=
  let cache_key := _cache_key "follows" user_id in
  let! cached := _is_cached cache_key in
  if cached : bool then (let! p := cache_read cache_key in as_ids p)
  else
    try_except
      (run! store_call in
       let! items := gets (fun w => default [] (follows (w_store w) !! user_id)) in
       let! following := lift (following_ids items) in
       run! cache_write cache_key (CIds following) in
       ret following)
      (ret []).

End DynamoDB.

(** The two cache dictionaries agree under [k] on a payload of the kind the
    key's namespace holds: whenever a time is recorded, so is such a
    payload. *)
Definition cached_as {RT : Runtime} (kind : payload -> Prop) (k : string)
    (w : world) : Prop :=
  is_Some (w_cache_times w !! k) -> exists p, w_cache w !! k = Some p /\ kind p.

Definition is_emb (p : payload) : Prop := exists v, p = CEmb v.
Definition is_ids (p : payload) : Prop := exists ids, p = CIds ids.

(** ** AdvancedRecommendationEngine *)

(** One entry of the returned ranking. *)
Record recommendation : Type := mk_recommendation {
  r_contentId : pyval;
  r_type : pyval;
  r_score : R;
  r_creatorId : pyval
}.

(** [round(x, 2)]: to the nearest hundredth, halves to the even neighbour. *)
Definition round_half_even (y : R) : Z :=
  let f := (up y - 1)%Z in
  let d := y - IZR f in
  if Rlt_dec d (1 / 2) then f
  else if Rlt_dec (1 / 2) d then (f + 1)%Z
  else if Z.even f then f else (f + 1)%Z.

Definition round2 (x : R) : R := IZR (round_half_even (x * 100)) / 100.

(** [scored.sort(key=lambda x: x['score'], reverse=True)]: a stable sort,
    larger scores first; an element goes in front of the entries that came
    after it and do not have a larger score. *)
Fixpoint insert_desc (x : recommendation) (l : list recommendation)
  : list recommendation :=
  match l with
  | [] => [x]
  | y :: l' =>
      if Rlt_dec (r_score x) (r_score y) then y :: insert_desc x l'
      else x :: y :: l'
  end.

Definition sort_desc (l : list recommendation) : list recommendation :=
  foldr insert_desc [] l.

(** [x] is ranked no lower than [y]. *)
Definition outranks (x y : recommendation) : Prop := r_score y <= r_score x.

(** The entries of [l] whose score is [s], in the order they have in [l]. *)
Definition with_score (s : R) (l : list recommendation) : list recommendation :=
  filter (fun r => r_score r = s) l.

Section Engine.

Context {RT : Runtime}.

Definition engagement_boost (likes views comments : Z) : R :=
  let engagement_rate := IZR (likes * 2 + comments * 3) / IZR (Z.max views 1) in
  Rmin (engagement_rate * 20) 20.

Definition follow_boost (content : record) (following : list pyval) : R :=
  if Py.mem (creator_id_of content) following then 25 else 0.

Definition recency_boost (now : R) (content : record) : R :=
  match created_of content with
  | Some created_dt => Rmax 0 (15 - hours_old now created_dt / 4)
  | None => 0
  end.

Definition score_content (user_emb : list R) (content : record)
    (following : list pyval) : M R :=
  let content_id := content_id_of content in
  let! content_emb := get_content_embedding content_id (Some content) in
  let! similarity := lift (NeuralEmbedding.similarity user_emb content_emb) in
  let score := similarity * 50 in
  let! likes := lift (counter content "likes" "likeCount" 0) in
  let! views := lift (counter content "viewCount" "views" 1) in
  let! comments := lift (counter content "commentsCount" "commentCount" 0) in
  let score := score + engagement_boost likes views comments in
  let score := score + follow_boost content following in
  let! now := gets w_now in
  let score := score + recency_boost now content in
  let! u := (fun w => let '(x, g) := np_random (w_rng w) in (Ok x, set_rng g w)) in
  ret (score + u * 5).

Definition heap_read (l : loc) : M record :=
  fun w => match w_heap w !! l with
           | Some r => (Ok r, w)
           | None => (Raise KeyError, w)
           end.

(** [obj[k] = v] on the object at [l]. *)
Definition heap_setitem (l : loc) (k : string) (v : pyval) : M unit :=
  let! r := heap_read l in
  modify (fun w => set_heap (<[l := <[k := v]> r]> (w_heap w)) w).

(** [for p in items: p['_type'] = kind; p['contentId'] = p.get(id_key, '')] *)
Definition tag_items (kind id_key : string) (items : list loc) : M unit :=
  forM_ (fun p =>
           run! heap_setitem p "_type" (PStr kind) in
           let! r := heap_read p in
           heap_setitem p "contentId" (Py.get r id_key (PStr "")))
        items.

(** One [if content_type in [...]] block: fetch the listing, tag its items,
    and hand it on for [all_content.extend]. *)
Definition gather_kind (wanted : bool) (fetch : M (list loc))
    (kind id_key : string) : M (list loc) :=
  if wanted then
    let! items := fetch in
    run! tag_items kind id_key items in
    ret items
  else ret [].

(** The candidate gathering; [server_production.py] has the same lines. *)
Definition gather_content (content_type : string) : M (list loc) :=
  let! from_posts :=
    gather_kind (bool_decide (content_type ∈ ["all"; "posts"]))
                get_all_posts "post" "postId" in
  let! from_videos :=
    gather_kind (bool_decide (content_type ∈ ["all"; "videos"]))
                get_ott_videos "video" "videoId" in
  ret (from_posts ++ from_videos).

(** [c.get('userId') != user_id and c.get('creatorId') != user_id] *)
Definition not_own (user_id : string) (c : record) : bool :=
  (bool_decide (Py.get c "userId" PNone ≠ PStr user_id)
   && bool_decide (Py.get c "creatorId" PNone ≠ PStr user_id))%bool.

Definition score_entry (user_emb : list R) (following : list pyval) (l : loc)
  : M recommendation :=
  let! content := heap_read l in
  let! score := score_content user_emb content following in
  ret (mk_recommendation
         (Py.get content "contentId" (PStr ""))
         (Py.get content "_type" (PStr "unknown"))
         (round2 score)
         (Py.or (Py.get content "userId" PNone) (Py.get content "creatorId" PNone))).

(** The request counter and the latency bookkeeping are left out. *)
Definition get_recommendations (user_id : string) (limit : Z)
    (content_type : string) : M (list recommendation) :=
  let! user_emb := get_user_embedding user_id in
  let! following := get_user_follows user_id in
  let! all_content := gather_content content_type in
  let! all_content :=
    filterM (fun l => let! c := heap_read l in ret (not_own user_id c)) all_content in
  let! scored := mapM (score_entry user_emb following) all_content in
  ret (Py.slice_to (sort_desc scored) limit).

(** [rec'] agrees with [rec] on every key other than the two tags. *)
Definition same_off_tags (rec rec' : record) : Prop :=
  forall k, k <> "_type" -> k <> "contentId" -> rec' !! k = rec !! k.

(** [rec'] is [rec] after the two tag assignments. *)
Definition tagged_by (kind id_key : string) (rec rec' : record) : Prop :=
  rec' !! "_type" = Some (PStr kind)
  /\ rec' !! "contentId" = Some (Py.get rec id_key (PStr ""))
  /\ same_off_tags rec rec'.

(** Every object of [h] is still there in [h'], changed at most in its two
    tags. *)
Definition heap_evolves (h h' : list record) : Prop :=
  forall l rec, h !! l = Some rec ->
                exists rec', h' !! l = Some rec' /\ same_off_tags rec rec'.

(** [m] changes the objects at most in their two tags, also when it raises. *)
Definition evolves {A} (m : M A) : Prop :=
  forall w, heap_evolves (w_heap w) (w_heap (snd (m w))).

(** One cache entry together with the clock. *)
Definition entry_and_clock (k : string) (w : world)
  : option payload * option R * R :=
  (w_cache w !! k, w_cache_times w !! k, w_now w).

(** The two listings a request can draw on, with the filter value that
    selects one alone, its cache key, the tag it gets and the field its
    content id is copied from. *)
Inductive listing : Type := Posts | Videos.

Definition listing_filter (x : listing) : string :=
  match x with Posts => "posts" | Videos => "videos" end.
Definition listing_key (x : listing) : string :=
  match x with
  | Posts => _cache_key "posts" "all"
  | Videos => _cache_key "videos" "all"
  end.
Definition listing_kind (x : listing) : string :=
  match x with Posts => "post" | Videos => "video" end.
Definition listing_id (x : listing) : string :=
  match x with Posts => "postId" | Videos => "videoId" end.
Definition listing_fetch (x : listing) : M (list loc) :=
  match x with Posts => get_all_posts | Videos => get_ott_videos end.

(** No candidate is to be had: both content tables are empty and neither
    listing is in the cache. *)
Definition catalog_empty (w : world) : Prop :=
  posts (w_store w) = [] /\ ott_videos (w_store w) = []
  /\ w_cache_times w !! _cache_key "posts" "all" = None
  /\ w_cache_times w !! _cache_key "videos" "all" = None.

(** [learn] *)
Definition learn (user_id content_id : string) (action_type : Z)
    (content : option record) : M unit :=
  run! learn_from_interaction user_id content_id action_type content in ret tt.

End Engine.

(** ** RecommendationEngine of [server_production.py]: scoring *)

Module Production.

(** What [compute_user_preferences] returns: the three score tables (the
    interaction count is not read by the scoring). *)
Record preferences : Type := mk_preferences {
  pref_content : gmap pyval R;
  pref_creators : gmap pyval R;
  pref_active_hours : gmap pyval Z
}.

Section Scoring.

Context {RT : Runtime}.

Definition engagement_boost (likes views comments shares : Z) : R :=
  let engagement_rate :=
    IZR (likes * 2 + comments * 3 + shares * 4) / IZR (Z.max views 1) in
  Rmin (engagement_rate * 10) 30.

Definition affinity_boost (prefs : preferences) (creator_id : pyval) : R :=
  Rmin (default 0 (pref_creators prefs !! creator_id) * 5) 20.

Definition recency_boost (now : R) (content : record) : R :=
  match created_of content with
  | Some created_dt => Rmax 0 (20 - hours_old now created_dt / 2)
  | None => 0
  end.

(** The table is looked up under [str(current_hour)]. *)
Definition hour_boost (now : R) (prefs : preferences) : R :=
  if (0 <? default 0 (pref_active_hours prefs !! PStr (pretty (local_hour now))))%Z
  then 5 else 0.

Definition seen_penalty (prefs : preferences) (content_id : pyval) : R :=
  if decide (is_Some (pref_content prefs !! content_id)) then 10 else 0.

Definition score_content (content : record) (prefs : preferences)
    (following : list pyval) : M R :=
  let content_id := content_id_of content in
  let creator_id := creator_id_of content in
  let! likes := lift (counter content "likes" "likeCount" 0) in
  let! views := lift (counter content "viewCount" "views" 1) in
  let! comments := lift (counter content "commentsCount" "commentCount" 0) in
  let! shares := lift (counter1 content "shares") in
  let score := 0 + engagement_boost likes views comments shares in
  let score := score + (if Py.mem creator_id following then 25 else 0) in
  let score := score + affinity_boost prefs creator_id in
  let! now := gets w_now in
  let score := score + recency_boost now content in
  let score := score + hour_boost now prefs in
  let score := score - seen_penalty prefs content_id in
  let! u := (fun w => let '(x, g) := np_random (w_rng w) in (Ok x, set_rng g w)) in
  ret (score + u * 5).

End Scoring.

End Production.

(** ** A concrete environment *)

(** An instance of [Runtime] to run the model on: a counter for the
    generator state, whose normal draws are 0, 1, 2, ... and whose uniform
    draws are all 0; [fromisoformat] and [md5] tabulated on the strings the
    examples use, with the values Python gives for them. *)
Definition demo_fromisoformat (s : string) : option datetime :=
  if String.eqb s "2024-01-09T08:00:00+00:00"
  then Some (mk_datetime 1704787200 8 1)
  else if String.eqb s "2024-01-01T00:00:00+00:00"
  then Some (mk_datetime 1704067200 0 0)
  else None.

Definition demo_md5 (s : string) : Z :=
  if String.eqb s "p_new" then 5670388874916120050241312050893775802%Z
  else if String.eqb s "p_old" then 233983039713004806534518155289006662112%Z
  else 0%Z.

Definition demo_runtime : Runtime := {|
  rng := nat;
  np_seed := fun _ => O;
  np_randn := fun n => (INR n, S n);
  np_random := fun n => (0, S n);
  fromisoformat := demo_fromisoformat;
  local_hour := fun _ => 8%Z;
  md5_int := demo_md5;
  CACHE_TTL := 300
|}.

Definition empty_store : store := mk_store ∅ ∅ [] [] ∅.

(** A client of the concrete environment at time [now], nothing cached, the
    given tables and fault schedule, the generator as seeded. *)
Definition demo_world (s : store) (faults : list bool) (now : R)
  : world (RT := demo_runtime) :=
  mk_world (RT := demo_runtime) ∅ ∅ [] s faults now O true.

(** The first unit vector of the embedding space. *)
Definition demo_vector : list R := <[0%nat := 1]> (Np.zeros EMBEDDING_DIM).

(** The two candidates of the recency scenario, and the time of the
    request: the first is created at that time, the second 200 hours
    before it. *)
Definition demo_new : record :=
  {[ "postId" := PStr "p_new"; "createdAt" := PStr "2024-01-09T08:00:00Z" ]}.
Definition demo_old : record :=
  {[ "postId" := PStr "p_old"; "createdAt" := PStr "2024-01-01T00:00:00Z" ]}.
Definition demo_now : R := 1704787200.

(** A user vector whose only entry, at the recency index, is -1. *)
Definition demo_averse : list R := <[5%nat := -1]> (Np.zeros EMBEDDING_DIM).

(** A client that has the vectors of both candidates in its cache. *)
Definition demo_cached_world : world (RT := demo_runtime) :=
  mk_world (RT := demo_runtime)
    {[ "content_emb:p_new" := CEmb demo_vector;
       "content_emb:p_old" := CEmb demo_vector ]}
    {[ "content_emb:p_new" := demo_now; "content_emb:p_old" := demo_now ]}
    [] empty_store [] demo_now O true.

(** A post of user u1, and a client that has the post listing, with this
    one object in it, in its cache. *)
Definition demo_own_post : record :=
  {[ "postId" := PStr "p_new"; "userId" := PStr "u1" ]}.

Definition demo_listed_world : world (RT := demo_runtime) :=
  mk_world (RT := demo_runtime)
    {[ "posts:all" := CItems [O] ]} {[ "posts:all" := demo_now ]}
    [demo_own_post] empty_store [] demo_now O true.

(** A client that has the post listing with the two candidates, and the
    vectors of both, in its cache. *)
Definition demo_ranked_world : world (RT := demo_runtime) :=
  mk_world (RT := demo_runtime)
    {[ "posts:all" := CItems [0%nat; 1%nat];
       "content_emb:p_new" := CEmb demo_vector;
       "content_emb:p_old" := CEmb demo_vector ]}
    {[ "posts:all" := demo_now; "content_emb:p_new" := demo_now;
       "content_emb:p_old" := demo_now ]}
    [demo_new; demo_old] empty_store [] demo_now O true.

(** What makes the scoring of the object at [l] run through on cached
    vectors: its counters convert, and the vector cached for its id is
    valid and has the length of the user vector. *)
Definition scorable {RT : Runtime} (user_emb : list R) (w : world) (l : loc)
  : Prop :=
  exists (c : record) v t likes views comments,
    w_heap w !! l = Some c
    /\ counter c "likes" "likeCount" 0 = Ok likes
    /\ counter c "viewCount" "views" 1 = Ok views
    /\ counter c "commentsCount" "commentCount" 0 = Ok comments
    /\ w_cache w !! _cache_key "content_emb" (Py.str (content_id_of c))
       = Some (CEmb v)
    /\ w_cache_times w !! _cache_key "content_emb" (Py.str (content_id_of c))
       = Some t
    /\ w_now w - t < IZR CACHE_TTL
    /\ length user_emb = length v.

(** ** Clocks, counts and what the cache may hold *)

Section Bookkeeping.

Context {RT : Runtime}.

(** The same client looked at when the clock shows [t]. *)
Definition set_now (t : R) (w : world) : world :=
  mk_world (w_cache w) (w_cache_times w) (w_heap w) (w_store w) (w_faults w) t
           (w_rng w) (w_connected w).

(** [len(self._cache.get(name, {}))] *)
Definition cache_len (name : string) (w : world) : nat :=
  match w_cache w !! name with
  | None => 0
  | Some (CEmb v) => length v
  | Some (CItems ls) => length ls
  | Some (CIds ids) => length ids
  end.

(** [get_embedding_counts]: the two lookups use the bare table names. *)
Definition get_embedding_counts : M (nat * nat) :=
  gets (fun w => (cache_len "user_emb" w, cache_len "content_emb" w)).

End Bookkeeping.

(** The entry under [k] is fresh: it has a time less than [CACHE_TTL]
    seconds back. *)
Definition fresh {RT : Runtime} (k : string) (w : world) : Prop :=
  exists t, w_cache_times w !! k = Some t /\ w_now w - t < IZR CACHE_TTL.

(** The table a listing is scanned from and the [Limit] of the scan. *)
Definition listing_table (x : listing) : store -> list record :=
  match x with Posts => posts | Videos => ott_videos end.
Definition listing_limit (x : listing) : nat :=
  match x with Posts => 500%nat | Videos => 200%nat end.

(** With the store reachable from now on, [m] leaves it so. *)
Definition quiet {RT : Runtime} {A} (m : M A) : Prop :=
  forall w, w_faults w = [] -> w_faults (snd (m w)) = [].

(** An embedding of the configured dimension. *)
Definition has_dim (p : payload) : Prop :=
  exists v, p = CEmb v /\ length v = EMBEDDING_DIM.

(** A list of objects that all exist among the first [n] of the heap. *)
Definition items_below (n : nat) (p : payload) : Prop :=
  exists ls, p = CItems ls /\ Forall (fun l : nat => (l < n)%nat) ls.

(** The payload [p] is of the kind that the namespace of the key [k]
    holds. *)
Definition fits (n : nat) (k : string) (p : payload) : Prop :=
  (forall u, k = _cache_key "user_emb" u -> has_dim p)
  /\ (forall c, k = _cache_key "content_emb" c -> has_dim p)
  /\ (forall u, k = _cache_key "follows" u -> is_ids p)
  /\ (forall x, k = _cache_key "posts" x -> items_below n p)
  /\ (forall x, k = _cache_key "videos" x -> items_below n p)
  /\ (forall x, k = _cache_key "behavior" x -> items_below n p).

(** Every vector of the two embedding tables has the configured
    dimension. *)
Definition stored_dims (s : store) : Prop :=
  (forall u v, user_embeddings s !! u = Some v -> length v = EMBEDDING_DIM)
  /\ (forall c v, content_embeddings s !! c = Some v -> length v = EMBEDDING_DIM).

(** The state of a client whose caches were filled by its own methods:
    a key with a time has a payload of its namespace's kind, nothing sits
    under a bare table name, and the stored vectors have the configured
    dimension. *)
Record client_ok {RT : Runtime} (w : world) : Prop := {
  ok_timed : forall k t, w_cache_times w !! k = Some t ->
             exists p, w_cache w !! k = Some p /\ fits (length (w_heap w)) k p;
  ok_names : forall k, is_Some (w_cache w !! k) ->
             k <> "user_emb" /\ k <> "content_emb";
  ok_stored : stored_dims (w_store w)
}.

(** A content record that the feature construction and the scoring read
    without raising: its counters convert and its id, if any, is a
    string. *)
Definition record_ok (c : record) : Prop :=
  (exists z, counter c "likes" "likeCount" 0 = Ok z)
  /\ (exists z, counter c "viewCount" "views" 1 = Ok z)
  /\ (exists z, counter c "commentsCount" "commentCount" 0 = Ok z)
  /\ (exists z, counter1 c "shares" = Ok z)
  /\ id_encodable c.

(** A client in order, all of whose objects and table items satisfy [G],
    and for which the objects [L] exist. *)
Definition catalog_ok {RT : Runtime} (G : record -> Prop) (L : list loc)
    (w : world) : Prop :=
  client_ok w
  /\ Forall G (w_heap w)
  /\ Forall G (posts (w_store w))
  /\ Forall G (ott_videos (w_store w))
  /\ Forall (fun l : nat => (l < length (w_heap w))%nat) L.

(** [m], run in the state [w], returns a value and leaves a state that
    satisfy [Q], or raises and leaves a state that satisfies [E]. *)
Definition wp {RT : Runtime} {A} (m : M A) (Q : A -> world -> Prop)
    (E : world -> Prop) (w : world) : Prop :=
  match m w with
  | (Ok a, w') => Q a w'
  | (Raise _, w') => E w'
  end.

(** ** The behaviour history and the engine of [server_production.py] *)

(** The behaviour table as [get_user_behavior] gets to see it: the items
    the query for a user returns when it is issued at a clock reading for
    the last [days] days with the given [Limit], most recent first. *)
Class BehaviorTable : Type := {
  query_behavior : string -> R -> Z -> nat -> list record
}.

(** [float(s)] for a string is taken from the interpreter. *)
Class FloatParser : Type := {
  float_of_string : string -> option R
}.

Section Behavior.

Context {RT : Runtime} {BT : BehaviorTable}.

(** [get_user_behavior], the same in both servers. *)
Definition get_user_behavior (user_id : string) (days : Z) (limit : nat)
  : M (list loc) :=
  let cache_key :=
    _cache_key "behavior" (String.append user_id (String.append ":" (pretty days))) in
  let! cached := _is_cached cache_key in
  if cached : bool then (let! p := cache_read cache_key in as_items p)
  else
    try_except
      (run! store_call in
       let! items := gets (fun w => query_behavior user_id (w_now w) days limit) in
       let! ls := alloc_all items in
       run! cache_write cache_key (CItems ls) in
       ret ls)
      (ret []).

End Behavior.

Module RecommendationEngine.

(** [ACTION_WEIGHTS.get(action, 0)] of [server_production.py]. *)
Definition action_weight (action : Z) : R :=
  match action with
  | 0%Z => 1
  | 1%Z => 3
  | 2%Z => 5
  | 3%Z => 4
  | 4%Z => 4
  | 5%Z => - (1 / 2)
  | 6%Z => - 2
  | 7%Z => - 2
  | _ => 0
  end.

(** [float(v)] *)
Definition float {FP : FloatParser} (v : pyval) : result R :=
  match v with
  | PNone => Raise TypeError
  | PInt z => Ok (IZR z)
  | PStr s => match float_of_string s with
              | Some x => Ok x
              | None => Raise ValueError
              end
  end.

(** [d[k] += x] on a [defaultdict(float)]. *)
Definition add_score (k : pyval) (x : R) (d : gmap pyval R) : gmap pyval R :=
  <[k := default 0 (d !! k) + x]> d.

(** [d[k] += 1] on a [defaultdict(int)]. *)
Definition add_one (k : pyval) (d : gmap pyval Z) : gmap pyval Z :=
  <[k := (default 0 (d !! k) + 1)%Z]> d.

(** [min(watch_time / 60, 1) * 2] *)
Definition watch_bonus (watch_time : R) : R := Rmin (watch_time / 60) 1 * 2.

(** The body of the loop over the behaviour items: the three conversions
    come before the first update. *)
Definition tally_item {FP : FloatParser} (item : record)
    (acc : Production.preferences) : result Production.preferences :=
  let content_id := Py.get item "contentId" (PStr "") in
  match Py.int (Py.get item "actionType" (PInt 0)) with
  | Raise e => Raise e
  | Ok action =>
  let weight := action_weight action in
  let creator_id := Py.get item "contentOwnerId" (PStr "") in
  match Py.int (Py.get item "hour" (PInt 12)) with
  | Raise e => Raise e
  | Ok hour =>
  match float (Py.get item "watchTime" (PInt 0)) with
  | Raise e => Raise e
  | Ok watch_time =>
      let content_scores :=
        add_score content_id weight (Production.pref_content acc) in
      let creator_scores :=
        if Py.truthy creator_id
        then add_score creator_id (weight * (1 / 2)) (Production.pref_creators acc)
        else Production.pref_creators acc in
      let hour_activity := add_one (PInt hour) (Production.pref_active_hours acc) in
      let content_scores :=
        if Rlt_dec 0 watch_time
        then add_score content_id (watch_bonus watch_time) content_scores
        else content_scores in
      Ok (Production.mk_preferences content_scores creator_scores hour_activity)
  end end end.

Fixpoint tally {FP : FloatParser} (behavior : list record)
    (acc : Production.preferences) : result Production.preferences :=
  match behavior with
  | [] => Ok acc
  | item :: rest =>
      match tally_item item acc with
      | Ok acc' => tally rest acc'
      | Raise e => Raise e
      end
  end.

(** [compute_user_preferences]: the three tables and the interaction
    count. *)
Definition compute_user_preferences {FP : FloatParser} (behavior : list record)
  : result (Production.preferences * nat) :=
  match tally behavior (Production.mk_preferences ∅ ∅ ∅) with
  | Ok prefs => Ok (prefs, length behavior)
  | Raise e => Raise e
  end.

Section Ranking.

Context {RT : Runtime} {BT : BehaviorTable} {FP : FloatParser}.

Definition score_entry (prefs : Production.preferences) (following : list pyval)
    (l : loc) : M recommendation :=
  let! content := heap_read l in
  let! score := Production.score_content content prefs following in
  ret (mk_recommendation
         (Py.get content "contentId" (PStr ""))
         (Py.get content "_type" (PStr "unknown"))
         (round2 score)
         (Py.or (Py.get content "userId" PNone) (Py.get content "creatorId" PNone))).

(** The request counter and the latency bookkeeping are left out. *)
Definition get_recommendations (user_id : string) (limit : Z)
    (content_type : string) : M (list recommendation) :=
  let! behavior := get_user_behavior user_id 30 200 in
  let! following := get_user_follows user_id in
  let! items := mapM heap_read behavior in
  let! preferences := lift (compute_user_preferences items) in
  let! all_content := gather_content content_type in
  let! all_content :=
    filterM (fun l => let! c := heap_read l in ret (not_own user_id c)) all_content in
  let! scored := mapM (score_entry (fst preferences) following) all_content in
  ret (Py.slice_to (sort_desc scored) limit).

End Ranking.

End RecommendationEngine.

(** The weighted contribution of one behaviour item to the score of the
    content it names. *)
Definition item_content_score {FP : FloatParser} (item : record) : R :=
  match Py.int (Py.get item "actionType" (PInt 0)),
        RecommendationEngine.float (Py.get item "watchTime" (PInt 0)) with
  | Ok action, Ok watch_time =>
      RecommendationEngine.action_weight action
      + (if Rlt_dec 0 watch_time
         then RecommendationEngine.watch_bonus watch_time else 0)
  | _, _ => 0
  end.

(** The sum of the contributions of the items that name [content_id]. *)
Fixpoint content_total {FP : FloatParser} (content_id : pyval)
    (behavior : list record) : R :=
  match behavior with
  | [] => 0
  | item :: rest =>
      (if decide (Py.get item "contentId" (PStr "") = content_id)
       then item_content_score item else 0)
      + content_total content_id rest
  end.

(** A parser for the concrete environment: integer literals only. *)
Definition demo_floats : FloatParser :=
  {| float_of_string := fun s => IZR <$> Py.int_of_string s |}.

(** A history of one like of p_new, watched for 30 seconds, and a
    behaviour table that answers every query with it. *)
Definition demo_history : list record :=
  [ {[ "contentId" := PStr "p_new"; "actionType" := PInt 1;
       "watchTime" := PInt 30; "hour" := PInt 8 ]} ].

Definition demo_behavior : BehaviorTable :=
  {| query_behavior := fun _ _ _ limit => take limit demo_history |}.

(** A behaviour item whose three conversions in
    [compute_user_preferences] go through. *)
Definition history_ok {FP : FloatParser} (item : record) : Prop :=
  (exists z, Py.int (Py.get item "actionType" (PInt 0)) = Ok z)
  /\ (exists z, Py.int (Py.get item "hour" (PInt 12)) = Ok z)
  /\ (exists x, RecommendationEngine.float (Py.get item "watchTime" (PInt 0)) = Ok x).

(** A record that reads without raising both as a candidate and as an
    item of the history. *)
Definition readable {FP : FloatParser} (r : record) : Prop :=
  record_ok r /\ history_ok r.

(** * Properties *)

(** ** The Python primitives on examples *)

Example int_of_padded_string : Py.int (PStr " -1_000 ") = Ok (-1000)%Z.
Proof. reflexivity. Qed.

Example int_of_word : Py.int (PStr "many") = Raise ValueError.
Proof. reflexivity. Qed.

Example or_skips_falsy : Py.or (Py.or PNone (PInt 0)) (PInt 1) = PInt 1.
Proof. reflexivity. Qed.

Example replace_Z_suffix :
  Py.replace_Z "2024-01-09T08:00:00Z" = "2024-01-09T08:00:00+00:00".
Proof. reflexivity. Qed.

Example cache_key_format : _cache_key "user_emb" "u1" = "user_emb:u1".
Proof. reflexivity. Qed.

Example broadcast_mismatch :
  Np.broadcast Rplus [1; 2; 3] [1; 2] = Raise ValueError.
Proof. reflexivity. Qed.

(** ** Arrays: sums of squares, norms, dot products *)

Section ArrayFacts.

Implicit Types a b : list R.

Lemma sum_sq_nonneg a : 0 <= Np.sum_sq a.
Proof.
  induction a as [|x a IH]; simpl; [lra|].
  pose proof (Rle_0_sqr x) as Hx. unfold Rsqr in Hx. lra.
Qed.

Lemma norm_nonneg a : 0 <= Np.norm a.
Proof. apply sqrt_pos. Qed.

Lemma norm_sq a : Np.norm a * Np.norm a = Np.sum_sq a.
Proof. apply sqrt_sqrt, sum_sq_nonneg. Qed.

Lemma norm_zero_iff a : Np.norm a = 0 <-> Np.sum_sq a = 0.
Proof.
  split; intros H0.
  - rewrite <- norm_sq, H0. lra.
  - unfold Np.norm. rewrite H0. apply sqrt_0.
Qed.

Lemma dot_aligned_comm a b : Np.dot_aligned a b = Np.dot_aligned b a.
Proof.
  revert b; induction a as [|x a IH]; intros [|y b]; simpl; try reflexivity.
  rewrite IH. lra.
Qed.

Lemma dot_aligned_self a : Np.dot_aligned a a = Np.sum_sq a.
Proof. induction a as [|x a IH]; simpl; [reflexivity|]. now rewrite IH. Qed.

(** A square below another one, the latter of a non-negative number. *)
Lemma le_of_sq_le (p q : R) : 0 <= p -> q * q <= p * p -> q <= p.
Proof.
  intros Hp Hsq. destruct (Rle_or_lt q p) as [|Hlt]; [assumption|].
  assert (p * p < q * q) by nra. lra.
Qed.

(** Cauchy-Schwarz on the aligned prefix. *)
Lemma cauchy_schwarz a b :
  Np.dot_aligned a b * Np.dot_aligned a b <= Np.sum_sq a * Np.sum_sq b.
Proof.
  revert b; induction a as [|x a IH]; intros [|y b]; simpl.
  - lra.
  - pose proof (sum_sq_nonneg (y :: b)) as H. simpl in H. lra.
  - pose proof (sum_sq_nonneg (x :: a)) as H. simpl in H. lra.
  - specialize (IH b).
    pose proof (sum_sq_nonneg a) as HA. pose proof (sum_sq_nonneg b) as HB.
    set (d := Np.dot_aligned a b) in *.
    set (A := Np.sum_sq a) in *. set (B := Np.sum_sq b) in *.
    assert (Hcross : 2 * (x * y * d) <= x * x * B + y * y * A).
    { apply le_of_sq_le.
      - pose proof (Rle_0_sqr x) as Hx. pose proof (Rle_0_sqr y) as Hy.
        unfold Rsqr in *. nra.
      - assert (H1 : (x * y) * (x * y) * (d * d) <= (x * y) * (x * y) * (A * B)).
        { apply Rmult_le_compat_l; [|assumption].
          pose proof (Rle_0_sqr (x * y)) as H. unfold Rsqr in H. exact H. }
        pose proof (Rle_0_sqr (x * x * B - y * y * A)) as H2.
        unfold Rsqr in H2. nra. }
    nra.
Qed.

Lemma dot_abs_le a b :
  - (Np.norm a * Np.norm b) <= Np.dot_aligned a b <= Np.norm a * Np.norm b.
Proof.
  pose proof (cauchy_schwarz a b) as Hcs.
  pose proof (norm_nonneg a) as Ha. pose proof (norm_nonneg b) as Hb.
  assert (Hp : 0 <= Np.norm a * Np.norm b) by nra.
  assert (Hsq : Np.sum_sq a * Np.sum_sq b
                = (Np.norm a * Np.norm b) * (Np.norm a * Np.norm b)).
  { rewrite <- (norm_sq a), <- (norm_sq b). ring. }
  rewrite Hsq in Hcs.
  split.
  - assert (- Np.dot_aligned a b <= Np.norm a * Np.norm b).
    { apply le_of_sq_le; [assumption|]. nra. }
    lra.
  - apply le_of_sq_le; assumption.
Qed.

Lemma sum_sq_div a k : k <> 0 ->
  Np.sum_sq (Np.div_scalar a k) = Np.sum_sq a / (k * k).
Proof.
  intros Hk. induction a as [|x a IH]; simpl.
  - unfold Rdiv. ring.
  - rewrite IH. field. assumption.
Qed.

Lemma norm_div_self a : 0 < Np.norm a ->
  Np.norm (Np.div_scalar a (Np.norm a)) = 1.
Proof.
  intros Hn. unfold Np.norm at 1.
  rewrite sum_sq_div by lra. rewrite norm_sq.
  assert (Hs : 0 < Np.sum_sq a) by (rewrite <- norm_sq; nra).
  replace (Np.sum_sq a / Np.sum_sq a) with 1 by (field; lra).
  apply sqrt_1.
Qed.

End ArrayFacts.

Section SimilarityFacts.

Implicit Types a b v : list R.

Lemma sum_sq_zero_all a : Np.sum_sq a = 0 -> Forall (fun x => x = 0) a.
Proof.
  induction a as [|x a IH]; simpl; intros H0; constructor.
  - pose proof (sum_sq_nonneg a). pose proof (Rle_0_sqr x) as Hx.
    unfold Rsqr in Hx. nra.
  - apply IH. pose proof (sum_sq_nonneg a). pose proof (Rle_0_sqr x) as Hx.
    unfold Rsqr in Hx. lra.
Qed.

Lemma norm_pos_of_nonzero v : Exists (fun x => x <> 0) v -> Np.norm v <> 0.
Proof.
  intros Hex Hn. apply norm_zero_iff, sum_sq_zero_all in Hn.
  apply Exists_exists in Hex as (x & Hin & Hx).
  rewrite Forall_forall in Hn. apply Hx, Hn, Hin.
Qed.

Lemma similarity_guard a b :
  Np.norm a = 0 \/ Np.norm b = 0 -> NeuralEmbedding.similarity a b = Ok 0.
Proof.
  intros H0. unfold NeuralEmbedding.similarity.
  destruct (Req_dec_T (Np.norm a) 0); [reflexivity|].
  destruct (Req_dec_T (Np.norm b) 0); [reflexivity|].
  destruct H0; contradiction.
Qed.

Lemma similarity_value a b :
  length a = length b -> Np.norm a <> 0 -> Np.norm b <> 0 ->
  NeuralEmbedding.similarity a b
  = Ok (Np.dot_aligned a b / (Np.norm a * Np.norm b)).
Proof.
  intros Hlen Ha Hb. unfold NeuralEmbedding.similarity, Np.dot.
  destruct (Req_dec_T (Np.norm a) 0); [contradiction|].
  destruct (Req_dec_T (Np.norm b) 0); [contradiction|].
  rewrite decide_True by assumption. reflexivity.
Qed.

Lemma similarity_total a b :
  length a = length b ->
  exists s, NeuralEmbedding.similarity a b = Ok s /\ -1 <= s <= 1.
Proof.
  intros Hlen.
  destruct (Req_dec_T (Np.norm a) 0) as [Ha|Ha].
  { exists 0. split; [apply similarity_guard; auto|lra]. }
  destruct (Req_dec_T (Np.norm b) 0) as [Hb|Hb].
  { exists 0. split; [apply similarity_guard; auto|lra]. }
  eexists. split; [apply similarity_value; assumption|].
  pose proof (dot_abs_le a b) as Hd.
  pose proof (norm_nonneg a). pose proof (norm_nonneg b).
  assert (Hp : 0 < Np.norm a * Np.norm b) by nra.
  split.
  - apply Rmult_le_reg_r with (Np.norm a * Np.norm b); [assumption|].
    unfold Rdiv. rewrite Rmult_assoc, Rinv_l by lra. lra.
  - apply Rmult_le_reg_r with (Np.norm a * Np.norm b); [assumption|].
    unfold Rdiv. rewrite Rmult_assoc, Rinv_l by lra. lra.
Qed.

Lemma similarity_sym a b :
  length a = length b ->
  NeuralEmbedding.similarity a b = NeuralEmbedding.similarity b a.
Proof.
  intros Hlen.
  destruct (Req_dec_T (Np.norm a) 0) as [Ha|Ha].
  { rewrite !similarity_guard; auto. }
  destruct (Req_dec_T (Np.norm b) 0) as [Hb|Hb].
  { rewrite !similarity_guard; auto. }
  rewrite !similarity_value by auto.
  rewrite dot_aligned_comm, (Rmult_comm (Np.norm a)). reflexivity.
Qed.

Lemma similarity_self v :
  Np.norm v <> 0 -> NeuralEmbedding.similarity v v = Ok 1.
Proof.
  intros Hv. rewrite similarity_value by auto.
  rewrite dot_aligned_self, norm_sq. f_equal. field.
  rewrite <- norm_sq. nra.
Qed.



End SimilarityFacts.

Section UpdateFacts.

Implicit Types current target u t : list R.

Lemma zip_scale_minus k current target :
  zip_with Rplus current (Np.scale k (zip_with Rminus target current))
  = step_towards k current target.
Proof.
  unfold step_towards, Np.scale.
  revert target; induction current as [|c current IH]; intros [|x target];
    simpl; try reflexivity.
  now rewrite IH.
Qed.

Lemma moved_aligned current target weight lr :
  length current = length target ->
  NeuralEmbedding.moved current target weight lr
  = Ok (step_towards (lr * weight) current target).
Proof.
  intros Hlen. unfold NeuralEmbedding.moved, Np.broadcast.
  rewrite decide_True by (symmetry; exact Hlen).
  rewrite decide_True.
  - now rewrite zip_scale_minus.
  - unfold Np.scale. rewrite length_map, length_zip_with. lia.
Qed.

Lemma update_embedding_cases current target weight lr :
  length current = length target ->
  let updated := step_towards (lr * weight) current target in
  NeuralEmbedding.update_embedding current target weight lr
  = Ok (if Rlt_dec 1 (Np.norm updated)
        then Np.div_scalar updated (Np.norm updated) else updated).
Proof.
  intros Hlen updated. unfold NeuralEmbedding.update_embedding.
  rewrite moved_aligned by assumption. fold updated.
  destruct (Rlt_dec 1 (Np.norm updated)); reflexivity.
Qed.



End UpdateFacts.

(** ** Repeated updates and similarity to the target *)

Section Convergence.

Implicit Types u t v : list R.

Lemma dot_step k u t :
  length u = length t ->
  Np.dot_aligned (step_towards k u t) t
  = (1 - k) * Np.dot_aligned u t + k * Np.sum_sq t.
Proof.
  unfold step_towards.
  revert t; induction u as [|c u IH]; intros [|x t] Hlen; simpl in *;
    try discriminate; [ring|].
  rewrite IH by lia. ring.
Qed.

Lemma sum_sq_step k u t :
  length u = length t ->
  Np.sum_sq (step_towards k u t)
  = (1 - k) * (1 - k) * Np.sum_sq u + 2 * k * (1 - k) * Np.dot_aligned u t
    + k * k * Np.sum_sq t.
Proof.
  unfold step_towards.
  revert t; induction u as [|c u IH]; intros [|x t] Hlen; simpl in *;
    try discriminate; [ring|].
  rewrite IH by lia. ring.
Qed.

Lemma length_step k u t :
  length u = length t -> length (step_towards k u t) = length u.
Proof. intros Hlen. unfold step_towards. rewrite length_zip_with. lia. Qed.

Lemma dot_div v t n :
  Np.dot_aligned (Np.div_scalar v n) t = Np.dot_aligned v t / n.
Proof.
  unfold Np.div_scalar.
  revert t; induction v as [|c v IH]; intros [|x t]; simpl;
    try (unfold Rdiv; ring).
  rewrite IH. unfold Rdiv. ring.
Qed.

(** The value [similarity] computes from the three inner products. *)
Lemma similarity_of_products u t :
  length u = length t ->
  exists s, NeuralEmbedding.similarity u t = Ok s
    /\ (Np.sum_sq u = 0 \/ Np.sum_sq t = 0 -> s = 0)
    /\ (0 < Np.sum_sq u -> 0 < Np.sum_sq t ->
        s = Np.dot_aligned u t / (sqrt (Np.sum_sq u) * sqrt (Np.sum_sq t))).
Proof.
  intros Hlen.
  destruct (Req_dec_T (Np.norm u) 0) as [Hu|Hu].
  { exists 0. rewrite similarity_guard by auto. repeat split; auto.
    intros Hp _. apply norm_zero_iff in Hu. lra. }
  destruct (Req_dec_T (Np.norm t) 0) as [Ht|Ht].
  { exists 0. rewrite similarity_guard by auto. repeat split; auto.
    intros _ Hp. apply norm_zero_iff in Ht. lra. }
  eexists. split; [apply similarity_value; assumption|]. split.
  - intros [H0|H0]; apply norm_zero_iff in H0; contradiction.
  - intros _ _. reflexivity.
Qed.

(** Dividing by a positive number does not change the similarity. *)
Lemma similarity_div v t n :
  length v = length t -> 0 < n ->
  NeuralEmbedding.similarity (Np.div_scalar v n) t = NeuralEmbedding.similarity v t.
Proof.
  intros Hlen Hn.
  assert (Hnorm : Np.norm (Np.div_scalar v n) = Np.norm v / n).
  { unfold Np.norm. rewrite sum_sq_div by lra.
    rewrite sqrt_div_alt by nra. rewrite sqrt_square by lra. reflexivity. }
  assert (Hl : length (Np.div_scalar v n) = length t).
  { unfold Np.div_scalar. rewrite length_map. exact Hlen. }
  destruct (Req_dec_T (Np.norm v) 0) as [Hv|Hv].
  { rewrite !similarity_guard; auto. left. rewrite Hnorm, Hv. unfold Rdiv. ring. }
  destruct (Req_dec_T (Np.norm t) 0) as [Ht|Ht].
  { rewrite !similarity_guard; auto. }
  pose proof (norm_nonneg v).
  rewrite !similarity_value; auto.
  - rewrite Hnorm, dot_div. f_equal. field. lra.
  - rewrite Hnorm. intros H0. apply Hv.
    apply Rmult_eq_reg_r with (/ n); [|apply Rinv_neq_0_compat; lra].
    unfold Rdiv in H0. rewrite H0. ring.
Qed.

(** After the clamp the similarity to any vector is that of the moved one. *)
Lemma update_embedding_similarity u t w lr :
  length u = length t ->
  exists out, NeuralEmbedding.update_embedding u t w lr = Ok out
    /\ length out = length u
    /\ NeuralEmbedding.similarity out t
       = NeuralEmbedding.similarity (step_towards (lr * w) u t) t.
Proof.
  intros Hlen. rewrite update_embedding_cases by assumption. cbv zeta.
  eexists. split; [reflexivity|].
  pose proof (length_step (lr * w) u t Hlen) as Hl.
  destruct (Rlt_dec 1 (Np.norm (step_towards (lr * w) u t))) as [Hgt|Hle].
  - split.
    + unfold Np.div_scalar. rewrite length_map. exact Hl.
    + apply similarity_div; [lia|lra].
  - split; [exact Hl|reflexivity].
Qed.

(** The moved vector's products, written from those of [u] and [t]. *)
Lemma products_identity (A B C k : R) :
  ((1 - k) * C + k * B) * ((1 - k) * C + k * B) * A
  - C * C * ((1 - k) * (1 - k) * A + 2 * k * (1 - k) * C + k * k * B)
  = k * (A * B - C * C) * (2 * (1 - k) * C + k * B).
Proof. ring. Qed.

Lemma cosine_core_up (A B C k a a' : R) :
  0 <= A -> 0 <= B -> C * C <= A * B -> 0 < k <= 1 ->
  0 <= a -> a * a = A -> 0 <= a' ->
  a' * a' = (1 - k) * (1 - k) * A + 2 * k * (1 - k) * C + k * k * B ->
  C * a' <= ((1 - k) * C + k * B) * a.
Proof.
  intros HA HB Hcs Hk Ha HaA Ha' Ha'A.
  pose proof (products_identity A B C k) as Hid.
  set (C' := (1 - k) * C + k * B) in *.
  assert (Hgap : 0 <= A * B - C * C) by lra.
  destruct (Rle_or_lt 0 C) as [HC|HC].
  - assert (HC' : 0 <= C') by (unfold C'; nra).
    apply le_of_sq_le; [nra|].
    assert (0 <= k * (A * B - C * C) * (2 * (1 - k) * C + k * B)).
    { apply Rmult_le_pos; [nra|nra]. }
    replace (C * a' * (C * a')) with (C * C * (a' * a')) by ring.
    replace (C' * a * (C' * a)) with (C' * C' * (a * a)) by ring.
    rewrite HaA, Ha'A. lra.
  - destruct (Rle_or_lt 0 C') as [HC'|HC'].
    + assert (C * a' <= 0) by nra. assert (0 <= C' * a) by nra. lra.
    + assert (Hneg : - C' * a <= - C * a').
      { apply le_of_sq_le; [nra|].
        assert (k * (A * B - C * C) * (2 * (1 - k) * C + k * B) <= 0).
        { assert (2 * (1 - k) * C + k * B <= 0) by (unfold C' in HC'; nra).
          assert (0 <= k * (A * B - C * C)) by nra. nra. }
        replace (- C' * a * (- C' * a)) with (C' * C' * (a * a)) by ring.
        replace (- C * a' * (- C * a')) with (C * C * (a' * a')) by ring.
        rewrite HaA, Ha'A. lra. }
      lra.
Qed.

Lemma cosine_core_down (A B C k a a' : R) :
  0 <= A -> 0 <= B -> C * C <= A * B -> k < 0 ->
  0 <= a -> a * a = A -> 0 <= a' ->
  a' * a' = (1 - k) * (1 - k) * A + 2 * k * (1 - k) * C + k * k * B ->
  ((1 - k) * C + k * B) * a <= C * a'.
Proof.
  intros HA HB Hcs Hk Ha HaA Ha' Ha'A.
  pose proof (products_identity A B C k) as Hid.
  set (C' := (1 - k) * C + k * B) in *.
  assert (Hgap : 0 <= A * B - C * C) by lra.
  destruct (Rle_or_lt C 0) as [HC|HC].
  - assert (HC' : C' <= 0) by (unfold C'; nra).
    assert (Hneg : - C * a' <= - C' * a).
    { apply le_of_sq_le; [nra|].
      assert (0 <= k * (A * B - C * C) * (2 * (1 - k) * C + k * B)).
      { assert (2 * (1 - k) * C + k * B <= 0) by nra.
        assert (k * (A * B - C * C) <= 0) by nra. nra. }
      replace (- C' * a * (- C' * a)) with (C' * C' * (a * a)) by ring.
      replace (- C * a' * (- C * a')) with (C * C * (a' * a')) by ring.
      rewrite HaA, Ha'A. lra. }
    lra.
  - destruct (Rle_or_lt C' 0) as [HC'|HC'].
    + assert (C' * a <= 0) by nra. assert (0 <= C * a') by nra. lra.
    + apply le_of_sq_le; [nra|].
      assert (k * (A * B - C * C) * (2 * (1 - k) * C + k * B) <= 0).
      { assert (0 <= 2 * (1 - k) * C + k * B) by (unfold C' in HC'; nra).
        assert (k * (A * B - C * C) <= 0) by nra. nra. }
      replace (C * a' * (C * a')) with (C * C * (a' * a')) by ring.
      replace (C' * a * (C' * a)) with (C' * C' * (a * a)) by ring.
      rewrite HaA, Ha'A. lra.
Qed.

Lemma quotient_le (C C' a a' b : R) :
  0 < a -> 0 < a' -> 0 < b -> C * a' <= C' * a ->
  C / (a * b) <= C' / (a' * b).
Proof.
  intros Ha Ha' Hb Hle.
  assert (Heq : C' / (a' * b) - C / (a * b) = (C' * a - C * a') / (a * a' * b)).
  { field. lra. }
  assert (0 <= (C' * a - C * a') / (a * a' * b)).
  { apply Rmult_le_pos; [lra|]. left. apply Rinv_0_lt_compat.
    apply Rmult_lt_0_compat; [apply Rmult_lt_0_compat|]; assumption. }
  lra.
Qed.

Lemma quotient_sign (C a b : R) : 0 < a -> 0 < b ->
  (0 <= C -> 0 <= C / (a * b)) /\ (C <= 0 -> C / (a * b) <= 0).
Proof.
  intros Ha Hb.
  assert (Hp : 0 < / (a * b)).
  { apply Rinv_0_lt_compat, Rmult_lt_0_compat; assumption. }
  unfold Rdiv. split; intros HC; nra.
Qed.

(** One step with [0 < k <= 1] does not lower the similarity to [t]; one
    step with [k < 0] does not raise it. *)
Lemma step_similarity k u t :
  length u = length t ->
  exists s s',
    NeuralEmbedding.similarity u t = Ok s
    /\ NeuralEmbedding.similarity (step_towards k u t) t = Ok s'
    /\ (0 < k <= 1 -> s <= s')
    /\ (k < 0 -> s' <= s).
Proof.
  intros Hlen.
  destruct (similarity_of_products u t Hlen) as (s & Hs & Hs0 & Hspos).
  pose proof (length_step k u t Hlen) as Hlv.
  destruct (similarity_of_products (step_towards k u t) t ltac:(lia))
    as (s' & Hs' & Hs'0 & Hs'pos).
  exists s, s'. split; [exact Hs|]. split; [exact Hs'|].
  pose proof (cauchy_schwarz u t) as Hcs.
  pose proof (cauchy_schwarz (step_towards k u t) t) as Hcs'.
  pose proof (sum_sq_nonneg u) as HA. pose proof (sum_sq_nonneg t) as HB.
  pose proof (sum_sq_nonneg (step_towards k u t)) as HA'.
  rewrite sum_sq_step in Hs'0, Hs'pos, Hcs', HA' by assumption.
  rewrite dot_step in Hs'pos, Hcs' by assumption.
  set (A := Np.sum_sq u) in *. set (B := Np.sum_sq t) in *.
  set (C := Np.dot_aligned u t) in *.
  set (A' := (1 - k) * (1 - k) * A + 2 * k * (1 - k) * C + k * k * B) in *.
  set (C' := (1 - k) * C + k * B) in *.
  destruct (Req_dec_T B 0) as [HB0|HB0].
  { rewrite Hs0, Hs'0 by auto. split; intros _; lra. }
  assert (HBp : 0 < B) by lra.
  assert (Hb : 0 < sqrt B) by (apply sqrt_lt_R0; assumption).
  destruct (Req_dec_T A 0) as [HA0|HA0].
  { rewrite Hs0 by auto.
    assert (HC0 : C = 0) by (rewrite HA0 in Hcs; nra).
    destruct (Req_dec_T A' 0) as [HA'0|HA'0].
    { rewrite Hs'0 by auto. split; intros _; lra. }
    assert (HA'p : 0 < A') by lra.
    rewrite Hs'pos by assumption.
    pose proof (quotient_sign C' (sqrt A') (sqrt B)
                  ltac:(apply sqrt_lt_R0; assumption) Hb) as [Hge Hle].
    split; intros Hk.
    - apply Hge. unfold C'. rewrite HC0. nra.
    - apply Hle. unfold C'. rewrite HC0. nra. }
  assert (HAp : 0 < A) by lra.
  assert (Ha : 0 < sqrt A) by (apply sqrt_lt_R0; assumption).
  rewrite (Hspos HAp HBp).
  destruct (Req_dec_T A' 0) as [HA'0|HA'0].
  { rewrite Hs'0 by auto.
    pose proof (quotient_sign C (sqrt A) (sqrt B) Ha Hb) as [Hge Hle].
    split; intros Hk.
    - apply Hle. unfold A' in HA'0.
      destruct (Rle_or_lt C 0); [assumption|].
      assert (0 <= (1 - k) * (1 - k) * A) by (apply Rmult_le_pos; nra).
      assert (0 < k * k * B) by (apply Rmult_lt_0_compat; nra).
      assert (0 <= 2 * k * (1 - k) * C) by (repeat apply Rmult_le_pos; lra).
      lra.
    - apply Hge. unfold A' in HA'0.
      destruct (Rle_or_lt 0 C); [assumption|].
      assert (0 < (1 - k) * (1 - k) * A) by (apply Rmult_lt_0_compat; nra).
      assert (0 <= k * k * B) by (apply Rmult_le_pos; nra).
      assert (0 <= 2 * k * (1 - k) * C).
      { replace (2 * k * (1 - k) * C) with (2 * (- k) * (1 - k) * (- C)) by ring.
        repeat apply Rmult_le_pos; lra. }
      lra. }
  assert (HA'p : 0 < A') by lra.
  assert (Ha' : 0 < sqrt A') by (apply sqrt_lt_R0; assumption).
  rewrite (Hs'pos HA'p HBp).
  split; intros Hk.
  - apply quotient_le; try assumption.
    apply (cosine_core_up A B C k (sqrt A) (sqrt A')); try lra.
    + apply sqrt_sqrt; lra.
    + change (sqrt A' * sqrt A' = A'). apply sqrt_sqrt; lra.
  - apply quotient_le; try assumption.
    apply (cosine_core_down A B C k (sqrt A) (sqrt A')); try lra.
    + apply sqrt_sqrt; lra.
    + change (sqrt A' * sqrt A' = A'). apply sqrt_sqrt; lra.
Qed.

Lemma repeat_update_length n u t w lr :
  length u = length t ->
  exists v, repeat_update n u t w lr = Ok v /\ length v = length t.
Proof.
  intros Hlen. induction n as [|n (v & Hv & Hl)]; simpl.
  - exists u. split; [reflexivity|assumption].
  - rewrite Hv.
    destruct (update_embedding_similarity v t w lr Hl) as (out & Hout & Hlo & _).
    exists out. split; [assumption|lia].
Qed.

(** Every positive entry of the weight table stays within the range at the
    configured learning rate, every negative one below it. *)
Lemma action_weight_range (a : Z) :
  (0 < action_weight a -> 0 < LEARNING_RATE * action_weight a <= 1)
  /\ (action_weight a < 0 -> LEARNING_RATE * action_weight a < 0).
Proof.
  unfold LEARNING_RATE, action_weight.
  destruct a as [|p|p]; try (split; lra).
  do 3 (destruct p as [p|p|]; try (split; lra)).
Qed.



Lemma norm_of_square (a : list R) (n : R) :
  0 <= n -> Np.sum_sq a = n * n -> Np.norm a = n.
Proof. intros Hn Hsq. unfold Np.norm. rewrite Hsq. apply sqrt_square, Hn. Qed.


End Convergence.

(** ** The content feature vector *)

Section Features.

Context {RT : Runtime}.

Implicit Types e : list R.
Implicit Types content : record.

Lemma set_slice_length i vs e : length (set_slice i vs e) = length e.
Proof.
  revert i e; induction vs as [|v vs IH]; intros i e; simpl; [reflexivity|].
  rewrite IH. apply length_insert.
Qed.

Lemma set_slice_lookup_out i vs e (j : nat) :
  (j < i)%nat \/ (i + length vs <= j)%nat -> set_slice i vs e !! j = e !! j.
Proof.
  revert i e; induction vs as [|v vs IH]; intros i e Hj; simpl; [reflexivity|].
  rewrite IH by (simpl in Hj; lia).
  apply list_lookup_insert_ne. simpl in Hj. lia.
Qed.

Lemma hash_fill_length h i n e : length (hash_fill h i n e) = length e.
Proof.
  revert i e; induction n as [|n IH]; intros i e; simpl; [reflexivity|].
  rewrite IH. apply length_insert.
Qed.

Lemma hash_fill_lookup_lt h i n e (j : nat) :
  (j < i)%nat -> hash_fill h i n e !! j = e !! j.
Proof.
  revert i e; induction n as [|n IH]; intros i e Hj; simpl; [reflexivity|].
  rewrite IH by lia. apply list_lookup_insert_ne. lia.
Qed.

Lemma hash_fill_lookup_in h i n e (j : nat) :
  (i <= j < i + n)%nat -> (j < length e)%nat ->
  hash_fill h i n e !! j
  = Some (IZR (Z.land (Z.shiftr h (Z.of_nat (j - 30))) 255) / 255).
Proof.
  revert i e; induction n as [|n IH]; intros i e Hj Hl; simpl; [lia|].
  destruct (decide (i = j)) as [->|Hne].
  - rewrite hash_fill_lookup_lt by lia.
    apply list_lookup_insert_eq. exact Hl.
  - apply IH; [lia|]. rewrite length_insert. exact Hl.
Qed.

Lemma byte_fraction_range (h : Z) : 0 <= IZR (Z.land h 255) / 255 <= 1.
Proof.
  replace (Z.land h 255) with (h mod 2 ^ 8)%Z
    by (change 255%Z with (Z.ones 8); rewrite Z.land_ones; lia).
  pose proof (Z.mod_pos_bound h (2 ^ 8) ltac:(lia)) as [Hlo Hhi].
  apply IZR_le in Hlo.
  assert (Hhi' : (h mod 2 ^ 8 <= 255)%Z) by lia. apply IZR_le in Hhi'.
  split.
  - apply Rmult_le_pos; [exact Hlo|lra].
  - apply Rmult_le_reg_r with 255; [lra|].
    unfold Rdiv. rewrite Rmult_assoc, Rinv_l by lra. lra.
Qed.

Lemma time_features_length now content e :
  length (time_features now content e) = length e.
Proof.
  unfold time_features. destruct (created_of content); [|reflexivity].
  now rewrite !length_insert.
Qed.

Lemma time_features_lookup_out now content e (j : nat) :
  j <> 5%nat -> j <> 6%nat -> j <> 7%nat ->
  time_features now content e !! j = e !! j.
Proof.
  intros H5 H6 H7. unfold time_features.
  destruct (created_of content); [|reflexivity].
  now rewrite !list_lookup_insert_ne by congruence.
Qed.

Lemma type_features_length content e :
  length (type_features content e) = length e.
Proof. unfold type_features. repeat case_decide; apply set_slice_length. Qed.

Lemma type_features_lookup_out content e (j : nat) :
  (j < 10)%nat \/ (15 <= j)%nat -> type_features content e !! j = e !! j.
Proof.
  intros Hj. unfold type_features.
  repeat case_decide; apply set_slice_lookup_out; simpl; lia.
Qed.

(** What is in the vector before the hash fill, away from the time and
    type blocks. *)
Lemma features_lookup_plain now content e (j : nat) :
  (j < 5)%nat \/ (8 <= j < 10)%nat \/ (15 <= j)%nat ->
  type_features content (time_features now content e) !! j = e !! j.
Proof.
  intros Hj.
  rewrite type_features_lookup_out by lia.
  apply time_features_lookup_out; lia.
Qed.

Lemma hash_fill_lookup_ge h i n e (j : nat) :
  (i + n <= j)%nat -> hash_fill h i n e !! j = e !! j.
Proof.
  revert i e; induction n as [|n IH]; intros i e Hj; simpl; [reflexivity|].
  rewrite IH by lia. apply list_lookup_insert_ne. lia.
Qed.

Lemma hash_features_ok content e :
  id_encodable content ->
  exists e', hash_features content e = Ok e'
    /\ length e' = length e
    /\ (forall j : nat, (j < 30)%nat -> e' !! j = e !! j)
    /\ (forall (j : nat) x, (30 <= j)%nat -> e !! j = Some 0 -> e' !! j = Some x ->
                            0 <= x <= 1).
Proof.
  intros Hid. unfold hash_features.
  destruct (Py.truthy (content_id_of content)) eqn:Ht.
  - destruct Hid as [Hf|(s & Hs)]; [congruence|]. rewrite Hs.
    eexists. split; [reflexivity|]. split; [apply hash_fill_length|]. split.
    + intros j Hj. apply hash_fill_lookup_lt. lia.
    + intros j x Hj He Hx.
      assert (Hlt : (j < length e)%nat) by (eapply lookup_lt_Some; exact He).
      destruct (decide (j < 30 + (EMBEDDING_DIM - 30))%nat) as [Hin|Hout].
      * rewrite hash_fill_lookup_in in Hx by lia.
        injection Hx as <-. apply byte_fraction_range.
      * rewrite hash_fill_lookup_ge in Hx by lia.
        rewrite He in Hx. injection Hx as <-. lra.
  - exists e. split; [reflexivity|]. split; [reflexivity|]. split; [auto|].
    intros j x _ He Hx. rewrite He in Hx. injection Hx as <-. lra.
Qed.

Lemma engagement_features_length likes views comments shares :
  length (engagement_features likes views comments shares) = EMBEDDING_DIM.
Proof.
  unfold engagement_features, Np.zeros.
  now rewrite !length_insert, length_replicate.
Qed.

Lemma engagement_features_rest likes views comments shares (j : nat) :
  (5 <= j < EMBEDDING_DIM)%nat ->
  engagement_features likes views comments shares !! j = Some 0.
Proof.
  intros Hj. unfold engagement_features, Np.zeros.
  rewrite !list_lookup_insert_ne by lia.
  apply lookup_replicate_2. lia.
Qed.

Lemma clamped_ratio_range (z : Z) (d : R) :
  0 < d -> Rmin (IZR z / d) 1 <= 1 /\ ((0 <= z)%Z -> 0 <= Rmin (IZR z / d) 1).
Proof.
  intros Hd. split; [apply Rmin_r|].
  intros Hz. apply Rmin_glb; [|lra].
  apply IZR_le in Hz. apply Rmult_le_pos; [exact Hz|].
  left. apply Rinv_0_lt_compat, Hd.
Qed.

(** The vector is the engagement, time and type blocks below index 30 and
    byte fractions from there on. *)
Lemma create_content_embedding_ok now content likes views comments shares :
  counter content "likes" "likeCount" 0 = Ok likes ->
  counter content "viewCount" "views" 1 = Ok views ->
  counter content "commentsCount" "commentCount" 0 = Ok comments ->
  counter1 content "shares" = Ok shares ->
  id_encodable content ->
  exists e,
    create_content_embedding now content = Ok e
    /\ length e = EMBEDDING_DIM
    /\ (forall j : nat, (j < 30)%nat ->
        e !! j = type_features content
                   (time_features now content
                      (engagement_features likes views comments shares)) !! j)
    /\ (forall (j : nat) x, (30 <= j)%nat -> e !! j = Some x -> 0 <= x <= 1).
Proof.
  intros Hlikes Hviews Hcomments Hshares Hid.
  unfold create_content_embedding.
  rewrite Hlikes, Hviews, Hcomments, Hshares. cbv zeta.
  set (e1 := engagement_features likes views comments shares).
  destruct (hash_features_ok content
              (type_features content (time_features now content e1)) Hid)
    as (e & He & Hlen & Hlow & Hhigh).
  rewrite type_features_length, time_features_length in Hlen.
  unfold e1 in Hlen. rewrite engagement_features_length in Hlen.
  exists e. split; [exact He|]. split; [exact Hlen|]. split; [exact Hlow|].
  intros j x Hj Hx.
  assert (Hlt : (j < EMBEDDING_DIM)%nat).
  { rewrite <- Hlen. eapply lookup_lt_Some. exact Hx. }
  apply (Hhigh j x Hj); [|exact Hx].
  rewrite features_lookup_plain by lia.
  apply engagement_features_rest. lia.
Qed.

Lemma time_features_recency now content e created_dt :
  created_of content = Some created_dt -> (5 < length e)%nat ->
  time_features now content e !! 5%nat
  = Some (Rmax 0 (1 - hours_old now created_dt / 168)).
Proof.
  intros Hc Hl. unfold time_features. rewrite Hc.
  rewrite !list_lookup_insert_ne by lia.
  apply list_lookup_insert_eq. exact Hl.
Qed.

Lemma set_slice_Forall (P : R -> Prop) i vs e :
  Forall P vs -> Forall P e -> Forall P (set_slice i vs e).
Proof.
  intros Hvs. revert i e. induction Hvs as [|v vs Hv _ IH]; intros i e He; simpl.
  - exact He.
  - apply IH. apply Forall_insert; assumption.
Qed.

(** When the counters are not negative, the engagement rate is at most 1,
    and the timestamp, if any, is not in the future and has an hour and a
    weekday in range, every entry of the vector lies in [0, 1]. *)
Lemma content_embedding_unit_entries now content likes views comments shares e :
  counter content "likes" "likeCount" 0 = Ok likes ->
  counter content "viewCount" "views" 1 = Ok views ->
  counter content "commentsCount" "commentCount" 0 = Ok comments ->
  counter1 content "shares" = Ok shares ->
  id_encodable content ->
  create_content_embedding now content = Ok e ->
  (0 <= likes)%Z -> (0 <= views)%Z -> (0 <= comments)%Z -> (0 <= shares)%Z ->
  (likes + comments * 2 + shares * 3 <= Z.max views 1)%Z ->
  (forall d, created_of content = Some d ->
             0 <= hours_old now d
             /\ (0 <= dt_hour d <= 24)%Z /\ (0 <= dt_weekday d <= 7)%Z) ->
  Forall (fun x => 0 <= x <= 1) e.
Proof.
  intros Hlikes Hviews Hcomments Hshares Hid He Hl Hv Hc Hs Hrate Htime.
  destruct (create_content_embedding_ok now content likes views comments shares
              Hlikes Hviews Hcomments Hshares Hid)
    as (e' & He' & Hlen & Hlow & Hhigh).
  rewrite He in He'. injection He' as <-.
  set (P := fun x : R => 0 <= x <= 1).
  assert (Hratio : forall (z : Z) (d : R), (0 <= z)%Z -> 0 < d -> P (Rmin (IZR z / d) 1)).
  { intros z d Hz Hd. destruct (clamped_ratio_range z d Hd) as [Hle Hge].
    split; [apply Hge, Hz|exact Hle]. }
  assert (Hfrac : forall (z m : Z), (0 <= z <= m)%Z -> (0 < m)%Z -> P (IZR z / IZR m)).
  { intros z m [Hz Hzm] Hm. apply IZR_le in Hz, Hzm. apply IZR_lt in Hm.
    split.
    - apply Rmult_le_pos; [exact Hz|]. left. apply Rinv_0_lt_compat, Hm.
    - apply Rmult_le_reg_r with (IZR m); [exact Hm|].
      unfold Rdiv. rewrite Rmult_assoc, Rinv_l by lra. lra. }
  assert (He1 : Forall P (engagement_features likes views comments shares)).
  { unfold engagement_features.
    repeat apply Forall_insert; try (apply Hratio; [assumption|lra]).
    - unfold Np.zeros. apply Forall_replicate. unfold P. lra.
    - apply Hfrac; lia. }
  assert (Ht : Forall P (time_features now content
                           (engagement_features likes views comments shares))).
  { revert He1. generalize (engagement_features likes views comments shares).
    intros e1 He1.
    unfold time_features. destruct (created_of content) as [d|] eqn:Hd; [|exact He1].
    destruct (Htime d eq_refl) as (Hh & Hhour & Hday).
    repeat apply Forall_insert; try exact He1.
    - unfold P. split; [apply Rmax_l|].
      apply Rmax_lub; [lra|]. assert (0 <= hours_old now d / 168) by lra. lra.
    - apply (Hfrac _ 24%Z); lia.
    - apply (Hfrac _ 7%Z); lia. }
  assert (Hty : Forall P (type_features content
                            (time_features now content
                               (engagement_features likes views comments shares)))).
  { unfold type_features.
    repeat case_decide; (apply set_slice_Forall; [|exact Ht]);
      repeat (apply Forall_cons_2; [unfold P; lra|]); apply Forall_nil_2. }
  apply Forall_lookup. intros j x Hx.
  destruct (decide (j < 30)%nat) as [Hj|Hj].
  - rewrite Hlow in Hx by exact Hj.
    rewrite Forall_lookup in Hty. exact (Hty j x Hx).
  - apply (Hhigh j x); [lia|exact Hx].
Qed.


End Features.



(** ** Saving embeddings *)

Section Saving.

Context {RT : Runtime}.

Lemma save_user_embedding_cases user_id embedding w :
  exists w', save_user_embedding user_id embedding w = (Ok tt, w')
    /\ (next_call_fails w = false ->
        user_embeddings (w_store w') !! user_id = Some embedding
        /\ w_cache w' !! _cache_key "user_emb" user_id = Some (CEmb embedding)
        /\ w_cache_times w' !! _cache_key "user_emb" user_id = Some (w_now w))
    /\ (next_call_fails w = true ->
        w_store w' = w_store w /\ w_cache w' = w_cache w
        /\ w_cache_times w' = w_cache_times w).
Proof.
  unfold save_user_embedding, try_except, put_user_embedding, bind, store_call,
    cache_write, modify, ret, next_call_fails.
  destruct (w_faults w) as [|[|] fs]; simpl; eexists; (split; [reflexivity|]);
    split; intros Hf; try discriminate; simpl;
    rewrite ?lookup_insert_eq; auto.
Qed.

Lemma save_content_embedding_cases content_id embedding w :
  exists w', save_content_embedding content_id embedding w = (Ok tt, w')
    /\ (next_call_fails w = false ->
        content_embeddings (w_store w') !! Py.str content_id = Some embedding
        /\ w_cache w' !! _cache_key "content_emb" (Py.str content_id)
           = Some (CEmb embedding)
        /\ w_cache_times w' !! _cache_key "content_emb" (Py.str content_id)
           = Some (w_now w))
    /\ (next_call_fails w = true ->
        w_store w' = w_store w /\ w_cache w' = w_cache w
        /\ w_cache_times w' = w_cache_times w).
Proof.
  unfold save_content_embedding, try_except, put_content_embedding, bind,
    store_call, cache_write, modify, ret, next_call_fails.
  destruct (w_faults w) as [|[|] fs]; simpl; eexists; (split; [reflexivity|]);
    split; intros Hf; try discriminate; simpl;
    rewrite ?lookup_insert_eq; auto.
Qed.

(** C5, as amended. A save never raises. When the store accepts the write,
    the store and then the cache hold the new vector, stamped with the
    current time; when the store write fails, the error is swallowed and
    neither the store nor the cache changes. *)
Theorem save_embedding_write_through user_id content_id embedding w :
  (exists w', save_user_embedding user_id embedding w = (Ok tt, w')
     /\ (next_call_fails w = false ->
         user_embeddings (w_store w') !! user_id = Some embedding
         /\ w_cache w' !! _cache_key "user_emb" user_id = Some (CEmb embedding)
         /\ w_cache_times w' !! _cache_key "user_emb" user_id = Some (w_now w))
     /\ (next_call_fails w = true ->
         w_store w' = w_store w /\ w_cache w' = w_cache w
         /\ w_cache_times w' = w_cache_times w))
  /\ (exists w', save_content_embedding content_id embedding w = (Ok tt, w')
     /\ (next_call_fails w = false ->
         content_embeddings (w_store w') !! Py.str content_id = Some embedding
         /\ w_cache w' !! _cache_key "content_emb" (Py.str content_id)
            = Some (CEmb embedding)
         /\ w_cache_times w' !! _cache_key "content_emb" (Py.str content_id)
            = Some (w_now w))
     /\ (next_call_fails w = true ->
         w_store w' = w_store w /\ w_cache w' = w_cache w
         /\ w_cache_times w' = w_cache_times w)).
Proof.
  unfold save_user_embedding, save_content_embedding, try_except,
    put_user_embedding, put_content_embedding, bind, store_call, cache_write,
    modify, ret, next_call_fails.
  destruct (w_faults w) as [|[|] fs]; simpl.
  - split; eexists; (split; [reflexivity|]); split; intros Hf;
      try discriminate; simpl; rewrite ?lookup_insert_eq; auto.
  - split; eexists; (split; [reflexivity|]); split; intros Hf;
      try discriminate; simpl; auto.
  - split; eexists; (split; [reflexivity|]); split; intros Hf;
      try discriminate; simpl; rewrite ?lookup_insert_eq; auto.
Qed.

End Saving.

(** C5, as stated, fails: when the store write fails the save returns
    normally but the cache does not hold the new vector. *)
Lemma failed_save_skips_cache :
  let w := demo_world empty_store [true] 0 in
  exists w', save_user_embedding "u1" [1; 0] w = (Ok tt, w')
             /\ w_cache w' !! _cache_key "user_emb" "u1" = None
             /\ w_cache w' !! _cache_key "user_emb" "u1" <> Some (CEmb [1; 0]).
Proof.
  eexists. split; [reflexivity|]. split; [reflexivity|]. discriminate.
Qed.

(** ** Initial vectors *)

Section InitialVectors.

Context {RT : Runtime}.

Lemma randn_array_length n g : length (fst (randn_array n g)) = n.
Proof.
  revert g; induction n as [|n IH]; intros g; simpl; [reflexivity|].
  destruct (np_randn g) as [x g1]. specialize (IH g1).
  destruct (randn_array n g1) as [xs g2]. simpl in *. now rewrite IH.
Qed.

Lemma create_random_embedding_value w :
  create_random_embedding w
  = (Ok (Np.scale (sqrt (2 / INR EMBEDDING_DIM))
                  (fst (randn_array EMBEDDING_DIM (w_rng w)))),
     set_rng (snd (randn_array EMBEDDING_DIM (w_rng w))) w).
Proof.
  unfold create_random_embedding.
  destruct (randn_array EMBEDDING_DIM (w_rng w)) as [xs g]. reflexivity.
Qed.

(** The lookup that precedes creation: nothing valid in the cache, and the
    store either fails or has no item. *)
Lemma get_user_embedding_create user_id w :
  w_cache_times w !! _cache_key "user_emb" user_id = None ->
  user_embeddings (w_store w) !! user_id = None ->
  exists w',
    get_user_embedding user_id w
    = (Ok (Np.scale (sqrt (2 / INR EMBEDDING_DIM))
                    (fst (randn_array EMBEDDING_DIM (w_rng w)))), w')
    /\ w_rng w' = snd (randn_array EMBEDDING_DIM (w_rng w)).
Proof.
  intros Hc Hs.
  unfold get_user_embedding, bind, _is_cached. rewrite Hc.
  unfold try_except, bind, store_call, gets, ret.
  destruct (w_faults w) as [|[|] fs]; simpl; rewrite ?Hs; simpl;
    rewrite create_random_embedding_value; simpl;
    match goal with
    | |- context [save_user_embedding ?u ?e ?x] =>
        destruct (save_user_embedding_cases u e x) as (w1 & Hsave & Hok & Hfail);
        rewrite Hsave;
        assert (Hrng : w_rng w1 = w_rng x);
        [ revert Hsave;
          unfold save_user_embedding, try_except, put_user_embedding, bind,
            store_call, cache_write, modify, ret;
          destruct (w_faults x) as [|[|] ?]; simpl; intros [= <-]; reflexivity
        | exists w1; split; [reflexivity|]; rewrite Hrng; reflexivity ]
    end.
Qed.

(** With the store unreachable nothing is kept of the created vector. *)
Lemma get_user_embedding_store_down user_id w fs :
  w_cache_times w !! _cache_key "user_emb" user_id = None ->
  w_faults w = true :: true :: fs ->
  get_user_embedding user_id w
  = (Ok (Np.scale (sqrt (2 / INR EMBEDDING_DIM))
                  (fst (randn_array EMBEDDING_DIM (w_rng w)))),
     set_faults fs (set_rng (snd (randn_array EMBEDDING_DIM (w_rng w))) w)).
Proof.
  intros Hc Hf.
  unfold get_user_embedding, bind, _is_cached. rewrite Hc.
  unfold try_except, bind, store_call, gets, ret. rewrite Hf.
  rewrite create_random_embedding_value.
  unfold save_user_embedding, try_except, put_user_embedding, bind, store_call, ret.
  simpl. reflexivity.
Qed.

(** C3, as amended. [create_random_embedding] has no seed key: on the
    create-on-first-reference path [get_user_embedding] returns, for any two
    user ids alike, the next 64 normal draws of the process-wide generator,
    each scaled by [sqrt(2/64)], and leaves the generator advanced past
    those draws. *)
Theorem initial_vector_from_generator user_id1 user_id2 w :
  w_cache_times w !! _cache_key "user_emb" user_id1 = None ->
  w_cache_times w !! _cache_key "user_emb" user_id2 = None ->
  user_embeddings (w_store w) !! user_id1 = None ->
  user_embeddings (w_store w) !! user_id2 = None ->
  exists v w1 w2,
    get_user_embedding user_id1 w = (Ok v, w1)
    /\ get_user_embedding user_id2 w = (Ok v, w2)
    /\ v = Np.scale (sqrt (2 / INR EMBEDDING_DIM))
                    (fst (randn_array EMBEDDING_DIM (w_rng w)))
    /\ length v = EMBEDDING_DIM
    /\ w_rng w1 = snd (randn_array EMBEDDING_DIM (w_rng w))
    /\ w_rng w2 = snd (randn_array EMBEDDING_DIM (w_rng w)).
Proof.
  intros Hc1 Hc2 Hs1 Hs2.
  destruct (get_user_embedding_create user_id1 w Hc1 Hs1) as (w1 & H1 & Hg1).
  destruct (get_user_embedding_create user_id2 w Hc2 Hs2) as (w2 & H2 & Hg2).
  eexists _, w1, w2. split; [exact H1|]. split; [exact H2|].
  split; [reflexivity|]. split; [|split; assumption].
  unfold Np.scale. rewrite length_map. apply randn_array_length.
Qed.

End InitialVectors.

Lemma initial_vector_from_generator_witness :
  let w := demo_world empty_store [] 0 in
  exists v w1 w2,
    get_user_embedding "u1" w = (Ok v, w1)
    /\ get_user_embedding "u2" w = (Ok v, w2)
    /\ length v = EMBEDDING_DIM.
Proof.
  destruct (initial_vector_from_generator (RT := demo_runtime) "u1" "u2"
              (demo_world empty_store [] 0))
    as (v & w1 & w2 & H1 & H2 & _ & Hl & _); try reflexivity.
  exists v, w1, w2. auto.
Defined.

(** In the concrete environment the draws are the successive naturals. *)
Lemma demo_randn_array (n g : nat) :
  randn_array (RT := demo_runtime) n g = (map INR (seq g n), (g + n)%nat).
Proof.
  revert g; induction n as [|n IH]; intros g; simpl.
  - f_equal. lia.
  - rewrite IH. f_equal. lia.
Qed.

(** C3, as stated, fails: two calls of the initialiser in a row return
    different vectors, and with the store unreachable so do two requests
    for one user id. *)
Lemma initial_vector_not_reproducible :
  let w := demo_world empty_store [true; true; true; true] 0 in
  exists v1 w1 v2 w2,
    get_user_embedding "u1" w = (Ok v1, w1)
    /\ get_user_embedding "u1" w1 = (Ok v2, w2)
    /\ v1 <> v2.
Proof.
  intros w.
  assert (Hs : 0 < sqrt (2 / INR EMBEDDING_DIM)).
  { apply sqrt_lt_R0. unfold EMBEDDING_DIM.
    apply Rmult_lt_0_compat; [lra|]. apply Rinv_0_lt_compat.
    apply (lt_INR 0). lia. }
  eexists _, _, _, _.
  split; [apply (get_user_embedding_store_down "u1" w [true; true]); reflexivity|].
  split; [apply (get_user_embedding_store_down "u1" _ []); reflexivity|].
  unfold w, demo_world. cbn [w_rng set_rng set_faults].
  rewrite !demo_randn_array. cbn [fst snd].
  unfold EMBEDDING_DIM, Np.scale.
  change (seq 0 64) with (O :: seq 1 63).
  change (seq (0 + 64) 64) with (64%nat :: seq 65 63).
  assert (H64 : 0 < INR 64) by (apply (lt_INR 0); lia).
  change (INR EMBEDDING_DIM) with (INR 64) in Hs.
  cbn [map]. change (INR 0) with 0.
  remember (INR 64) as k eqn:Hk. remember (sqrt (2 / k)) as c eqn:Hc.
  intros Heq. injection Heq as Heq _. nra.
Qed.

(** ** What an operation leaves alone *)

Section Frame.

Context {RT : Runtime} {X : Type} (f : world -> X).

Lemma preserves_ret {A} (a : A) : preserves f (ret a).
Proof. intros w. reflexivity. Qed.

Lemma preserves_raise {A} e : preserves f (raise (A := A) e).
Proof. intros w. reflexivity. Qed.

Lemma preserves_lift {A} (r : result A) : preserves f (lift r).
Proof. intros w. reflexivity. Qed.

Lemma preserves_gets {A} (g : world -> A) : preserves f (gets g).
Proof. intros w. reflexivity. Qed.

Lemma preserves_bind {A B} (m : M A) (k : A -> M B) :
  preserves f m -> (forall a, preserves f (k a)) -> preserves f (bind m k).
Proof.
  intros Hm Hk w. unfold bind. specialize (Hm w).
  destruct (m w) as [[a|e] w1]; simpl in *; [|exact Hm].
  rewrite (Hk a w1). exact Hm.
Qed.

Lemma preserves_try {A} (m h : M A) :
  preserves f m -> preserves f h -> preserves f (try_except m h).
Proof.
  intros Hm Hh w. unfold try_except. specialize (Hm w).
  destruct (m w) as [[a|e] w1]; simpl in *; [exact Hm|].
  rewrite (Hh w1). exact Hm.
Qed.

Lemma preserves_mapM {A B} (g : A -> M B) l :
  (forall a, preserves f (g a)) -> preserves f (mapM g l).
Proof.
  intros Hg. induction l as [|a l IH]; simpl; [apply preserves_ret|].
  apply preserves_bind; [apply Hg|]. intros b.
  apply preserves_bind; [exact IH|]. intros bs. apply preserves_ret.
Qed.

Hypothesis Hf : frame_field f.

Lemma preserves_store_call : preserves f store_call.
Proof.
  intros w. unfold store_call.
  destruct (w_faults w) as [|b fs]; simpl; [reflexivity|].
  destruct b; simpl; apply ff_faults, Hf.
Qed.

Lemma preserves_is_cached k : preserves f (_is_cached k).
Proof.
  intros w. unfold _is_cached. destruct (w_cache_times w !! k); reflexivity.
Qed.

Lemma preserves_cache_read k : preserves f (cache_read k).
Proof. intros w. unfold cache_read. destruct (w_cache w !! k); reflexivity. Qed.

Lemma preserves_cache_write k p :
  ignores_cache_at f k -> preserves f (cache_write k p).
Proof. intros Hk w. unfold cache_write, modify. simpl. apply Hk. Qed.

Lemma preserves_as_emb p : preserves f (as_emb p).
Proof. intros w. destruct p; reflexivity. Qed.

Lemma preserves_as_items p : preserves f (as_items p).
Proof. intros w. destruct p; reflexivity. Qed.

Lemma preserves_as_ids p : preserves f (as_ids p).
Proof. intros w. destruct p; reflexivity. Qed.

Lemma preserves_create_random_embedding : preserves f create_random_embedding.
Proof.
  intros w. rewrite create_random_embedding_value. simpl. apply ff_rng, Hf.
Qed.

Lemma preserves_put_user_embedding u e : preserves f (put_user_embedding u e).
Proof.
  unfold put_user_embedding. apply preserves_bind; [apply preserves_store_call|].
  intros _ w. unfold modify. simpl. apply ff_user_embeddings, Hf.
Qed.

Lemma preserves_put_content_embedding c e : preserves f (put_content_embedding c e).
Proof.
  unfold put_content_embedding. apply preserves_bind; [apply preserves_store_call|].
  intros _ w. unfold modify. simpl. apply ff_content_embeddings, Hf.
Qed.

Lemma preserves_np_random :
  preserves f (fun w => let '(x, g) := np_random (w_rng w) in (Ok x, set_rng g w)).
Proof.
  intros w. destruct (np_random (w_rng w)) as [x g]. simpl. apply ff_rng, Hf.
Qed.

End Frame.

Ltac frame_step :=
  first
    [ apply preserves_ret | apply preserves_raise | apply preserves_lift
    | apply preserves_gets
    | apply preserves_store_call; assumption
    | apply preserves_is_cached
    | apply preserves_cache_read
    | apply preserves_cache_write; assumption
    | apply preserves_as_emb | apply preserves_as_items | apply preserves_as_ids
    | apply preserves_create_random_embedding; assumption
    | apply preserves_put_user_embedding; assumption
    | apply preserves_put_content_embedding; assumption
    | apply preserves_np_random; assumption
    | apply preserves_try
    | apply preserves_bind; [|intros ?]
    | match goal with
      | |- preserves _ (if ?b then _ else _) => destruct b
      | |- preserves _ (match ?x with _ => _ end) => destruct x
      end ].

Section FrameClient.

Context {RT : Runtime} {X : Type} (f : world -> X) (Hf : frame_field f).

Lemma preserves_save_user_embedding u e :
  ignores_cache_at f (_cache_key "user_emb" u) ->
  preserves f (save_user_embedding u e).
Proof. intros Hk. unfold save_user_embedding. repeat frame_step. Qed.

Lemma preserves_save_content_embedding c e :
  ignores_cache_at f (_cache_key "content_emb" (Py.str c)) ->
  preserves f (save_content_embedding c e).
Proof. intros Hk. unfold save_content_embedding. repeat frame_step. Qed.

Lemma preserves_get_user_embedding u :
  ignores_cache_at f (_cache_key "user_emb" u) ->
  preserves f (get_user_embedding u).
Proof.
  intros Hk. unfold get_user_embedding.
  repeat first [apply preserves_save_user_embedding; assumption | frame_step].
Qed.

Lemma preserves_get_content_embedding c content :
  ignores_cache_at f (_cache_key "content_emb" (Py.str c)) ->
  preserves f (get_content_embedding c content).
Proof.
  intros Hk. unfold get_content_embedding.
  repeat first [apply preserves_save_content_embedding; assumption | frame_step].
Qed.

Lemma preserves_get_user_follows u :
  ignores_cache_at f (_cache_key "follows" u) ->
  preserves f (get_user_follows u).
Proof. intros Hk. unfold get_user_follows. repeat frame_step. Qed.

Lemma preserves_score_content user_emb (content : record) following :
  ignores_cache_at f (_cache_key "content_emb" (Py.str (content_id_of content))) ->
  preserves f (score_content user_emb content following).
Proof.
  intros Hk. unfold score_content.
  repeat first [apply preserves_get_content_embedding; assumption | frame_step].
Qed.

End FrameClient.

Lemma heap_frame {RT : Runtime} : frame_field w_heap.
Proof. split; reflexivity. Qed.

Lemma now_frame {RT : Runtime} : frame_field w_now.
Proof. split; reflexivity. Qed.

Lemma heap_ignores_cache {RT : Runtime} k : ignores_cache_at w_heap k.
Proof. intros p t w. reflexivity. Qed.

Lemma now_ignores_cache {RT : Runtime} k : ignores_cache_at w_now k.
Proof. intros p t w. reflexivity. Qed.

(** The content tables and the follow table are never written. *)
Lemma catalog_frame {RT : Runtime} :
  frame_field (fun w => (posts (w_store w), ott_videos (w_store w),
                         follows (w_store w))).
Proof. split; reflexivity. Qed.

Lemma catalog_ignores_cache {RT : Runtime} k :
  ignores_cache_at
    (fun w => (posts (w_store w), ott_videos (w_store w), follows (w_store w))) k.
Proof. intros p t w. reflexivity. Qed.

(** The cache under one key is untouched by a write under another. *)
Lemma cache_entry_frame {RT : Runtime} k0 :
  frame_field (fun w => (w_cache w !! k0, w_cache_times w !! k0)).
Proof. split; reflexivity. Qed.

Lemma cache_entry_ignores {RT : Runtime} k0 k :
  k <> k0 -> ignores_cache_at (fun w => (w_cache w !! k0, w_cache_times w !! k0)) k.
Proof.
  intros Hk p t w. simpl. now rewrite !lookup_insert_ne by exact Hk.
Qed.

(** ** Scoring one candidate *)

Section Scoring.

Context {RT : Runtime}.

Lemma counter_default (content : record) k1 k2 last :
  content !! k1 = None -> content !! k2 = None ->
  counter content k1 k2 last = Ok last.
Proof.
  intros H1 H2. unfold counter, Py.get. rewrite H1, H2. simpl.
  unfold Py.or. simpl. destruct (Z.eqb last 0) eqn:E; simpl; [|reflexivity].
  apply Z.eqb_eq in E. now subst.
Qed.

Lemma recency_boost_none now (content : record) :
  created_of content = None -> recency_boost now content = 0.
Proof. intros H. unfold recency_boost. now rewrite H. Qed.

Lemma get_content_embedding_cached content_id content w t v :
  w_cache_times w !! _cache_key "content_emb" (Py.str content_id) = Some t ->
  w_now w - t < IZR CACHE_TTL ->
  w_cache w !! _cache_key "content_emb" (Py.str content_id) = Some (CEmb v) ->
  get_content_embedding content_id content w = (Ok v, w).
Proof.
  intros Ht Hfresh Hc. unfold get_content_embedding, bind, _is_cached.
  rewrite Ht. destruct (Rlt_dec (w_now w - t) (IZR CACHE_TTL)); [|contradiction].
  unfold cache_read. rewrite Hc. reflexivity.
Qed.

(** Nothing cached, nothing stored, the store reachable: the vector is
    built from the record and saved. *)
Lemma get_content_embedding_fresh content_id (c : record) w :
  w_cache_times w !! _cache_key "content_emb" (Py.str content_id) = None ->
  content_embeddings (w_store w) !! Py.str content_id = None ->
  w_faults w = [] ->
  c <> ∅ ->
  get_content_embedding content_id (Some c) w
  = match create_content_embedding (w_now w) c with
    | Ok e => (Ok e, snd (save_content_embedding content_id e w))
    | Raise x => (Raise x, w)
    end.
Proof.
  intros Ht Hs Hf Hc. unfold get_content_embedding, bind, _is_cached.
  rewrite Ht. unfold try_except, bind, store_call, gets, ret. rewrite Hf, Hs.
  rewrite decide_False by exact Hc. unfold lift.
  destruct (create_content_embedding (w_now w) c) as [e|x]; [|reflexivity].
  destruct (save_content_embedding_cases content_id e w) as (w' & Hsave & _).
  rewrite Hsave. reflexivity.
Qed.

(** The run of [score_content] once its fallible steps are known to pass. *)
Lemma score_content_run user_emb (content : record) following w content_emb w1
    s likes views comments :
  get_content_embedding (content_id_of content) (Some content) w
  = (Ok content_emb, w1) ->
  NeuralEmbedding.similarity user_emb content_emb = Ok s ->
  counter content "likes" "likeCount" 0 = Ok likes ->
  counter content "viewCount" "views" 1 = Ok views ->
  counter content "commentsCount" "commentCount" 0 = Ok comments ->
  score_content user_emb content following w
  = (Ok (s * 50 + engagement_boost likes views comments
         + follow_boost content following + recency_boost (w_now w) content
         + fst (np_random (w_rng w1)) * 5),
     set_rng (snd (np_random (w_rng w1))) w1).
Proof.
  intros Hemb Hs Hlikes Hviews Hcomments.
  assert (Hnow : w_now w1 = w_now w).
  { pose proof (preserves_get_content_embedding w_now now_frame
                  (content_id_of content) (Some content)
                  (now_ignores_cache _) w) as H.
    rewrite Hemb in H. exact H. }
  unfold score_content, bind. rewrite Hemb.
  unfold lift. rewrite Hs, Hlikes, Hviews, Hcomments.
  unfold gets, ret. rewrite Hnow.
  destruct (np_random (w_rng w1)) as [u g]. reflexivity.
Qed.


End Scoring.



(** ** The recency scenario *)

Section Recency.

Context {RT : Runtime}.

(** Inner product with a vector that is zero away from one index. *)
Lemma dot_aligned_single (n i : nat) (c : R) (v : list R) :
  (i < n)%nat -> (n <= length v)%nat ->
  Np.dot_aligned (<[i := c]> (replicate n 0)) v = c * default 0 (v !! i).
Proof.
  revert i v; induction n as [|n IH]; intros i v Hi Hn; [lia|].
  destruct v as [|x v]; simpl in Hn; [lia|].
  destruct i as [|i]; simpl.
  - assert (Hz : forall (m : nat) u, Np.dot_aligned (replicate m 0) u = 0).
    { clear. induction m as [|m IHm]; intros [|y u]; simpl; try reflexivity.
      rewrite IHm. ring. }
    rewrite Hz. ring.
  - rewrite IH by lia. ring.
Qed.

Lemma sum_sq_single (n i : nat) (c : R) :
  (i < n)%nat -> Np.sum_sq (<[i := c]> (replicate n 0)) = c * c.
Proof.
  revert i; induction n as [|n IH]; intros i Hi; [lia|].
  destruct i as [|i]; simpl.
  - assert (Hz : forall m : nat, Np.sum_sq (replicate m 0) = 0).
    { clear. induction m as [|m IHm]; simpl; [reflexivity|]. rewrite IHm. ring. }
    rewrite Hz. ring.
  - rewrite IH by lia. ring.
Qed.

(** A vector with all entries in [0, 1] has a squared norm of at most its
    length. *)
Lemma sum_sq_unit_entries (v : list R) :
  Forall (fun x => 0 <= x <= 1) v -> Np.sum_sq v <= INR (length v).
Proof.
  induction 1 as [|x v Hx _ IH]; [simpl; lra|].
  change (length (x :: v)) with (S (length v)). rewrite S_INR. simpl. nra.
Qed.

Lemma recency_boost_value now (content : record) created_dt :
  created_of content = Some created_dt ->
  recency_boost now content = Rmax 0 (15 - hours_old now created_dt / 4).
Proof. intros H. unfold recency_boost. now rewrite H. Qed.


End Recency.


(** The state a save leaves when the store is reachable. *)
Lemma save_content_embedding_world {RT : Runtime} content_id e w :
  w_faults w = [] ->
  snd (save_content_embedding content_id e w)
  = set_cache
      (<[_cache_key "content_emb" (Py.str content_id) := CEmb e]> (w_cache w))
      (<[_cache_key "content_emb" (Py.str content_id) := w_now w]> (w_cache_times w))
      (set_store
         (mk_store (user_embeddings (w_store w))
                   (<[Py.str content_id := e]> (content_embeddings (w_store w)))
                   (posts (w_store w)) (ott_videos (w_store w)) (follows (w_store w)))
         w).
Proof.
  intros Hf.
  unfold save_content_embedding, try_except, put_content_embedding, bind,
    store_call, cache_write, modify, ret.
  rewrite Hf. reflexivity.
Qed.

(** The similarity of [demo_averse] with a vector is minus the latter's
    recency entry over its norm. *)
Lemma demo_averse_similarity (e : list R) (x : R) :
  length e = EMBEDDING_DIM -> e !! 5%nat = Some x ->
  exists s, NeuralEmbedding.similarity demo_averse e = Ok s
            /\ (x = 0 -> s = 0)
            /\ (x = 1 -> Forall (fun y => 0 <= y <= 1) e -> s <= - (1 / 8)).
Proof.
  intros Hlen Hx.
  assert (Hl : length demo_averse = length e).
  { unfold demo_averse, Np.zeros. rewrite length_insert, length_replicate.
    now rewrite Hlen. }
  assert (Hdot : Np.dot_aligned demo_averse e = - x).
  { unfold demo_averse, Np.zeros. rewrite dot_aligned_single.
    - rewrite Hx. simpl. ring.
    - unfold EMBEDDING_DIM. lia.
    - rewrite Hlen. lia. }
  assert (Hsq : Np.sum_sq demo_averse = 1).
  { unfold demo_averse, Np.zeros. rewrite sum_sq_single; [ring|].
    unfold EMBEDDING_DIM. lia. }
  assert (Hn : Np.norm demo_averse = 1).
  { apply norm_of_square; [lra|]. rewrite Hsq. ring. }
  destruct (similarity_of_products demo_averse e Hl) as (s & Hs & Hs0 & Hspos).
  exists s. split; [exact Hs|]. rewrite Hsq, Hdot in *. split.
  - intros ->. pose proof (sum_sq_nonneg e) as He.
    destruct (Req_dec_T (Np.sum_sq e) 0) as [H0|H0]; [apply Hs0; auto|].
    rewrite Hspos by lra. unfold Rdiv. ring.
  - intros -> Hunit.
    pose proof (cauchy_schwarz demo_averse e) as Hcs. rewrite Hdot, Hsq in Hcs.
    pose proof (sum_sq_unit_entries e Hunit) as Hup. rewrite Hlen in Hup.
    assert (H64 : INR EMBEDDING_DIM = 64).
    { unfold EMBEDDING_DIM. rewrite (INR_IZR_INZ 64). reflexivity. }
    rewrite H64 in Hup.
    assert (Hlow : 1 <= Np.sum_sq e) by lra.
    rewrite Hspos by lra. rewrite sqrt_1.
    set (n := sqrt (Np.sum_sq e)).
    assert (Hnn : n * n = Np.sum_sq e) by (apply sqrt_sqrt; lra).
    assert (Hn0 : 0 <= n) by apply sqrt_pos.
    assert (Hn1 : 1 <= n) by nra.
    assert (Hn8 : n <= 8) by nra.
    apply Rmult_le_reg_r with (8 * n); [lra|].
    replace (- (1) / (1 * n) * (8 * n)) with (- 8) by (field; lra).
    lra.
Qed.


(** ** Sorting the scored candidates *)

Section Sorting.

Implicit Types l : list recommendation.

Lemma insert_desc_perm x l : insert_desc x l ≡ₚ x :: l.
Proof.
  induction l as [|y l IH]; simpl; [reflexivity|].
  destruct (Rlt_dec (r_score x) (r_score y)); [|reflexivity].
  rewrite IH. apply Permutation_swap.
Qed.

Lemma sort_desc_perm l : sort_desc l ≡ₚ l.
Proof.
  induction l as [|x l IH]; simpl; [reflexivity|].
  rewrite insert_desc_perm. now rewrite IH.
Qed.

Lemma insert_desc_sorted x l :
  StronglySorted outranks l -> StronglySorted outranks (insert_desc x l).
Proof.
  induction 1 as [|y l Hl IH Hy]; simpl.
  - constructor; [constructor|constructor].
  - destruct (Rlt_dec (r_score x) (r_score y)) as [Hlt|Hge].
    + constructor; [exact IH|].
      rewrite insert_desc_perm. constructor; [|exact Hy].
      unfold outranks. lra.
    + constructor; [constructor; assumption|].
      constructor; [unfold outranks; lra|].
      eapply Forall_impl; [exact Hy|].
      intros z Hz. unfold outranks in *. lra.
Qed.

Lemma sort_desc_sorted l : StronglySorted outranks (sort_desc l).
Proof.
  induction l as [|x l IH]; simpl; [constructor|].
  apply insert_desc_sorted, IH.
Qed.

(** An entry is put behind larger scores only, so in front of every entry
    of its own score. *)
Lemma insert_desc_with_score s x l :
  with_score s (insert_desc x l) = with_score s (x :: l).
Proof.
  unfold with_score.
  induction l as [|y l IH]; simpl; [reflexivity|].
  destruct (Rlt_dec (r_score x) (r_score y)) as [Hlt|Hge]; [|reflexivity].
  rewrite filter_cons, IH, !filter_cons.
  destruct (decide (r_score y = s)) as [Hy|Hy];
    destruct (decide (r_score x = s)) as [Hx|Hx]; try reflexivity.
  exfalso. lra.
Qed.

Lemma sort_desc_stable s l : with_score s (sort_desc l) = with_score s l.
Proof.
  induction l as [|x l IH]; simpl; [reflexivity|].
  rewrite insert_desc_with_score. unfold with_score in *.
  rewrite !filter_cons, IH. reflexivity.
Qed.

Lemma take_sorted n l : StronglySorted outranks l -> StronglySorted outranks (take n l).
Proof.
  intros Hl. revert n. induction Hl as [|x l Hl IH Hx]; intros [|n]; simpl;
    try constructor.
  - apply IH.
  - apply Forall_take. exact Hx.
Qed.

Lemma slice_to_length {A} (l : list A) (n : Z) :
  (0 <= n)%Z -> (Z.of_nat (length (Py.slice_to l n)) <= n)%Z.
Proof.
  intros Hn. unfold Py.slice_to.
  destruct (0 <=? n)%Z eqn:E; [|apply Z.leb_gt in E; lia].
  rewrite length_take. lia.
Qed.

(** A negative bound cuts from the end, as Python's slice does. *)
Example slice_to_negative :
  Py.slice_to [1%nat; 2%nat; 3%nat] (-1) = [1%nat; 2%nat].
Proof. reflexivity. Qed.

End Sorting.

(** ** Running the monad *)

Section Runs.

Context {RT : Runtime}.

Lemma bind_ok {A B} (m : M A) (k : A -> M B) w b w' :
  bind m k w = (Ok b, w') ->
  exists a w1, m w = (Ok a, w1) /\ k a w1 = (Ok b, w').
Proof.
  unfold bind. destruct (m w) as [[a|e] w1]; intros H; [|discriminate].
  exists a, w1. split; [reflexivity|exact H].
Qed.

Lemma ret_ok {A} (a b : A) w w' : ret a w = (Ok b, w') -> a = b /\ w = w'.
Proof. unfold ret. intros [= -> ->]. split; reflexivity. Qed.

Lemma heap_read_ok l w c w' :
  heap_read l w = (Ok c, w') -> w_heap w !! l = Some c /\ w' = w.
Proof.
  unfold heap_read. destruct (w_heap w !! l) as [r|]; intros [= <- <-].
  split; reflexivity.
Qed.

Lemma bind_run {A B} (m : M A) (k : A -> M B) w a w1 :
  m w = (Ok a, w1) -> bind m k w = k a w1.
Proof. intros H. unfold bind. now rewrite H. Qed.

Lemma total_ret {A} (a : A) : total (ret a).
Proof. intros w. exists a, w. reflexivity. Qed.

Lemma total_bind {A B} (m : M A) (k : A -> M B) :
  total m -> (forall a, total (k a)) -> total (bind m k).
Proof.
  intros Hm Hk w. destruct (Hm w) as (a & w1 & Ha).
  rewrite (bind_run _ _ _ _ _ Ha). apply Hk.
Qed.

Lemma total_try {A} (m h : M A) : total h -> total (try_except m h).
Proof.
  intros Hh w. unfold try_except.
  destruct (m w) as [[a|e] w1]; [eauto|apply Hh].
Qed.

Lemma total_create_random_embedding : total create_random_embedding.
Proof. intros w. rewrite create_random_embedding_value. eauto. Qed.

Lemma total_save_user_embedding u e : total (save_user_embedding u e).
Proof.
  intros w. destruct (save_user_embedding_cases u e w) as (w' & H & _). eauto.
Qed.

Lemma is_cached_run k w :
  exists b, _is_cached k w = (Ok b, w)
            /\ (b = true -> is_Some (w_cache_times w !! k)).
Proof.
  unfold _is_cached. destruct (w_cache_times w !! k) as [t|].
  - eexists. split; [reflexivity|]. eauto.
  - exists false. split; [reflexivity|discriminate].
Qed.

End Runs.

(** ** The ranking request *)

Section Ranking.

Context {RT : Runtime}.

(** The filter only reads: it leaves the state as it is and keeps the
    objects that pass the test. *)
Lemma filterM_not_own user_id ls w out w' :
  filterM (fun l => let! c := heap_read l in ret (not_own user_id c)) ls w
  = (Ok out, w') ->
  w' = w
  /\ Forall (fun l => exists c, w_heap w !! l = Some c /\ not_own user_id c = true)
            out.
Proof.
  revert out w'. induction ls as [|l ls IH]; intros out w' Hrun; simpl in Hrun.
  - apply ret_ok in Hrun as [<- <-]. split; [reflexivity|constructor].
  - apply bind_ok in Hrun as (b & w1 & Hb & Hrun).
    apply bind_ok in Hb as (c & w0 & Hc & Hb).
    apply heap_read_ok in Hc as [Hc ->]. apply ret_ok in Hb as [<- <-].
    apply bind_ok in Hrun as (ys & w2 & Hys & Hrun).
    apply ret_ok in Hrun as [<- <-].
    destruct (IH ys w2 Hys) as [-> Hall]. split; [reflexivity|].
    destruct (not_own user_id c) eqn:Hown; [|exact Hall].
    constructor; [|exact Hall]. exists c. split; assumption.
Qed.

Lemma not_own_creator user_id (c : record) :
  not_own user_id c = true ->
  Py.or (Py.get c "userId" PNone) (Py.get c "creatorId" PNone) <> PStr user_id.
Proof.
  unfold not_own. intros H. apply andb_prop in H as [H1 H2].
  apply bool_decide_eq_true in H1, H2.
  unfold Py.or. destruct (Py.truthy (Py.get c "userId" PNone)); assumption.
Qed.

Lemma score_entry_ok user_emb following l w r w' :
  score_entry user_emb following l w = (Ok r, w') ->
  exists c, w_heap w !! l = Some c
            /\ r_creatorId r
               = Py.or (Py.get c "userId" PNone) (Py.get c "creatorId" PNone)
            /\ w_heap w' = w_heap w.
Proof.
  unfold score_entry. intros Hrun.
  apply bind_ok in Hrun as (c & w0 & Hc & Hrun).
  apply heap_read_ok in Hc as [Hc ->].
  apply bind_ok in Hrun as (sc & w1 & Hsc & Hrun).
  apply ret_ok in Hrun as [<- <-].
  exists c. split; [exact Hc|]. split; [reflexivity|].
  pose proof (preserves_score_content w_heap heap_frame user_emb c following
                (heap_ignores_cache _) w) as H.
  rewrite Hsc in H. exact H.
Qed.

Lemma mapM_score_entry user_id user_emb following ls w scored w' :
  mapM (score_entry user_emb following) ls w = (Ok scored, w') ->
  Forall (fun l => exists c, w_heap w !! l = Some c /\ not_own user_id c = true) ls ->
  Forall (fun r => r_creatorId r <> PStr user_id) scored
  /\ length scored = length ls.
Proof.
  revert w scored w'. induction ls as [|l ls IH]; intros w scored w' Hrun Hall;
    simpl in Hrun.
  - apply ret_ok in Hrun as [<- <-]. split; [constructor|reflexivity].
  - apply bind_ok in Hrun as (r & w1 & Hr & Hrun).
    apply bind_ok in Hrun as (rs & w2 & Hrs & Hrun).
    apply ret_ok in Hrun as [<- <-].
    apply Forall_cons in Hall as [(c & Hc & Hown) Hall].
    apply score_entry_ok in Hr as (c' & Hc' & Hcreator & Hheap).
    rewrite Hc in Hc'. injection Hc' as <-.
    destruct (IH w1 rs w2 Hrs) as [Hrest Hlen].
    { rewrite Hheap. exact Hall. }
    split; [|simpl; now rewrite Hlen].
    constructor; [|exact Hrest].
    rewrite Hcreator. apply not_own_creator, Hown.
Qed.

(** The shape of a request that returns: the scored candidates in arrival
    order, sorted and cut. *)
Lemma get_recommendations_ok user_id limit content_type w recs w' :
  get_recommendations user_id limit content_type w = (Ok recs, w') ->
  exists user_emb following cands w1 scored,
    mapM (score_entry user_emb following) cands w1 = (Ok scored, w')
    /\ Forall (fun l => exists c, w_heap w1 !! l = Some c
                                  /\ not_own user_id c = true) cands
    /\ recs = Py.slice_to (sort_desc scored) limit.
Proof.
  unfold get_recommendations. intros Hrun.
  apply bind_ok in Hrun as (user_emb & wa & _ & Hrun).
  apply bind_ok in Hrun as (following & wb & _ & Hrun).
  apply bind_ok in Hrun as (all_content & wc & _ & Hrun).
  apply bind_ok in Hrun as (cands & wd & Hfilter & Hrun).
  apply bind_ok in Hrun as (scored & we & Hscored & Hrun).
  apply ret_ok in Hrun as [<- <-].
  apply filterM_not_own in Hfilter as [-> Hall].
  exists user_emb, following, cands, wc, scored. auto.
Qed.

Lemma get_user_embedding_total user_id w :
  cached_as is_emb (_cache_key "user_emb" user_id) w ->
  exists v w1, get_user_embedding user_id w = (Ok v, w1).
Proof.
  intros Hty. unfold get_user_embedding.
  destruct (is_cached_run (_cache_key "user_emb" user_id) w) as (b & Hb & Hsome).
  rewrite (bind_run _ _ _ _ _ Hb). destruct b.
  - destruct (Hty (Hsome eq_refl)) as (p & Hp & v & ->).
    unfold bind, cache_read. rewrite Hp. simpl. eauto.
  - apply total_bind.
    + apply total_try, total_ret.
    + intros [e|]; [apply total_ret|].
      apply total_bind; [apply total_create_random_embedding|].
      intros e. apply total_bind; [apply total_save_user_embedding|].
      intros _. apply total_ret.
Qed.

Lemma get_user_follows_total user_id w :
  cached_as is_ids (_cache_key "follows" user_id) w ->
  exists ids w1, get_user_follows user_id w = (Ok ids, w1).
Proof.
  intros Hty. unfold get_user_follows.
  destruct (is_cached_run (_cache_key "follows" user_id) w) as (b & Hb & Hsome).
  rewrite (bind_run _ _ _ _ _ Hb). destruct b.
  - destruct (Hty (Hsome eq_refl)) as (p & Hp & ids & ->).
    unfold bind, cache_read. rewrite Hp. simpl. eauto.
  - apply total_try, total_ret.
Qed.

(** A scan of an empty table with nothing cached gives no item, and
    leaves the tables and the other cache keys as they were. *)
Lemma scan_cached_empty k table limit w :
  w_cache_times w !! k = None -> table (w_store w) = [] ->
  exists w', scan_cached k table limit w = (Ok [], w')
             /\ w_store w' = w_store w
             /\ (forall k', k' <> k -> w_cache_times w' !! k' = w_cache_times w !! k').
Proof.
  intros Hk Ht. unfold scan_cached, bind at 1, _is_cached. rewrite Hk.
  unfold try_except, bind, store_call, gets, alloc_all, cache_write, modify, ret.
  destruct (w_faults w) as [|[|] fs]; simpl; rewrite ?Ht, ?take_nil; simpl;
    eexists; (split; [reflexivity|]); (split; [reflexivity|]);
    intros k' Hk'; simpl; rewrite ?lookup_insert_ne by congruence; reflexivity.
Qed.

Lemma gather_kind_empty wanted k table limit kind id_key w :
  w_cache_times w !! k = None -> table (w_store w) = [] ->
  exists w', gather_kind wanted (scan_cached k table limit) kind id_key w = (Ok [], w')
             /\ w_store w' = w_store w
             /\ (forall k', k' <> k -> w_cache_times w' !! k' = w_cache_times w !! k').
Proof.
  intros Hk Ht. unfold gather_kind. destruct wanted.
  - destruct (scan_cached_empty k table limit w Hk Ht) as (w1 & Hrun & Hs & Hc).
    rewrite (bind_run _ _ _ _ _ Hrun). simpl. exists w1. auto.
  - exists w. auto.
Qed.

Lemma gather_content_empty content_type w :
  catalog_empty w -> exists w', gather_content content_type w = (Ok [], w').
Proof.
  intros (Hp & Hv & Hpc & Hvc). unfold gather_content.
  assert (Hkeys : _cache_key "videos" "all" <> _cache_key "posts" "all")
    by discriminate.
  destruct (gather_kind_empty (bool_decide (content_type ∈ ["all"; "posts"]))
              (_cache_key "posts" "all") posts 500 "post" "postId" w Hpc Hp)
    as (w1 & Hrun1 & Hs1 & Hc1).
  unfold get_all_posts. rewrite (bind_run _ _ _ _ _ Hrun1).
  destruct (gather_kind_empty (bool_decide (content_type ∈ ["all"; "videos"]))
              (_cache_key "videos" "all") ott_videos 200 "video" "videoId" w1)
    as (w2 & Hrun2 & _).
  { rewrite Hc1 by exact Hkeys. exact Hvc. }
  { rewrite Hs1. exact Hv. }
  unfold get_ott_videos. rewrite (bind_run _ _ _ _ _ Hrun2).
  exists w2. reflexivity.
Qed.

Lemma slice_to_nil {A} (n : Z) : Py.slice_to (@nil A) n = [].
Proof. unfold Py.slice_to. destruct (0 <=? n)%Z; apply take_nil. Qed.

Lemma cache_key_user_posts u : _cache_key "user_emb" u <> _cache_key "posts" "all".
Proof. discriminate. Qed.
Lemma cache_key_user_videos u : _cache_key "user_emb" u <> _cache_key "videos" "all".
Proof. discriminate. Qed.
Lemma cache_key_user_follows u u' : _cache_key "user_emb" u <> _cache_key "follows" u'.
Proof. discriminate. Qed.
Lemma cache_key_follows_posts u : _cache_key "follows" u <> _cache_key "posts" "all".
Proof. discriminate. Qed.
Lemma cache_key_follows_videos u : _cache_key "follows" u <> _cache_key "videos" "all".
Proof. discriminate. Qed.

(** With nothing to rank the request returns the empty list. *)
Lemma get_recommendations_empty user_id limit content_type w :
  catalog_empty w ->
  cached_as is_emb (_cache_key "user_emb" user_id) w ->
  cached_as is_ids (_cache_key "follows" user_id) w ->
  exists w', get_recommendations user_id limit content_type w = (Ok [], w').
Proof.
  intros (Hp & Hv & Hpc & Hvc) Hu Hf.
  destruct (get_user_embedding_total user_id w Hu) as (v & w1 & H1).
  pose proof (preserves_get_user_embedding _ catalog_frame user_id
                (catalog_ignores_cache _) w) as Hcat1.
  pose proof (preserves_get_user_embedding _ (cache_entry_frame _) user_id
                (cache_entry_ignores _ _ (cache_key_user_posts user_id)) w) as Hkp1.
  pose proof (preserves_get_user_embedding _ (cache_entry_frame _) user_id
                (cache_entry_ignores _ _ (cache_key_user_videos user_id)) w) as Hkv1.
  pose proof (preserves_get_user_embedding _ (cache_entry_frame _) user_id
                (cache_entry_ignores _ _ (cache_key_user_follows user_id user_id)) w)
    as Hkf1.
  rewrite H1 in Hcat1, Hkp1, Hkv1, Hkf1. simpl in Hcat1, Hkp1, Hkv1, Hkf1.
  injection Hcat1 as Hp1 Hv1 _. injection Hkp1 as _ Hpc1.
  injection Hkv1 as _ Hvc1. injection Hkf1 as Hfc1 Hft1.
  assert (Hf1 : cached_as is_ids (_cache_key "follows" user_id) w1).
  { unfold cached_as. rewrite Hfc1, Hft1. exact Hf. }
  destruct (get_user_follows_total user_id w1 Hf1) as (ids & w2 & H2).
  pose proof (preserves_get_user_follows _ catalog_frame user_id
                (catalog_ignores_cache _) w1) as Hcat2.
  pose proof (preserves_get_user_follows _ (cache_entry_frame _) user_id
                (cache_entry_ignores _ _ (cache_key_follows_posts user_id)) w1)
    as Hkp2.
  pose proof (preserves_get_user_follows _ (cache_entry_frame _) user_id
                (cache_entry_ignores _ _ (cache_key_follows_videos user_id)) w1)
    as Hkv2.
  rewrite H2 in Hcat2, Hkp2, Hkv2. simpl in Hcat2, Hkp2, Hkv2.
  injection Hcat2 as Hp2 Hv2 _. injection Hkp2 as _ Hpc2. injection Hkv2 as _ Hvc2.
  destruct (gather_content_empty content_type w2) as (w3 & H3).
  { unfold catalog_empty. rewrite Hp2, Hv2, Hpc2, Hvc2, Hp1, Hv1, Hpc1, Hvc1. auto. }
  unfold get_recommendations.
  rewrite (bind_run _ _ _ _ _ H1), (bind_run _ _ _ _ _ H2), (bind_run _ _ _ _ _ H3).
  simpl. unfold bind, ret. simpl. rewrite slice_to_nil. eauto.
Qed.


End Ranking.


(** ** What a ranking pass writes into the records *)

Section Tagging.

Context {RT : Runtime}.

Lemma same_off_tags_refl rec : same_off_tags rec rec.
Proof. intros k _ _. reflexivity. Qed.

Lemma same_off_tags_trans r1 r2 r3 :
  same_off_tags r1 r2 -> same_off_tags r2 r3 -> same_off_tags r1 r3.
Proof. intros H12 H23 k Hk1 Hk2. rewrite H23, H12 by assumption. reflexivity. Qed.

Lemma heap_evolves_refl h : heap_evolves h h.
Proof. intros l rec Hl. exists rec. split; [exact Hl|apply same_off_tags_refl]. Qed.

Lemma heap_evolves_trans h1 h2 h3 :
  heap_evolves h1 h2 -> heap_evolves h2 h3 -> heap_evolves h1 h3.
Proof.
  intros H12 H23 l r1 Hl. destruct (H12 l r1 Hl) as (r2 & Hl2 & Hs12).
  destruct (H23 l r2 Hl2) as (r3 & Hl3 & Hs23).
  exists r3. split; [exact Hl3|]. eapply same_off_tags_trans; eassumption.
Qed.

Lemma evolves_of_preserves {A} (m : M A) : preserves w_heap m -> evolves m.
Proof. intros H w. rewrite H. apply heap_evolves_refl. Qed.

Lemma evolves_bind {A B} (m : M A) (k : A -> M B) :
  evolves m -> (forall a, evolves (k a)) -> evolves (bind m k).
Proof.
  intros Hm Hk w. unfold bind. specialize (Hm w).
  destruct (m w) as [[a|e] w1]; simpl in *; [|exact Hm].
  eapply heap_evolves_trans; [exact Hm|apply Hk].
Qed.

Lemma evolves_try {A} (m h : M A) : evolves m -> evolves h -> evolves (try_except m h).
Proof.
  intros Hm Hh w. unfold try_except. specialize (Hm w).
  destruct (m w) as [[a|e] w1]; simpl in *; [exact Hm|].
  eapply heap_evolves_trans; [exact Hm|apply Hh].
Qed.

Lemma evolves_forM_ {A} (g : A -> M unit) l :
  (forall a, evolves (g a)) -> evolves (forM_ g l).
Proof.
  intros Hg. induction l as [|a l IH]; simpl.
  - apply evolves_of_preserves, preserves_ret.
  - apply evolves_bind; [apply Hg|]. intros _. exact IH.
Qed.

Lemma evolves_alloc_all items : evolves (alloc_all items).
Proof.
  intros w l rec Hl. simpl. exists rec. split; [|apply same_off_tags_refl].
  apply lookup_app_l_Some. exact Hl.
Qed.

(** An assignment to one of the two tags. *)
Lemma evolves_heap_setitem l k v :
  k = "_type" \/ k = "contentId" -> evolves (heap_setitem l k v).
Proof.
  intros Hk w. unfold heap_setitem, bind, heap_read, modify.
  destruct (w_heap w !! l) as [r|] eqn:Hr; simpl; [|apply heap_evolves_refl].
  intros l' rec Hl'. destruct (decide (l' = l)) as [->|Hne].
  - assert (r = rec) as <- by congruence.
    exists (<[k := v]> r). split.
    + apply list_lookup_insert_eq. eapply lookup_lt_Some. exact Hr.
    + intros k' Hk1 Hk2. apply lookup_insert_ne. destruct Hk; congruence.
  - exists rec. split; [|apply same_off_tags_refl].
    rewrite list_lookup_insert_ne by congruence. exact Hl'.
Qed.

Lemma evolves_tag_items kind id_key items : evolves (tag_items kind id_key items).
Proof.
  unfold tag_items. apply evolves_forM_. intros p.
  apply evolves_bind; [apply evolves_heap_setitem; auto|]. intros _.
  apply evolves_bind.
  - apply evolves_of_preserves. intros w. unfold heap_read.
    destruct (w_heap w !! p); reflexivity.
  - intros r. apply evolves_heap_setitem. auto.
Qed.

Lemma evolves_scan_cached k table limit : evolves (scan_cached k table limit).
Proof.
  unfold scan_cached.
  apply evolves_bind; [apply evolves_of_preserves, preserves_is_cached|].
  intros [|].
  - apply evolves_of_preserves.
    apply preserves_bind; [apply preserves_cache_read|]. intros p.
    apply preserves_as_items.
  - apply evolves_try; [|apply evolves_of_preserves, preserves_ret].
    apply evolves_bind.
    { apply evolves_of_preserves, preserves_store_call, heap_frame. }
    intros _. apply evolves_bind; [apply evolves_of_preserves, preserves_gets|].
    intros items. apply evolves_bind; [apply evolves_alloc_all|].
    intros ls. apply evolves_bind.
    { apply evolves_of_preserves, preserves_cache_write, heap_ignores_cache. }
    intros _. apply evolves_of_preserves, preserves_ret.
Qed.

Lemma evolves_gather_kind wanted k table limit kind id_key :
  evolves (gather_kind wanted (scan_cached k table limit) kind id_key).
Proof.
  unfold gather_kind. destruct wanted.
  - apply evolves_bind; [apply evolves_scan_cached|]. intros items.
    apply evolves_bind; [apply evolves_tag_items|]. intros _.
    apply evolves_of_preserves, preserves_ret.
  - apply evolves_of_preserves, preserves_ret.
Qed.

Lemma evolves_gather_content content_type : evolves (gather_content content_type).
Proof.
  unfold gather_content.
  apply evolves_bind; [apply evolves_gather_kind|]. intros a.
  apply evolves_bind; [apply evolves_gather_kind|]. intros b.
  apply evolves_of_preserves, preserves_ret.
Qed.

Lemma preserves_heap_score_entry user_emb following l :
  preserves w_heap (score_entry user_emb following l).
Proof.
  unfold score_entry.
  apply preserves_bind.
  { intros w. unfold heap_read. destruct (w_heap w !! l); reflexivity. }
  intros c. apply preserves_bind.
  { apply preserves_score_content; [apply heap_frame|apply heap_ignores_cache]. }
  intros sc. apply preserves_ret.
Qed.

Lemma preserves_heap_filter user_id ls :
  preserves w_heap
    (filterM (fun l => let! c := heap_read l in ret (not_own user_id c)) ls).
Proof.
  induction ls as [|l ls IH]; simpl; [apply preserves_ret|].
  apply preserves_bind.
  { apply preserves_bind.
    - intros w. unfold heap_read. destruct (w_heap w !! l); reflexivity.
    - intros c. apply preserves_ret. }
  intros b. apply preserves_bind; [exact IH|]. intros ys. apply preserves_ret.
Qed.

(** A whole request changes the objects at most in their two tags. *)
Lemma evolves_get_recommendations user_id limit content_type :
  evolves (get_recommendations user_id limit content_type).
Proof.
  unfold get_recommendations.
  apply evolves_bind.
  { apply evolves_of_preserves, preserves_get_user_embedding;
      [apply heap_frame|apply heap_ignores_cache]. }
  intros user_emb. apply evolves_bind.
  { apply evolves_of_preserves, preserves_get_user_follows;
      [apply heap_frame|apply heap_ignores_cache]. }
  intros following. apply evolves_bind; [apply evolves_gather_content|].
  intros all_content. apply evolves_bind.
  { apply evolves_of_preserves, preserves_heap_filter. }
  intros cands. apply evolves_bind.
  { apply evolves_of_preserves, preserves_mapM. intros l.
    apply preserves_heap_score_entry. }
  intros scored. apply evolves_of_preserves, preserves_ret.
Qed.

Lemma heap_setitem_ok l k v w w' :
  heap_setitem l k v w = (Ok tt, w') ->
  exists r, w_heap w !! l = Some r
            /\ w' = set_heap (<[l := <[k := v]> r]> (w_heap w)) w.
Proof.
  unfold heap_setitem, bind, heap_read, modify.
  destruct (w_heap w !! l) as [r|]; [|discriminate].
  intros [= <-]. exists r. split; reflexivity.
Qed.

Lemma tagged_by_compose kind id_key r1 r2 r3 :
  id_key <> "_type" -> id_key <> "contentId" ->
  tagged_by kind id_key r1 r2 -> tagged_by kind id_key r2 r3 ->
  tagged_by kind id_key r1 r3.
Proof.
  intros Hi1 Hi2 (_ & _ & Hs12) (Ht & Hc & Hs23).
  split; [exact Ht|]. split.
  - rewrite Hc. unfold Py.get. now rewrite (Hs12 id_key Hi1 Hi2).
  - eapply same_off_tags_trans; eassumption.
Qed.

(** The two assignments of one loop iteration. *)
Lemma tag_one_ok kind id_key p w w' :
  id_key <> "_type" -> id_key <> "contentId" ->
  (run! heap_setitem p "_type" (PStr kind) in
   let! r := heap_read p in
   heap_setitem p "contentId" (Py.get r id_key (PStr ""))) w = (Ok tt, w') ->
  exists r r', w_heap w !! p = Some r
    /\ tagged_by kind id_key r r'
    /\ w' = set_heap (<[p := r']> (w_heap w)) w.
Proof.
  intros Hi1 Hi2 Hrun.
  apply bind_ok in Hrun as ([] & w1 & H1 & Hrun).
  apply heap_setitem_ok in H1 as (r & Hr & ->).
  apply bind_ok in Hrun as (r1 & w2 & H2 & Hrun).
  apply heap_read_ok in H2 as [H2 ->]. simpl in H2.
  rewrite list_lookup_insert_eq in H2 by (eapply lookup_lt_Some; exact Hr).
  injection H2 as <-.
  apply heap_setitem_ok in Hrun as (r2 & H3 & ->). simpl in H3.
  rewrite list_lookup_insert_eq in H3 by (eapply lookup_lt_Some; exact Hr).
  injection H3 as <-.
  exists r, (<["contentId" := Py.get (<["_type" := PStr kind]> r) id_key (PStr "")]>
               (<["_type" := PStr kind]> r)).
  split; [exact Hr|]. split.
  - split; [|split].
    + rewrite lookup_insert_ne by (intro; discriminate). apply lookup_insert_eq.
    + rewrite lookup_insert_eq. f_equal. unfold Py.get.
      now rewrite lookup_insert_ne by congruence.
    + intros k Hk1 Hk2. now rewrite !lookup_insert_ne by congruence.
  - simpl. rewrite list_insert_insert_eq. reflexivity.
Qed.

(** The tagging loop, when it runs through: only the heap changes, objects
    outside the list are untouched, objects in the list carry both tags. *)
Lemma tag_items_ok kind id_key ls w w' :
  id_key <> "_type" -> id_key <> "contentId" ->
  tag_items kind id_key ls w = (Ok tt, w') ->
  w' = set_heap (w_heap w') w
  /\ (forall l : nat, l ∉ ls -> w_heap w' !! l = w_heap w !! l)
  /\ (forall l : nat, l ∈ ls ->
        exists rec rec', w_heap w !! l = Some rec /\ w_heap w' !! l = Some rec'
                         /\ tagged_by kind id_key rec rec').
Proof.
  intros Hi1 Hi2. unfold tag_items.
  revert w w'. induction ls as [|p ls IH]; intros w w' Hrun; simpl in Hrun.
  - apply ret_ok in Hrun as [_ <-]. split; [now destruct w|].
    split; [reflexivity|]. intros l Hl. apply elem_of_nil in Hl as [].
  - apply bind_ok in Hrun as ([] & w1 & Hp & Hrun).
    apply (tag_one_ok kind id_key p w w1 Hi1 Hi2) in Hp as (r & r' & Hr & Htag & ->).
    destruct (IH _ _ Hrun) as (Hw' & Hout & Hin). simpl in Hw', Hout, Hin.
    split; [rewrite Hw'; reflexivity|]. split.
    + intros l Hl. apply not_elem_of_cons in Hl as [Hne Hl].
      rewrite (Hout l Hl). apply list_lookup_insert_ne. congruence.
    + intros l Hl.
      destruct (decide (l ∈ ls)) as [Hls|Hls].
      * destruct (Hin l Hls) as (rec1 & rec' & Hrec1 & Hrec' & Htag').
        destruct (decide (l = p)) as [->|Hne].
        -- rewrite list_lookup_insert_eq in Hrec1
             by (eapply lookup_lt_Some; exact Hr).
           injection Hrec1 as <-.
           exists r, rec'. split; [exact Hr|]. split; [exact Hrec'|].
           eapply tagged_by_compose; eassumption.
        -- rewrite list_lookup_insert_ne in Hrec1 by congruence.
           exists rec1, rec'. auto.
      * apply elem_of_cons in Hl as [->|Hl]; [|contradiction].
        exists r, r'. split; [exact Hr|]. split; [|exact Htag].
        rewrite (Hout p Hls). apply list_lookup_insert_eq.
        eapply lookup_lt_Some. exact Hr.
Qed.

(** A listing that is validly cached is handed out as it is. *)
Lemma scan_cached_hit k table limit w t ls :
  w_cache_times w !! k = Some t -> w_now w - t < IZR CACHE_TTL ->
  w_cache w !! k = Some (CItems ls) ->
  scan_cached k table limit w = (Ok ls, w).
Proof.
  intros Ht Hfresh Hc. unfold scan_cached, bind, _is_cached. rewrite Ht.
  destruct (Rlt_dec (w_now w - t) (IZR CACHE_TTL)); [|contradiction].
  unfold cache_read. rewrite Hc. reflexivity.
Qed.

Lemma listing_fetch_scan x :
  exists table limit, listing_fetch x = scan_cached (listing_key x) table limit.
Proof. destruct x; simpl; eauto. Qed.

Lemma listing_id_not_tag x :
  listing_id x <> "_type" /\ listing_id x <> "contentId".
Proof. destruct x; split; discriminate. Qed.

(** With a filter that names one listing, the gathering is that listing's
    block alone. *)
Lemma gather_content_listing x w :
  gather_content (listing_filter x) w
  = (let! items := listing_fetch x in
     run! tag_items (listing_kind x) (listing_id x) items in
     ret items) w.
Proof.
  unfold gather_content, gather_kind, bind.
  destruct x; simpl;
    repeat match goal with
           | |- context [match ?m ?w0 with _ => _ end] =>
               destruct (m w0) as [[?|?] ?]; simpl
           end;
    rewrite ?app_nil_r; reflexivity.
Qed.

Lemma preserves_heap_read {X} (f : world -> X) l : preserves f (heap_read l).
Proof. intros w. unfold heap_read. destruct (w_heap w !! l); reflexivity. Qed.

Lemma preserves_score_entry {X} (f : world -> X) user_emb following l :
  frame_field f ->
  (forall k, ignores_cache_at f (_cache_key "content_emb" k)) ->
  preserves f (score_entry user_emb following l).
Proof.
  intros Hf Hk. unfold score_entry.
  apply preserves_bind; [apply preserves_heap_read|]. intros c.
  apply preserves_bind; [apply preserves_score_content; auto|].
  intros sc. apply preserves_ret.
Qed.

Lemma entry_and_clock_frame k : frame_field (entry_and_clock k).
Proof. split; reflexivity. Qed.

Lemma entry_and_clock_ignores k0 k :
  k <> k0 -> ignores_cache_at (entry_and_clock k0) k.
Proof.
  intros Hk p t w. unfold entry_and_clock. simpl.
  now rewrite !lookup_insert_ne by exact Hk.
Qed.

Lemma listing_key_not_user x u : _cache_key "user_emb" u <> listing_key x.
Proof. destruct x; discriminate. Qed.
Lemma listing_key_not_follows x u : _cache_key "follows" u <> listing_key x.
Proof. destruct x; discriminate. Qed.
Lemma listing_key_not_content x c : _cache_key "content_emb" c <> listing_key x.
Proof. destruct x; discriminate. Qed.


End Tagging.

Lemma heap_setitem_total {RT : Runtime} l k v w :
  (l < length (w_heap w))%nat ->
  exists w', heap_setitem l k v w = (Ok tt, w')
             /\ length (w_heap w') = length (w_heap w).
Proof.
  intros Hl. destruct (lookup_lt_is_Some_2 (w_heap w) l Hl) as [r Hr].
  unfold heap_setitem, bind, heap_read, modify. rewrite Hr.
  eexists. split; [reflexivity|]. simpl. apply length_insert.
Qed.

(** The tagging loop runs through when every item is an object of the
    heap. *)
Lemma tag_items_total {RT : Runtime} kind id_key ls w :
  Forall (fun l : nat => (l < length (w_heap w))%nat) ls ->
  exists w', tag_items kind id_key ls w = (Ok tt, w')
             /\ length (w_heap w') = length (w_heap w).
Proof.
  unfold tag_items. revert w. induction ls as [|p ls IH]; intros w Hall; simpl.
  - exists w. split; reflexivity.
  - apply Forall_cons in Hall as [Hp Hall].
    destruct (heap_setitem_total p "_type" (PStr kind) w Hp) as (w1 & H1 & L1).
    destruct (lookup_lt_is_Some_2 (w_heap w1) p ltac:(lia)) as [r Hr].
    assert (H2 : heap_read p w1 = (Ok r, w1)).
    { unfold heap_read. now rewrite Hr. }
    destruct (heap_setitem_total p "contentId" (Py.get r id_key (PStr "")) w1
                ltac:(lia)) as (w2 & H3 & L2).
    destruct (IH w2) as (w' & Hw' & L3).
    { eapply Forall_impl; [exact Hall|]. intros l Hl. simpl in Hl. lia. }
    exists w'. split; [|lia].
    rewrite (bind_run _ _ _ _ _
               (eq_trans (bind_run _ _ _ _ _ H1)
                         (eq_trans (bind_run _ _ _ _ _ H2) H3))).
    exact Hw'.
Qed.

(** The request of u1 on the client that has u1's own post cached: the
    post is tagged, then filtered out. *)
Lemma demo_listed_run :
  exists w', get_recommendations (RT := demo_runtime) "u1" 20 "posts"
               demo_listed_world = (Ok [], w').
Proof.
  set (w0 := demo_listed_world).
  destruct (get_user_embedding_total (RT := demo_runtime) "u1" w0)
    as (v & wa & Ha).
  { intros [y Hy]. discriminate Hy. }
  pose proof (preserves_get_user_embedding _ (entry_and_clock_frame _) "u1"
                (entry_and_clock_ignores _ _ (listing_key_not_user Posts "u1")) w0)
    as Pa. rewrite Ha in Pa. simpl in Pa.
  pose proof (preserves_get_user_embedding _ (cache_entry_frame _) "u1"
                (cache_entry_ignores _ _ (cache_key_user_follows "u1" "u1")) w0)
    as Fa. rewrite Ha in Fa. simpl in Fa. injection Fa as _ Fa.
  pose proof (preserves_get_user_embedding w_heap heap_frame "u1"
                (heap_ignores_cache _) w0) as Qa. rewrite Ha in Qa. simpl in Qa.
  destruct (get_user_follows_total (RT := demo_runtime) "u1" wa)
    as (ids & wb & Hb).
  { intros [y Hy]. rewrite Fa in Hy. discriminate Hy. }
  pose proof (preserves_get_user_follows _ (entry_and_clock_frame _) "u1"
                (entry_and_clock_ignores _ _ (listing_key_not_follows Posts "u1")) wa)
    as Pb. rewrite Hb in Pb. simpl in Pb.
  pose proof (preserves_get_user_follows w_heap heap_frame "u1"
                (heap_ignores_cache _) wa) as Qb. rewrite Hb in Qb. simpl in Qb.
  rewrite Pa in Pb. unfold entry_and_clock in Pb. injection Pb as Hc Ht Hn.
  rewrite Qa in Qb.
  assert (Hfetch : get_all_posts wb = (Ok [O], wb)).
  { apply (scan_cached_hit _ _ _ wb demo_now [O]).
    - rewrite Ht. reflexivity.
    - rewrite Hn. simpl. unfold demo_now. lra.
    - rewrite Hc. reflexivity. }
  destruct (tag_items_total (RT := demo_runtime) "post" "postId" [O] wb)
    as (wc & Htag & _).
  { rewrite Qb. repeat constructor. }
  destruct (tag_items_ok "post" "postId" [O] wb wc) as (_ & _ & Hin);
    [discriminate|discriminate|exact Htag|].
  destruct (Hin O) as (rec & rec' & Hrec & Hrec' & _ & _ & Hsame);
    [apply list_elem_of_here|].
  rewrite Qb in Hrec. injection Hrec as <-.
  assert (Hown : not_own "u1" rec' = false).
  { unfold not_own, Py.get. rewrite (Hsame "userId") by discriminate.
    reflexivity. }
  unfold get_recommendations.
  rewrite (bind_run _ _ _ _ _ Ha), (bind_run _ _ _ _ _ Hb).
  change "posts" with (listing_filter Posts).
  unfold bind at 1. rewrite gather_content_listing.
  change (listing_fetch Posts) with (get_all_posts (RT := demo_runtime)).
  rewrite (bind_run _ _ _ _ _ Hfetch).
  change (listing_kind Posts) with "post". change (listing_id Posts) with "postId".
  rewrite (bind_run _ _ _ _ _ Htag).
  unfold ret at 1. simpl.
  unfold bind, heap_read. rewrite Hrec'. unfold ret. rewrite Hown. simpl.
  eauto.
Qed.


(** ** The learning loop *)

Section Learning.

Context {RT : Runtime}.

(** One interaction is one [update_embedding] step of the user vector
    towards the content vector, with the weight of the action. *)
Lemma learn_from_interaction_ok user_id content_id action_type content w
    updated w' :
  learn_from_interaction user_id content_id action_type content w
  = (Ok updated, w') ->
  exists user_emb wa content_emb wb,
    get_user_embedding user_id w = (Ok user_emb, wa)
    /\ get_content_embedding (PStr content_id) content wa = (Ok content_emb, wb)
    /\ NeuralEmbedding.update_embedding user_emb content_emb
         (action_weight action_type) LEARNING_RATE = Ok updated.
Proof.
  unfold learn_from_interaction. intros Hrun.
  apply bind_ok in Hrun as (user_emb & wa & Ha & Hrun).
  apply bind_ok in Hrun as (content_emb & wb & Hb & Hrun).
  apply bind_ok in Hrun as (upd & wc & Hu & Hrun).
  apply bind_ok in Hrun as ([] & wd & _ & Hrun).
  apply ret_ok in Hrun as [<- _].
  exists user_emb, wa, content_emb, wb. split; [exact Ha|]. split; [exact Hb|].
  unfold lift in Hu. now injection Hu as -> _.
Qed.

(** An event with a positive weight leaves the user vector at least as
    similar to the content vector as it was, one with a negative weight at
    most as similar. *)
Lemma learning_event_monotone user_id content_id action_type content w
    updated w' user_emb wa content_emb wb :
  learn_from_interaction user_id content_id action_type content w
  = (Ok updated, w') ->
  get_user_embedding user_id w = (Ok user_emb, wa) ->
  get_content_embedding (PStr content_id) content wa = (Ok content_emb, wb) ->
  length user_emb = length content_emb ->
  exists s s',
    NeuralEmbedding.similarity user_emb content_emb = Ok s
    /\ NeuralEmbedding.similarity updated content_emb = Ok s'
    /\ (0 < action_weight action_type -> s <= s')
    /\ (action_weight action_type < 0 -> s' <= s).
Proof.
  intros Hrun Ha Hb Hlen.
  apply learn_from_interaction_ok in Hrun
    as (user_emb' & wa' & content_emb' & wb' & Ha' & Hb' & Hupd).
  rewrite Ha in Ha'. injection Ha' as <- <-.
  rewrite Hb in Hb'. injection Hb' as <- <-.
  destruct (update_embedding_similarity user_emb content_emb
              (action_weight action_type) LEARNING_RATE Hlen)
    as (out & Hout & _ & Hsim).
  rewrite Hupd in Hout. injection Hout as <-.
  destruct (step_similarity (LEARNING_RATE * action_weight action_type)
              user_emb content_emb Hlen) as (s & s' & Hs & Hs' & Hup & Hdown).
  destruct (action_weight_range action_type) as [Hpos Hneg].
  exists s, s'. split; [exact Hs|]. split; [rewrite Hsim; exact Hs'|]. auto.
Qed.

End Learning.

(** ** A request that ranks two candidates *)

Section RankedRun.

Context {RT : Runtime}.

Lemma same_off_tags_get (rec rec' : record) k dflt :
  same_off_tags rec rec' -> k <> "_type" -> k <> "contentId" ->
  Py.get rec' k dflt = Py.get rec k dflt.
Proof. intros Hs H1 H2. unfold Py.get. now rewrite (Hs k H1 H2). Qed.

Lemma same_off_tags_counter (rec rec' : record) k1 k2 last :
  same_off_tags rec rec' ->
  k1 <> "_type" -> k1 <> "contentId" -> k2 <> "_type" -> k2 <> "contentId" ->
  counter rec' k1 k2 last = counter rec k1 k2 last.
Proof.
  intros Hs H1 H2 H3 H4. unfold counter.
  now rewrite !(same_off_tags_get rec rec') by assumption.
Qed.

Lemma same_off_tags_content_id (rec rec' : record) :
  same_off_tags rec rec' -> content_id_of rec' = content_id_of rec.
Proof.
  intros Hs. unfold content_id_of.
  now rewrite !(same_off_tags_get rec rec') by (assumption || discriminate).
Qed.

Lemma same_off_tags_not_own user_id (rec rec' : record) :
  same_off_tags rec rec' -> not_own user_id rec' = not_own user_id rec.
Proof.
  intros Hs. unfold not_own.
  now rewrite !(same_off_tags_get rec rec') by (assumption || discriminate).
Qed.

(** The filter keeps a list all of whose objects pass. *)
Lemma filterM_all_pass user_id ls w :
  Forall (fun l : nat => exists c, w_heap w !! l = Some c
                                   /\ not_own user_id c = true) ls ->
  filterM (fun l => let! c := heap_read l in ret (not_own user_id c)) ls w
  = (Ok ls, w).
Proof.
  induction 1 as [|l ls (c & Hc & Hown) _ IH]; simpl; [reflexivity|].
  unfold bind at 1. unfold bind at 1. unfold heap_read at 1. rewrite Hc.
  unfold ret at 1. rewrite Hown.
  unfold bind at 1. rewrite IH. reflexivity.
Qed.

Lemma score_entry_scorable user_emb following l w :
  scorable user_emb w l ->
  exists r, score_entry user_emb following l w
            = (Ok r, set_rng (snd (np_random (w_rng w))) w).
Proof.
  intros (c & v & t & likes & views & comments & Hc & Hl & Hv & Hcm & Hcache
          & Htime & Hfresh & Hlen).
  destruct (similarity_total user_emb v Hlen) as (s & Hs & _).
  pose proof (get_content_embedding_cached (content_id_of c) (Some c) w t v
                Htime Hfresh Hcache) as Hemb.
  pose proof (score_content_run user_emb c following w v w s likes views comments
                Hemb Hs Hl Hv Hcm) as Hrun.
  unfold score_entry. unfold bind at 1, heap_read. rewrite Hc.
  unfold bind at 1. rewrite Hrun. unfold ret. eauto.
Qed.

Lemma mapM_score_entry_scorable user_emb following ls w :
  Forall (scorable user_emb w) ls ->
  exists scored w', mapM (score_entry user_emb following) ls w = (Ok scored, w')
                    /\ length scored = length ls.
Proof.
  revert w. induction ls as [|l ls IH]; intros w Hall; simpl.
  - exists [], w. split; reflexivity.
  - apply Forall_cons in Hall as [Hl Hall].
    destruct (score_entry_scorable user_emb following l w Hl) as (r & Hr).
    destruct (IH (set_rng (snd (np_random (w_rng w))) w)) as (rs & w' & Hrs & Hlen).
    { eapply Forall_impl; [exact Hall|]. intros l' Hl'. exact Hl'. }
    exists (r :: rs), w'. split; [|simpl; now rewrite Hlen].
    rewrite (bind_run _ _ _ _ _ Hr), (bind_run _ _ _ _ _ Hrs). reflexivity.
Qed.

End RankedRun.

(** The request of another user on the client that has both candidates
    cached returns a ranking of the two. *)
Lemma demo_ranked_run :
  exists recs w',
    get_recommendations (RT := demo_runtime) "u2" 20 "posts" demo_ranked_world
    = (Ok recs, w')
    /\ length recs = 2%nat.
Proof.
  set (w0 := demo_ranked_world).
  assert (Hfresh0 : demo_now - demo_now < IZR (CACHE_TTL (Runtime := demo_runtime))).
  { simpl. lra. }
  (* the user vector *)
  destruct (get_user_embedding_create (RT := demo_runtime) "u2" w0 eq_refl eq_refl)
    as (wa & Ha & _).
  set (V := Np.scale (sqrt (2 / INR EMBEDDING_DIM))
              (fst (randn_array EMBEDDING_DIM (w_rng w0)))) in Ha.
  assert (HV : length V = EMBEDDING_DIM).
  { unfold V, Np.scale. rewrite length_map. apply randn_array_length. }
  assert (Pa : forall k, _cache_key "user_emb" "u2" <> k ->
                         entry_and_clock k wa = entry_and_clock k w0).
  { intros k Hk.
    pose proof (preserves_get_user_embedding _ (entry_and_clock_frame k) "u2"
                  (entry_and_clock_ignores _ _ Hk) w0) as P.
    rewrite Ha in P. exact P. }
  pose proof (preserves_get_user_embedding w_heap heap_frame "u2"
                (heap_ignores_cache _) w0) as Qa. rewrite Ha in Qa. simpl in Qa.
  (* the follow list *)
  destruct (get_user_follows_total (RT := demo_runtime) "u2" wa) as (ids & wb & Hb).
  { intros [y Hy].
    pose proof (Pa (_cache_key "follows" "u2") ltac:(discriminate)) as P.
    unfold entry_and_clock in P. injection P as _ P _.
    rewrite P in Hy. discriminate Hy. }
  assert (Pb : forall k, _cache_key "user_emb" "u2" <> k ->
                         _cache_key "follows" "u2" <> k ->
                         entry_and_clock k wb = entry_and_clock k w0).
  { intros k Hk1 Hk2. rewrite <- (Pa k Hk1).
    pose proof (preserves_get_user_follows _ (entry_and_clock_frame k) "u2"
                  (entry_and_clock_ignores _ _ Hk2) wa) as P.
    rewrite Hb in P. exact P. }
  pose proof (preserves_get_user_follows w_heap heap_frame "u2"
                (heap_ignores_cache _) wa) as Qb. rewrite Hb in Qb. simpl in Qb.
  rewrite Qa in Qb.
  (* the cached listing, tagged *)
  pose proof (Pb "posts:all" ltac:(discriminate) ltac:(discriminate)) as Pposts.
  unfold entry_and_clock in Pposts. injection Pposts as Hpc Hpt Hpn.
  assert (Hfetch : get_all_posts wb = (Ok [0%nat; 1%nat], wb)).
  { apply (scan_cached_hit "posts:all" posts 500 wb demo_now);
      [rewrite Hpt; reflexivity|rewrite Hpn; exact Hfresh0|rewrite Hpc; reflexivity]. }
  destruct (tag_items_total (RT := demo_runtime) "post" "postId" [0%nat; 1%nat] wb)
    as (wc & Htag & _).
  { rewrite Qb. repeat apply Forall_cons_2; simpl; try lia. apply Forall_nil_2. }
  destruct (tag_items_ok "post" "postId" [0%nat; 1%nat] wb wc) as (Hw & _ & Hin);
    [discriminate|discriminate|exact Htag|].
  assert (Pc : forall k, _cache_key "user_emb" "u2" <> k ->
                         _cache_key "follows" "u2" <> k ->
                         entry_and_clock k wc = entry_and_clock k w0).
  { intros k Hk1 Hk2. rewrite <- (Pb k Hk1 Hk2). rewrite Hw. reflexivity. }
  (* both candidates pass the filter and can be scored *)
  assert (Hcand : forall (l : nat) (c : record) key,
             w_heap w0 !! l = Some c ->
             l ∈ [0%nat; 1%nat] ->
             not_own "u2" c = true ->
             counter c "likes" "likeCount" 0 = Ok 0%Z ->
             counter c "viewCount" "views" 1 = Ok 1%Z ->
             counter c "commentsCount" "commentCount" 0 = Ok 0%Z ->
             _cache_key "content_emb" (Py.str (content_id_of c)) = key ->
             entry_and_clock key w0 = (Some (CEmb demo_vector), Some demo_now, demo_now) ->
             _cache_key "user_emb" "u2" <> key -> _cache_key "follows" "u2" <> key ->
             (exists c', w_heap wc !! l = Some c' /\ not_own "u2" c' = true)
             /\ scorable V wc l).
  { intros l c key Hc Hl Hown Hlikes Hviews Hcomments Hkey Hentry Hk1 Hk2.
    destruct (Hin l Hl) as (rec & rec' & Hrec & Hrec' & _ & _ & Hsame).
    rewrite Qb in Hrec. change (w_heap w0 !! l = Some rec) in Hrec.
    rewrite Hc in Hrec. injection Hrec as <-.
    split.
    - exists rec'. split; [exact Hrec'|].
      rewrite (same_off_tags_not_own "u2" c rec' Hsame). exact Hown.
    - pose proof (Pc key Hk1 Hk2) as Pk. rewrite Hentry in Pk.
      unfold entry_and_clock in Pk. injection Pk as Hkc Hkt Hkn.
      exists rec', demo_vector, demo_now, 0%Z, 1%Z, 0%Z.
      rewrite (same_off_tags_content_id c rec' Hsame), Hkey.
      rewrite !(same_off_tags_counter c rec' _ _ _ Hsame) by discriminate.
      repeat split; try assumption;
        try (rewrite Hkn; exact Hfresh0); try (rewrite HV; reflexivity). }
  destruct (Hcand 0%nat demo_new "content_emb:p_new") as [Hpass0 Hscore0];
    try reflexivity; try discriminate; [apply list_elem_of_here|].
  destruct (Hcand 1%nat demo_old "content_emb:p_old") as [Hpass1 Hscore1];
    try reflexivity; try discriminate;
    [apply list_elem_of_further, list_elem_of_here|].
  pose proof (filterM_all_pass "u2" [0%nat; 1%nat] wc
                (Forall_cons_2 _ _ _ Hpass0 (Forall_cons_2 _ _ _ Hpass1 (Forall_nil_2 _))))
    as Hfilter.
  destruct (mapM_score_entry_scorable V ids [0%nat; 1%nat] wc
              (Forall_cons_2 _ _ _ Hscore0 (Forall_cons_2 _ _ _ Hscore1 (Forall_nil_2 _))))
    as (scored & w' & Hscored & Hlen).
  (* the request *)
  exists (Py.slice_to (sort_desc scored) 20), w'. split.
  - unfold get_recommendations.
    rewrite (bind_run _ _ _ _ _ Ha), (bind_run _ _ _ _ _ Hb).
    change "posts" with (listing_filter Posts).
    unfold bind at 1. rewrite gather_content_listing.
    change (listing_fetch Posts) with (get_all_posts (RT := demo_runtime)).
    change (listing_kind Posts) with "post". change (listing_id Posts) with "postId".
    rewrite (bind_run _ _ _ _ _ Hfetch), (bind_run _ _ _ _ _ Htag).
    unfold ret at 1.
    rewrite (bind_run _ _ _ _ _ Hfilter), (bind_run _ _ _ _ _ Hscored).
    reflexivity.
  - unfold Py.slice_to. simpl. rewrite length_take.
    rewrite (Permutation_length (sort_desc_perm scored)), Hlen. reflexivity.
Qed.


(** ** A listing fetched from the store *)

(** When the listing is not cached and the store answers, the response's
    items become new objects, the list of them goes into the cache, and the
    tagging then writes into these same objects. *)
Lemma gather_kind_miss {RT : Runtime} k table limit kind id_key w :
  w_cache_times w !! k = None -> w_faults w = [] ->
  id_key <> "_type" -> id_key <> "contentId" ->
  let items := take limit (table (w_store w)) in
  let ls := seq (length (w_heap w)) (length items) in
  exists w',
    gather_kind true (scan_cached k table limit) kind id_key w = (Ok ls, w')
    /\ w_cache w' !! k = Some (CItems ls)
    /\ Forall2 (fun (l : nat) (item : record) =>
                  exists rec', w_heap w' !! l = Some rec'
                               /\ tagged_by kind id_key item rec') ls items.
Proof.
  intros Hk Hf Hi1 Hi2 items ls.
  set (w1 := set_cache (<[k := CItems ls]> (w_cache w))
                       (<[k := w_now w]> (w_cache_times w))
                       (set_heap (w_heap w ++ items) w)).
  assert (Hscan : scan_cached k table limit w = (Ok ls, w1)).
  { unfold scan_cached, bind at 1, _is_cached. rewrite Hk.
    unfold try_except, bind, store_call, gets, alloc_all, cache_write, modify, ret.
    rewrite Hf. reflexivity. }
  destruct (tag_items_total kind id_key ls w1) as (w' & Htag & _).
  { apply Forall_forall. intros l Hl. apply elem_of_seq in Hl.
    unfold w1. simpl. rewrite length_app. lia. }
  destruct (tag_items_ok kind id_key ls w1 w' Hi1 Hi2 Htag) as (Hw' & _ & Hin).
  exists w'. split; [|split].
  - unfold gather_kind.
    rewrite (bind_run _ _ _ _ _ Hscan), (bind_run _ _ _ _ _ Htag). reflexivity.
  - rewrite Hw'. unfold w1. simpl. apply lookup_insert_eq.
  - apply Forall2_same_length_lookup_2; [unfold ls; apply length_seq|].
    intros i l item Hl Hitem.
    unfold ls in Hl. apply lookup_seq in Hl as [-> Hi].
    destruct (Hin (length (w_heap w) + i)%nat) as (rec & rec' & Hrec & Hrec' & Ht).
    { apply elem_of_seq. lia. }
    unfold w1 in Hrec. simpl in Hrec.
    rewrite lookup_app_r in Hrec by lia.
    replace (length (w_heap w) + i - length (w_heap w))%nat with i in Hrec by lia.
    rewrite Hitem in Hrec. injection Hrec as <-.
    exists rec'. split; assumption.
Qed.

(** ** The scoring of [server_production.py] *)

Section ProductionScoring.

Context {RT : Runtime}.

(** The production variant adds up seven terms, none of them a similarity:
    engagement capped at 30, the follow boost, creator affinity capped at
    20, recency from 20 at half a point per hour, the active-hour bonus,
    the penalty for content seen before, and the noise. *)
Lemma production_score_content_run (content : record) prefs following w
    likes views comments shares :
  counter content "likes" "likeCount" 0 = Ok likes ->
  counter content "viewCount" "views" 1 = Ok views ->
  counter content "commentsCount" "commentCount" 0 = Ok comments ->
  counter1 content "shares" = Ok shares ->
  Production.score_content content prefs following w
  = (Ok (0 + Production.engagement_boost likes views comments shares
         + (if Py.mem (creator_id_of content) following then 25 else 0)
         + Production.affinity_boost prefs (creator_id_of content)
         + Production.recency_boost (w_now w) content
         + Production.hour_boost (w_now w) prefs
         - Production.seen_penalty prefs (content_id_of content)
         + fst (np_random (w_rng w)) * 5),
     set_rng (snd (np_random (w_rng w))) w).
Proof.
  intros Hl Hv Hc Hs. unfold Production.score_content, bind, lift.
  rewrite Hl, Hv, Hc, Hs. unfold gets, ret.
  destruct (np_random (w_rng w)) as [u g]. reflexivity.
Qed.

End ProductionScoring.

(** For the candidate created at the time of the request the two variants
    give different recency terms. *)
Lemma recency_terms_differ :
  Production.recency_boost (RT := demo_runtime) demo_now demo_new = 20
  /\ recency_boost (RT := demo_runtime) demo_now demo_new = 15.
Proof.
  assert (Hc : created_of (RT := demo_runtime) demo_new
               = Some (mk_datetime 1704787200 8 1)) by reflexivity.
  assert (Hh : hours_old demo_now (mk_datetime 1704787200 8 1) = 0).
  { unfold hours_old, demo_now. simpl. lra. }
  unfold Production.recency_boost, recency_boost. rewrite Hc, Hh.
  split; rewrite Rmax_right; lra.
Qed.

(** ** Reasoning backwards through an operation *)

Section Wp.

Context {RT : Runtime}.

Lemma wp_ret {A} (a : A) (Q : A -> world -> Prop) E w : Q a w -> wp (ret a) Q E w.
Proof. intros H; exact H. Qed.

Lemma wp_raise {A} e (Q : A -> world -> Prop) (E : world -> Prop) w :
  E w -> wp (raise e) Q E w.
Proof. intros H; exact H. Qed.

Lemma wp_bind {A B} (m : M A) (k : A -> M B) Q E w :
  wp m (fun a w' => wp (k a) Q E w') E w -> wp (bind m k) Q E w.
Proof. unfold wp, bind. destruct (m w) as [[a|e] w']; auto. Qed.

Lemma wp_try {A} (m h : M A) Q E w :
  wp m Q (fun w' => wp h Q E w') w -> wp (try_except m h) Q E w.
Proof. unfold wp, try_except. destruct (m w) as [[a|e] w']; auto. Qed.

Lemma wp_mono {A} (m : M A) (Q Q' : A -> world -> Prop) (E E' : world -> Prop) w :
  wp m Q E w -> (forall a w', Q a w' -> Q' a w') -> (forall w', E w' -> E' w') ->
  wp m Q' E' w.
Proof. unfold wp. destruct (m w) as [[a|e] w']; auto. Qed.

Lemma wp_lift {A} (r : result A) (Q : A -> world -> Prop) (E : world -> Prop) w :
  (forall a, r = Ok a -> Q a w) -> (forall e, r = Raise e -> E w) ->
  wp (lift r) Q E w.
Proof. unfold wp, lift. destruct r; eauto. Qed.

Lemma wp_gets {A} (f : world -> A) (Q : A -> world -> Prop) E w :
  Q (f w) w -> wp (gets f) Q E w.
Proof. intros H; exact H. Qed.

Lemma wp_modify (f : world -> world) (Q : unit -> world -> Prop) E w :
  Q tt (f w) -> wp (modify f) Q E w.
Proof. intros H; exact H. Qed.

Lemma wp_store_call (Q : unit -> world -> Prop) (E : world -> Prop) w :
  Q tt w -> (forall fs, Q tt (set_faults fs w)) -> (forall fs, E (set_faults fs w)) ->
  wp store_call Q E w.
Proof.
  intros H0 H1 H2. unfold wp, store_call.
  destruct (w_faults w) as [|[|] fs]; auto.
Qed.

Lemma wp_is_cached k (Q : bool -> world -> Prop) E w :
  (forall t, w_cache_times w !! k = Some t -> w_now w - t < IZR CACHE_TTL -> Q true w) ->
  Q false w ->
  wp (_is_cached k) Q E w.
Proof.
  intros Ht Hf. unfold wp, _is_cached.
  destruct (w_cache_times w !! k) as [t|] eqn:Hk; [|exact Hf].
  destruct (Rlt_dec (w_now w - t) (IZR CACHE_TTL)); eauto.
Qed.

Lemma wp_cache_read k (Q : payload -> world -> Prop) (E : world -> Prop) w :
  (forall p, w_cache w !! k = Some p -> Q p w) -> (w_cache w !! k = None -> E w) ->
  wp (cache_read k) Q E w.
Proof.
  intros Hs Hn. unfold wp, cache_read. destruct (w_cache w !! k); auto.
Qed.

Lemma wp_cache_write k p (Q : unit -> world -> Prop) E w :
  Q tt (set_cache (<[k := p]> (w_cache w)) (<[k := w_now w]> (w_cache_times w)) w) ->
  wp (cache_write k p) Q E w.
Proof. intros H; exact H. Qed.

Lemma wp_create_random_embedding (Q : list R -> world -> Prop) E w :
  (forall v g, length v = EMBEDDING_DIM -> Q v (set_rng g w)) ->
  wp create_random_embedding Q E w.
Proof.
  intros H. unfold wp. rewrite create_random_embedding_value. apply H.
  unfold Np.scale. rewrite length_map. apply randn_array_length.
Qed.

Lemma wp_np_random (Q : R -> world -> Prop) E w :
  (forall x g, Q x (set_rng g w)) ->
  wp (fun w => let '(x, g) := np_random (w_rng w) in (Ok x, set_rng g w)) Q E w.
Proof. intros H. unfold wp. destruct (np_random (w_rng w)). apply H. Qed.

Lemma wp_heap_read l (Q : record -> world -> Prop) (E : world -> Prop) w :
  (forall c, w_heap w !! l = Some c -> Q c w) -> (w_heap w !! l = None -> E w) ->
  wp (heap_read l) Q E w.
Proof.
  intros Hs Hn. unfold wp, heap_read. destruct (w_heap w !! l); auto.
Qed.

Lemma wp_alloc_all items (Q : list loc -> world -> Prop) E w :
  Q (seq (length (w_heap w)) (length items)) (set_heap (w_heap w ++ items) w) ->
  wp (alloc_all items) Q E w.
Proof. intros H; exact H. Qed.

Lemma wp_run {A} (m : M A) (Q : A -> world -> Prop) w :
  wp m Q (fun _ => False) w -> exists a w', m w = (Ok a, w') /\ Q a w'.
Proof. unfold wp. destruct (m w) as [[a|e] w']; [eauto|tauto]. Qed.

Lemma wp_snd {A} (m : M A) (I : world -> Prop) w :
  wp m (fun _ w' => I w') I w -> I (snd (m w)).
Proof. unfold wp. destruct (m w) as [[a|e] w']; auto. Qed.

End Wp.

(** ** The state of the caches is kept in order *)

Ltac key_clash :=
  match goal with
  | H : _cache_key _ _ = _ |- _ => unfold _cache_key in H; simpl in H; discriminate
  | H : _ = _cache_key _ _ |- _ => unfold _cache_key in H; simpl in H; discriminate
  end.

Ltac fits_solve :=
  unfold fits; repeat split; intros; try key_clash; eauto.

Section Order.

Context {RT : Runtime}.

Lemma fits_user n u v :
  length v = EMBEDDING_DIM -> fits n (_cache_key "user_emb" u) (CEmb v).
Proof. intros Hv. assert (has_dim (CEmb v)) by (exists v; auto). fits_solve. Qed.

Lemma fits_content n c v :
  length v = EMBEDDING_DIM -> fits n (_cache_key "content_emb" c) (CEmb v).
Proof. intros Hv. assert (has_dim (CEmb v)) by (exists v; auto). fits_solve. Qed.

Lemma fits_follows n u ids : fits n (_cache_key "follows" u) (CIds ids).
Proof. assert (is_ids (CIds ids)) by (exists ids; auto). fits_solve. Qed.

Lemma fits_items n table x ls :
  table = "posts" \/ table = "videos" \/ table = "behavior" ->
  Forall (fun l : nat => (l < n)%nat) ls -> fits n (_cache_key table x) (CItems ls).
Proof.
  intros Ht Hls. assert (items_below n (CItems ls)) by (exists ls; auto).
  destruct Ht as [->|[->| ->]]; fits_solve.
Qed.

Lemma items_below_mono n n' p : (n <= n')%nat -> items_below n p -> items_below n' p.
Proof.
  intros Hn (ls & -> & Hls). exists ls. split; [reflexivity|].
  eapply Forall_impl; [exact Hls|]. simpl. intros; lia.
Qed.

Lemma fits_mono n n' k p : (n <= n')%nat -> fits n k p -> fits n' k p.
Proof.
  intros Hn (H1 & H2 & H3 & H4 & H5 & H6).
  repeat split; eauto using items_below_mono.
Qed.

Lemma key_not_bare table key :
  table = "user_emb" \/ table = "content_emb" \/ table = "follows"
  \/ table = "posts" \/ table = "videos" \/ table = "behavior" ->
  _cache_key table key <> "user_emb" /\ _cache_key table key <> "content_emb".
Proof.
  intros [->|[->|[->|[->|[->| ->]]]]]; split; intros H; key_clash.
Qed.

Lemma client_ok_faults fs w : client_ok w -> client_ok (set_faults fs w).
Proof. intros [H1 H2 H3]. split; assumption. Qed.

Lemma client_ok_rng g w : client_ok w -> client_ok (set_rng g w).
Proof. intros [H1 H2 H3]. split; assumption. Qed.

Lemma client_ok_now t w : client_ok w -> client_ok (set_now t w).
Proof. intros [H1 H2 H3]. split; assumption. Qed.

Lemma client_ok_cache k p t w :
  client_ok w -> fits (length (w_heap w)) k p ->
  k <> "user_emb" /\ k <> "content_emb" ->
  client_ok (set_cache (<[k := p]> (w_cache w)) (<[k := t]> (w_cache_times w)) w).
Proof.
  intros [H1 H2 H3] Hp Hk. split; simpl; [| |assumption].
  - intros k' t' Hk'. destruct (decide (k = k')) as [<-|Hne].
    + rewrite lookup_insert_eq. eauto.
    + rewrite lookup_insert_ne in Hk' by assumption.
      rewrite lookup_insert_ne by assumption. eauto.
  - intros k' Hk'. destruct (decide (k = k')) as [<-|Hne]; [assumption|].
    rewrite lookup_insert_ne in Hk' by assumption. auto.
Qed.

Lemma client_ok_put_user u v w :
  client_ok w -> length v = EMBEDDING_DIM ->
  client_ok (set_store (mk_store (<[u := v]> (user_embeddings (w_store w)))
                                 (content_embeddings (w_store w)) (posts (w_store w))
                                 (ott_videos (w_store w)) (follows (w_store w))) w).
Proof.
  intros [H1 H2 [H3 H4]] Hv. split; simpl; [assumption|assumption|].
  split; simpl; [|assumption].
  intros u' v' Hu'. destruct (decide (u = u')) as [<-|Hne].
  - rewrite lookup_insert_eq in Hu'. congruence.
  - rewrite lookup_insert_ne in Hu' by assumption. eauto.
Qed.

Lemma client_ok_put_content c v w :
  client_ok w -> length v = EMBEDDING_DIM ->
  client_ok (set_store (mk_store (user_embeddings (w_store w))
                                 (<[c := v]> (content_embeddings (w_store w)))
                                 (posts (w_store w)) (ott_videos (w_store w))
                                 (follows (w_store w))) w).
Proof.
  intros [H1 H2 [H3 H4]] Hv. split; simpl; [assumption|assumption|].
  split; simpl; [assumption|].
  intros c' v' Hc'. destruct (decide (c = c')) as [<-|Hne].
  - rewrite lookup_insert_eq in Hc'. congruence.
  - rewrite lookup_insert_ne in Hc' by assumption. eauto.
Qed.

Lemma client_ok_heap h w :
  client_ok w -> (length (w_heap w) <= length h)%nat -> client_ok (set_heap h w).
Proof.
  intros [H1 H2 H3] Hh. split; simpl; [|assumption|assumption].
  intros k t Hk. destruct (H1 k t Hk) as (p & Hp & Hfit).
  exists p. split; [assumption|]. eapply fits_mono; eassumption.
Qed.

Lemma client_ok_read k t w :
  client_ok w -> w_cache_times w !! k = Some t ->
  exists p, w_cache w !! k = Some p /\ fits (length (w_heap w)) k p.
Proof. intros [H1 _ _]. apply H1. Qed.

End Order.

Section Catalog.

Context {RT : Runtime}.

Variable G : record -> Prop.

Lemma wp_store_call_any (Q : unit -> world -> Prop) (E : world -> Prop) w :
  (forall fs, Q tt (set_faults fs w)) -> (forall fs, E (set_faults fs w)) ->
  wp store_call Q E w.
Proof.
  intros H1 H2. apply wp_store_call; auto.
  unfold wp, store_call. specialize (H1 (w_faults w)). destruct w; exact H1.
Qed.

Lemma catalog_ok_client L w : catalog_ok G L w -> client_ok w.
Proof. intros [H _]. exact H. Qed.

Lemma catalog_ok_faults L fs w : catalog_ok G L w -> catalog_ok G L (set_faults fs w).
Proof.
  intros (H1 & H2 & H3 & H4 & H5).
  split; [apply client_ok_faults, H1|]. repeat split; assumption.
Qed.

Lemma catalog_ok_rng L g w : catalog_ok G L w -> catalog_ok G L (set_rng g w).
Proof.
  intros (H1 & H2 & H3 & H4 & H5).
  split; [apply client_ok_rng, H1|]. repeat split; assumption.
Qed.

Lemma catalog_ok_cache L k p t w :
  catalog_ok G L w -> fits (length (w_heap w)) k p ->
  k <> "user_emb" /\ k <> "content_emb" ->
  catalog_ok G L
    (set_cache (<[k := p]> (w_cache w)) (<[k := t]> (w_cache_times w)) w).
Proof.
  intros (H1 & H2 & H3 & H4 & H5) Hp Hk.
  split; [apply client_ok_cache; assumption|]. repeat split; assumption.
Qed.

Lemma catalog_ok_put_user L u v w :
  catalog_ok G L w -> length v = EMBEDDING_DIM ->
  catalog_ok G L
    (set_store (mk_store (<[u := v]> (user_embeddings (w_store w)))
                         (content_embeddings (w_store w)) (posts (w_store w))
                         (ott_videos (w_store w)) (follows (w_store w))) w).
Proof.
  intros (H1 & H2 & H3 & H4 & H5) Hv.
  split; [apply client_ok_put_user; assumption|]. repeat split; assumption.
Qed.

Lemma catalog_ok_put_content L c v w :
  catalog_ok G L w -> length v = EMBEDDING_DIM ->
  catalog_ok G L
    (set_store (mk_store (user_embeddings (w_store w))
                         (<[c := v]> (content_embeddings (w_store w)))
                         (posts (w_store w)) (ott_videos (w_store w))
                         (follows (w_store w))) w).
Proof.
  intros (H1 & H2 & H3 & H4 & H5) Hv.
  split; [apply client_ok_put_content; assumption|]. repeat split; assumption.
Qed.

Lemma catalog_ok_alloc L items w :
  catalog_ok G L w -> Forall G items ->
  catalog_ok G (seq (length (w_heap w)) (length items) ++ L)
    (set_heap (w_heap w ++ items) w).
Proof.
  intros (H1 & H2 & H3 & H4 & H5) Hi.
  split; [apply client_ok_heap; [assumption|rewrite length_app; lia]|].
  simpl. repeat split; try assumption.
  - apply Forall_app; auto.
  - rewrite length_app. apply Forall_app. split.
    + apply Forall_forall. intros l Hl. apply elem_of_seq in Hl. lia.
    + eapply Forall_impl; [exact H5|]. simpl. intros; lia.
Qed.

Lemma catalog_ok_setitem L l r r' w :
  catalog_ok G L w -> w_heap w !! l = Some r -> G r' ->
  catalog_ok G L (set_heap (<[l := r']> (w_heap w)) w).
Proof.
  intros (H1 & H2 & H3 & H4 & H5) Hl Hr.
  split; [apply client_ok_heap; [assumption|rewrite length_insert; lia]|].
  simpl. rewrite length_insert. repeat split; try assumption.
  apply Forall_insert; assumption.
Qed.

Lemma catalog_ok_sub L L' w :
  catalog_ok G L w -> L' ⊆ L -> catalog_ok G L' w.
Proof.
  intros (H1 & H2 & H3 & H4 & H5) Hsub.
  split; [assumption|]. repeat split; try assumption.
  apply Forall_forall. intros l Hl. rewrite Forall_forall in H5. auto.
Qed.

(** *** The embedding operations *)

Lemma wp_save_user_embedding L u e (Q : unit -> world -> Prop) E w :
  catalog_ok G L w -> length e = EMBEDDING_DIM ->
  (forall w', catalog_ok G L w' -> Q tt w') ->
  wp (save_user_embedding u e) Q E w.
Proof.
  intros HI He HQ. unfold save_user_embedding, put_user_embedding.
  apply wp_try, wp_bind, wp_bind, wp_store_call_any.
  - intros fs. apply wp_modify, wp_cache_write, HQ.
    apply catalog_ok_cache; [| apply fits_user, He | apply key_not_bare; auto].
    apply catalog_ok_put_user; [|exact He]. apply catalog_ok_faults, HI.
  - intros fs. apply wp_ret, HQ, catalog_ok_faults, HI.
Qed.

Lemma wp_save_content_embedding L c e (Q : unit -> world -> Prop) E w :
  catalog_ok G L w -> length e = EMBEDDING_DIM ->
  (forall w', catalog_ok G L w' -> Q tt w') ->
  wp (save_content_embedding c e) Q E w.
Proof.
  intros HI He HQ. unfold save_content_embedding, put_content_embedding.
  apply wp_try, wp_bind, wp_bind, wp_store_call_any.
  - intros fs. apply wp_modify, wp_cache_write, HQ.
    apply catalog_ok_cache; [| apply fits_content, He | apply key_not_bare; auto].
    apply catalog_ok_put_content; [|exact He]. apply catalog_ok_faults, HI.
  - intros fs. apply wp_ret, HQ, catalog_ok_faults, HI.
Qed.

Lemma wp_cached_emb L k (Q : list R -> world -> Prop) (E : world -> Prop) w t :
  catalog_ok G L w -> w_cache_times w !! k = Some t ->
  (exists table x, k = _cache_key table x
                   /\ (table = "user_emb" \/ table = "content_emb")) ->
  (forall v, length v = EMBEDDING_DIM -> Q v w) ->
  wp (let! p := cache_read k in as_emb p) Q E w.
Proof.
  intros HI Ht (table & x & -> & Htable) HQ.
  destruct (client_ok_read _ _ _ (catalog_ok_client _ _ HI) Ht)
    as (p & Hp & H1 & H2 & _).
  assert (has_dim p) as (v & -> & Hv) by (destruct Htable as [->| ->]; eauto).
  apply wp_bind, wp_cache_read; [|congruence].
  intros p' Hp'. assert (p' = CEmb v) as -> by congruence.
  apply wp_ret, HQ, Hv.
Qed.

Lemma wp_get_user_embedding L u (Q : list R -> world -> Prop) E w :
  catalog_ok G L w ->
  (forall v w', catalog_ok G L w' -> length v = EMBEDDING_DIM -> Q v w') ->
  wp (get_user_embedding u) Q E w.
Proof.
  intros HI HQ. unfold get_user_embedding. apply wp_bind, wp_is_cached.
  - intros t Ht _. eapply wp_cached_emb; eauto.
  - apply wp_bind, wp_try, wp_bind, wp_store_call_any.
    + intros fs. apply wp_bind, wp_gets. simpl.
      destruct (user_embeddings (w_store w) !! u) as [e|] eqn:Hu.
      * assert (length e = EMBEDDING_DIM) as He
          by (destruct (ok_stored _ (catalog_ok_client _ _ HI)) as [Hs _];
              eapply Hs; eassumption).
        apply wp_bind, wp_cache_write, wp_ret, wp_ret, HQ; [|exact He].
        apply catalog_ok_cache;
          [apply catalog_ok_faults, HI | apply fits_user, He
          | apply key_not_bare; auto].
      * apply wp_ret, wp_bind, wp_create_random_embedding. intros v g Hv.
        apply wp_bind. eapply wp_save_user_embedding; [|exact Hv|].
        -- apply catalog_ok_rng, catalog_ok_faults, HI.
        -- intros w' HI'. apply wp_ret, HQ; assumption.
    + intros fs. apply wp_ret, wp_bind, wp_create_random_embedding. intros v g Hv.
      apply wp_bind. eapply wp_save_user_embedding; [|exact Hv|].
      * apply catalog_ok_rng, catalog_ok_faults, HI.
      * intros w' HI'. apply wp_ret, HQ; assumption.
Qed.


Lemma Ok_inj {A} (a b : A) : Ok a = Ok b -> a = b.
Proof. intros H. injection H as H. exact H. Qed.

Lemma create_content_embedding_length now (c : record) e :
  create_content_embedding now c = Ok e -> length e = EMBEDDING_DIM.
Proof.
  unfold create_content_embedding, hash_features.
  destruct (counter c "likes" "likeCount" 0) as [likes|]; [|discriminate].
  destruct (counter c "viewCount" "views" 1) as [views|]; [|discriminate].
  destruct (counter c "commentsCount" "commentCount" 0) as [comments|];
    [|discriminate].
  destruct (counter1 c "shares") as [shares|]; [|discriminate].
  generalize (engagement_features_length likes views comments shares).
  generalize (engagement_features likes views comments shares) as e0.
  intros e0 He0.
  destruct (Py.truthy (content_id_of c)).
  - destruct (content_id_of c) as [| |s]; intros H;
      [discriminate H|discriminate H|].
    apply Ok_inj in H. subst e.
    rewrite hash_fill_length, type_features_length, time_features_length.
    exact He0.
  - intros H. apply Ok_inj in H. subst e.
    rewrite type_features_length, time_features_length. exact He0.
Qed.

Lemma create_content_embedding_raise now (c : record) x :
  create_content_embedding now c = Raise x -> ~ record_ok c.
Proof.
  intros Hx ((likes & H1) & (views & H2) & (comments & H3) & (shares & H4) & H5).
  destruct (create_content_embedding_ok now c _ _ _ _ H1 H2 H3 H4 H5)
    as (e & He & _).
  congruence.
Qed.

Lemma wp_get_content_embedding L cid content (Q : list R -> world -> Prop)
    (E : world -> Prop) w :
  catalog_ok G L w ->
  (forall v w', catalog_ok G L w' -> length v = EMBEDDING_DIM -> Q v w') ->
  (forall w', catalog_ok G L w' ->
              (exists c, content = Some c /\ ~ record_ok c) -> E w') ->
  wp (get_content_embedding cid content) Q E w.
Proof.
  intros HI HQ HE. unfold get_content_embedding.
  assert (forall w0, catalog_ok G L w0 ->
            wp match content with
               | Some c =>
                   if decide (c = ∅) then create_random_embedding
                   else
                     let! now := gets w_now in
                     let! embedding := lift (create_content_embedding now c) in
                     run! save_content_embedding cid embedding in ret embedding
               | None => create_random_embedding
               end Q E w0) as Hmake.
  { intros w0 HI0. destruct content as [c|].
    - destruct (decide (c = ∅)).
      + apply wp_create_random_embedding. intros v g Hv.
        apply HQ; [apply catalog_ok_rng, HI0|exact Hv].
      + apply wp_bind, wp_gets, wp_bind, wp_lift.
        * intros e He. apply create_content_embedding_length in He.
          apply wp_bind. eapply wp_save_content_embedding; [exact HI0|exact He|].
          intros w' HI'. apply wp_ret, HQ; assumption.
        * intros x Hx. apply HE; [exact HI0|].
          exists c. split; [reflexivity|].
          eapply create_content_embedding_raise, Hx.
    - apply wp_create_random_embedding. intros v g Hv.
      apply HQ; [apply catalog_ok_rng, HI0|exact Hv]. }
  apply wp_bind, wp_is_cached.
  - intros t Ht _. eapply wp_cached_emb; eauto.
  - apply wp_bind, wp_try, wp_bind, wp_store_call_any.
    + intros fs. apply wp_bind, wp_gets. simpl.
      destruct (content_embeddings (w_store w) !! Py.str cid) as [e|] eqn:Hc.
      * assert (length e = EMBEDDING_DIM) as He
          by (destruct (ok_stored _ (catalog_ok_client _ _ HI)) as [_ Hs];
              eapply Hs; eassumption).
        apply wp_bind, wp_cache_write, wp_ret, wp_ret, HQ; [|exact He].
        apply catalog_ok_cache;
          [apply catalog_ok_faults, HI | apply fits_content, He
          | apply key_not_bare; auto].
      * apply wp_ret, Hmake, catalog_ok_faults, HI.
    + intros fs. apply wp_ret, Hmake, catalog_ok_faults, HI.
Qed.

Lemma wp_get_user_follows L u (Q : list pyval -> world -> Prop) E w :
  catalog_ok G L w ->
  (forall ids w', catalog_ok G L w' -> Q ids w') ->
  wp (get_user_follows u) Q E w.
Proof.
  intros HI HQ. unfold get_user_follows. apply wp_bind, wp_is_cached.
  - intros t Ht _.
    destruct (client_ok_read _ _ _ (catalog_ok_client _ _ HI) Ht)
      as (p & Hp & _ & _ & H3 & _).
    destruct (H3 u eq_refl) as (ids & ->).
    apply wp_bind, wp_cache_read; [|congruence].
    intros p' Hp'. assert (p' = CIds ids) as -> by congruence.
    apply wp_ret, HQ, HI.
  - apply wp_try, wp_bind, wp_store_call_any.
    + intros fs. apply wp_bind, wp_gets, wp_bind, wp_lift.
      * intros ids _. apply wp_bind, wp_cache_write, wp_ret, HQ.
        apply catalog_ok_cache;
          [apply catalog_ok_faults, HI | apply fits_follows
          | apply key_not_bare; auto].
      * intros e _. apply wp_ret, HQ, catalog_ok_faults, HI.
    + intros fs. apply wp_ret, HQ, catalog_ok_faults, HI.
Qed.

Lemma learn_update_ok user_emb content_emb weight lr :
  length user_emb = EMBEDDING_DIM -> length content_emb = EMBEDDING_DIM ->
  exists out,
    NeuralEmbedding.update_embedding user_emb content_emb weight lr = Ok out
    /\ length out = EMBEDDING_DIM /\ Np.norm out <= 1.
Proof.
  intros Hu Hc.
  assert (length user_emb = length content_emb) as Hl by congruence.
  rewrite (update_embedding_cases _ _ weight lr Hl).
  set (updated := step_towards (lr * weight) user_emb content_emb).
  assert (length updated = EMBEDDING_DIM) as Hlen
    by (unfold updated; rewrite length_step; assumption).
  destruct (Rlt_dec 1 (Np.norm updated)) as [Hgt|Hle].
  - eexists. split; [reflexivity|]. split.
    + unfold Np.div_scalar. rewrite length_map. exact Hlen.
    + rewrite norm_div_self; lra.
  - eexists. split; [reflexivity|]. split; [exact Hlen|lra].
Qed.

Lemma wp_learn_from_interaction L u cid a content (Q : list R -> world -> Prop)
    (E : world -> Prop) w :
  catalog_ok G L w ->
  (forall v w', catalog_ok G L w' -> length v = EMBEDDING_DIM -> Np.norm v <= 1 ->
                Q v w') ->
  (forall w', catalog_ok G L w' ->
              (exists c, content = Some c /\ ~ record_ok c) -> E w') ->
  wp (learn_from_interaction u cid a content) Q E w.
Proof.
  intros HI HQ HE. unfold learn_from_interaction.
  apply wp_bind. eapply wp_get_user_embedding; [exact HI|].
  intros user_emb w1 HI1 Hu.
  apply wp_bind. eapply wp_get_content_embedding; [exact HI1| |exact HE].
  intros content_emb w2 HI2 Hc.
  destruct (learn_update_ok user_emb content_emb (action_weight a) LEARNING_RATE
              Hu Hc) as (out & Hout & Hlen & Hnorm).
  apply wp_bind, wp_lift; [|congruence].
  intros v Hv. assert (v = out) as -> by congruence.
  apply wp_bind. eapply wp_save_user_embedding; [exact HI2|exact Hlen|].
  intros w3 HI3. apply wp_ret, HQ; assumption.
Qed.

End Catalog.

(** ** A ranking request keeps the client in order *)

Section Requests.

Context {RT : Runtime}.

Variable G : record -> Prop.

Hypothesis G_tag : forall (r : record) k v,
  k = "_type" \/ k = "contentId" -> G r -> G (<[k := v]> r).

Lemma catalog_ok_add L ls w :
  catalog_ok G L w -> Forall (fun l : nat => (l < length (w_heap w))%nat) ls ->
  catalog_ok G (ls ++ L) w.
Proof.
  intros (H1 & H2 & H3 & H4 & H5) Hls.
  split; [assumption|]. repeat split; try assumption.
  apply Forall_app; auto.
Qed.

Lemma catalog_ok_listed L ls w :
  catalog_ok G (ls ++ L) w -> Forall (fun l : nat => (l < length (w_heap w))%nat) ls.
Proof.
  intros (_ & _ & _ & _ & H5). apply Forall_app in H5. tauto.
Qed.

Lemma wp_scan_cached L tname x table limit (Q : list loc -> world -> Prop) E w :
  tname = "posts" \/ tname = "videos" ->
  (forall w0, catalog_ok G L w0 -> Forall G (table (w_store w0))) ->
  catalog_ok G L w ->
  (forall ls w', catalog_ok G (ls ++ L) w' -> Q ls w') ->
  wp (scan_cached (_cache_key tname x) table limit) Q E w.
Proof.
  intros Hname Htable HI HQ. unfold scan_cached. apply wp_bind, wp_is_cached.
  - intros t Ht _.
    destruct (client_ok_read _ _ _ (catalog_ok_client _ _ _ HI) Ht)
      as (p & Hp & _ & _ & _ & H4 & H5 & _).
    assert (items_below (length (w_heap w)) p) as (ls & -> & Hls)
      by (destruct Hname as [->| ->]; eauto).
    apply wp_bind, wp_cache_read; [|congruence].
    intros p' Hp'. assert (p' = CItems ls) as -> by congruence.
    apply wp_ret, HQ, catalog_ok_add; assumption.
  - apply wp_try, wp_bind, wp_store_call_any.
    + intros fs. apply wp_bind, wp_gets, wp_bind, wp_alloc_all.
      simpl.
      set (items := take limit (table (w_store w))).
      assert (catalog_ok G (seq (length (w_heap w)) (length items) ++ L)
                (set_heap (w_heap w ++ items) (set_faults fs w))) as HI'.
      { apply (catalog_ok_alloc G L items (set_faults fs w)).
        - apply catalog_ok_faults, HI.
        - apply Forall_take, Htable, HI. }
      apply wp_bind, wp_cache_write, wp_ret, HQ.
      apply catalog_ok_cache; [exact HI'| |apply key_not_bare; tauto].
      apply fits_items; [tauto|]. exact (catalog_ok_listed _ _ _ HI').
    + intros fs. apply wp_ret, HQ. apply (catalog_ok_faults G L fs w HI).
Qed.

Lemma wp_heap_setitem L l k v (Q : unit -> world -> Prop) (E : world -> Prop) w :
  k = "_type" \/ k = "contentId" ->
  catalog_ok G L w -> l ∈ L ->
  (forall w', catalog_ok G L w' -> Q tt w') ->
  wp (heap_setitem l k v) Q E w.
Proof.
  intros Hk HI Hl HQ. unfold heap_setitem.
  assert (l < length (w_heap w))%nat as Hlt.
  { destruct HI as (_ & _ & _ & _ & H5). rewrite Forall_forall in H5. auto. }
  destruct (lookup_lt_is_Some_2 _ _ Hlt) as [r Hr].
  apply wp_bind, wp_heap_read; [|congruence].
  intros c Hc. assert (c = r) as -> by congruence.
  apply wp_modify, HQ. eapply catalog_ok_setitem; [exact HI|exact Hr|].
  apply G_tag; [exact Hk|].
  destruct HI as (_ & H2 & _). rewrite Forall_lookup in H2. eauto.
Qed.

Lemma wp_tag_items L kind id_key items (Q : unit -> world -> Prop)
    (E : world -> Prop) w :
  catalog_ok G L w -> items ⊆ L ->
  (forall w', catalog_ok G L w' -> Q tt w') ->
  wp (tag_items kind id_key items) Q E w.
Proof.
  unfold tag_items. revert w.
  induction items as [|p items IH]; intros w HI Hsub HQ.
  - apply wp_ret, HQ, HI.
  - assert (p ∈ L) as Hp by (apply Hsub; left).
    assert (items ⊆ L) as Hrest by (intros l Hl; apply Hsub; right; exact Hl).
    simpl. apply wp_bind, wp_bind.
    apply (wp_heap_setitem L); [tauto|exact HI|exact Hp|].
    intros w1 HI1.
    assert (p < length (w_heap w1))%nat as Hlt.
    { destruct HI1 as (_ & _ & _ & _ & H5). rewrite Forall_forall in H5. auto. }
    destruct (lookup_lt_is_Some_2 _ _ Hlt) as [r Hr].
    apply wp_bind, wp_heap_read; [|congruence].
    intros c Hc.
    apply (wp_heap_setitem L); [tauto|exact HI1|exact Hp|].
    intros w2 HI2. apply IH; assumption.
Qed.

Lemma wp_gather_kind L wanted tname x table limit kind id_key
    (Q : list loc -> world -> Prop) (E : world -> Prop) w :
  tname = "posts" \/ tname = "videos" ->
  (forall w0 L0, catalog_ok G L0 w0 -> Forall G (table (w_store w0))) ->
  catalog_ok G L w ->
  (forall ls w', catalog_ok G (ls ++ L) w' -> Q ls w') ->
  wp (gather_kind wanted (scan_cached (_cache_key tname x) table limit) kind id_key)
     Q E w.
Proof.
  intros Hname Htable HI HQ. unfold gather_kind. destruct wanted.
  - apply wp_bind. apply (wp_scan_cached L); [exact Hname|eauto|exact HI|].
    intros ls w1 HI1. apply wp_bind.
    apply (wp_tag_items (ls ++ L)); [exact HI1| |].
    + intros l Hl. apply elem_of_app. auto.
    + intros w2 HI2. apply wp_ret, HQ, HI2.
  - apply wp_ret, HQ. exact HI.
Qed.

Lemma wp_gather_content L content_type (Q : list loc -> world -> Prop)
    (E : world -> Prop) w :
  catalog_ok G L w ->
  (forall ls w', catalog_ok G (ls ++ L) w' -> Q ls w') ->
  wp (gather_content content_type) Q E w.
Proof.
  intros HI HQ. unfold gather_content, get_all_posts, get_ott_videos.
  apply wp_bind. apply (wp_gather_kind L); [tauto| |exact HI|].
  { intros w0 L0 (_ & _ & H3 & _). exact H3. }
  intros ls1 w1 HI1. apply wp_bind.
  apply (wp_gather_kind (ls1 ++ L)); [tauto| |exact HI1|].
  { intros w0 L0 (_ & _ & _ & H4 & _). exact H4. }
  intros ls2 w2 HI2. apply wp_ret, HQ.
  eapply catalog_ok_sub; [exact HI2|].
  intros l Hl. rewrite !elem_of_app in *. tauto.
Qed.

Lemma wp_filter_not_own L user_id ls (Q : list loc -> world -> Prop)
    (E : world -> Prop) w :
  catalog_ok G L w -> ls ⊆ L ->
  (forall out, out ⊆ ls -> Q out w) ->
  wp (filterM (fun l => let! c := heap_read l in ret (not_own user_id c)) ls) Q E w.
Proof.
  intros HI. revert Q. induction ls as [|l ls IH]; intros Q Hsub HQ.
  - apply wp_ret, HQ. reflexivity.
  - assert (l ∈ L) as Hl by (apply Hsub; left).
    assert (ls ⊆ L) as Hrest by (intros l' Hl'; apply Hsub; right; exact Hl').
    assert (l < length (w_heap w))%nat as Hlt.
    { destruct HI as (_ & _ & _ & _ & H5). rewrite Forall_forall in H5. auto. }
    destruct (lookup_lt_is_Some_2 _ _ Hlt) as [r Hr].
    simpl. apply wp_bind, wp_bind, wp_heap_read; [|congruence].
    intros c Hc. apply wp_ret, wp_bind. apply IH; [exact Hrest|].
    intros out Hout. apply wp_ret, HQ.
    destruct (not_own user_id c).
    + intros l' Hl'. apply elem_of_cons in Hl' as [->|Hl']; [left|right; auto].
    + intros l' Hl'. right. auto.
Qed.

Lemma wp_score_content L user_emb (c : record) following (Q : R -> world -> Prop)
    (E : world -> Prop) w :
  catalog_ok G L w -> length user_emb = EMBEDDING_DIM ->
  (forall s w', catalog_ok G L w' -> Q s w') ->
  (forall w', catalog_ok G L w' -> ~ record_ok c -> E w') ->
  wp (score_content user_emb c following) Q E w.
Proof.
  intros HI Hu HQ HE. unfold score_content.
  apply wp_bind. eapply wp_get_content_embedding; [exact HI| |].
  2:{ intros w' HI' (c' & [= <-] & Hbad). apply HE; assumption. }
  intros content_emb w1 HI1 Hc.
  destruct (similarity_total user_emb content_emb) as (s & Hs & _);
    [congruence|].
  apply wp_bind, wp_lift; [|congruence]. intros s' _.
  apply wp_bind, wp_lift.
  2:{ intros e He. apply HE; [exact HI1|].
      intros ((z & Hz) & _). congruence. }
  intros likes _. apply wp_bind, wp_lift.
  2:{ intros e He. apply HE; [exact HI1|].
      intros (_ & (z & Hz) & _). congruence. }
  intros views _. apply wp_bind, wp_lift.
  2:{ intros e He. apply HE; [exact HI1|].
      intros (_ & _ & (z & Hz) & _). congruence. }
  intros comments _. apply wp_bind, wp_gets, wp_bind, wp_np_random.
  intros x g. apply wp_ret, HQ, catalog_ok_rng, HI1.
Qed.

Lemma wp_score_entry L user_emb following l (Q : recommendation -> world -> Prop)
    (E : world -> Prop) w :
  catalog_ok G L w -> length user_emb = EMBEDDING_DIM -> l ∈ L ->
  (forall r w', catalog_ok G L w' -> Q r w') ->
  (forall w', catalog_ok G L w' -> (exists c, G c /\ ~ record_ok c) -> E w') ->
  wp (score_entry user_emb following l) Q E w.
Proof.
  intros HI Hu Hl HQ HE. unfold score_entry.
  assert (l < length (w_heap w))%nat as Hlt.
  { destruct HI as (_ & _ & _ & _ & H5). rewrite Forall_forall in H5. auto. }
  destruct (lookup_lt_is_Some_2 _ _ Hlt) as [r Hr].
  apply wp_bind, wp_heap_read; [|congruence].
  intros c Hc.
  assert (G c) as HG.
  { destruct HI as (_ & H2 & _). rewrite Forall_lookup in H2. eauto. }
  apply wp_bind. apply (wp_score_content L); [exact HI|exact Hu| |].
  - intros s w' HI'. apply wp_ret, HQ, HI'.
  - intros w' HI' Hbad. apply HE; eauto.
Qed.

Lemma wp_mapM_score_entry L user_emb following ls
    (Q : list recommendation -> world -> Prop) (E : world -> Prop) w :
  catalog_ok G L w -> length user_emb = EMBEDDING_DIM -> ls ⊆ L ->
  (forall rs w', catalog_ok G L w' -> length rs = length ls -> Q rs w') ->
  (forall w', catalog_ok G L w' -> (exists c, G c /\ ~ record_ok c) -> E w') ->
  wp (mapM (score_entry user_emb following) ls) Q E w.
Proof.
  intros HI Hu Hsub HQ HE. revert w Q HI HQ.
  induction ls as [|l ls IH]; intros w Q HI HQ.
  - apply wp_ret, HQ; [exact HI|reflexivity].
  - assert (l ∈ L) as Hl by (apply Hsub; left).
    assert (ls ⊆ L) as Hrest by (intros l' Hl'; apply Hsub; right; exact Hl').
    simpl. apply wp_bind.
    apply (wp_score_entry L); [exact HI|exact Hu|exact Hl| |exact HE].
    intros r w1 HI1. apply wp_bind. apply IH; [exact Hrest|exact HI1|].
    intros rs w2 HI2 Hlen. apply wp_ret, HQ; [exact HI2|].
    simpl. congruence.
Qed.

Lemma wp_get_recommendations user_id limit content_type
    (Q : list recommendation -> world -> Prop) (E : world -> Prop) w :
  catalog_ok G [] w ->
  (forall recs w', catalog_ok G [] w' -> Q recs w') ->
  (forall w', catalog_ok G [] w' -> (exists c, G c /\ ~ record_ok c) -> E w') ->
  wp (get_recommendations user_id limit content_type) Q E w.
Proof.
  intros HI HQ HE. unfold get_recommendations.
  apply wp_bind. apply (wp_get_user_embedding G []); [exact HI|].
  intros user_emb w1 HI1 Hu.
  apply wp_bind. apply (wp_get_user_follows G []); [exact HI1|].
  intros following w2 HI2.
  apply wp_bind. apply (wp_gather_content []); [exact HI2|].
  intros ls w3 HI3.
  apply wp_bind. apply (wp_filter_not_own (ls ++ [])); [exact HI3| |].
  { intros l Hl. apply elem_of_app. auto. }
  intros cands Hcands.
  apply wp_bind.
  apply (wp_mapM_score_entry (ls ++ [])); [exact HI3|exact Hu| | |].
  - intros l Hl. apply elem_of_app. auto.
  - intros rs w4 HI4 _. apply wp_ret, HQ.
    eapply catalog_ok_sub; [exact HI4|]. intros l Hl. inversion Hl.
  - intros w4 HI4 Hbad. apply HE; [|exact Hbad].
    eapply catalog_ok_sub; [exact HI4|]. intros l Hl. inversion Hl.
Qed.

End Requests.

(** ** The client as its own methods leave it *)

Section Kept.

Context {RT : Runtime}.

Lemma client_ok_empty w :
  w_cache w = ∅ -> w_cache_times w = ∅ -> stored_dims (w_store w) -> client_ok w.
Proof.
  intros Hc Ht Hs. split; [| |exact Hs].
  - intros k t Hk. rewrite Ht, lookup_empty in Hk. discriminate.
  - intros k [p Hk]. rewrite Hc, lookup_empty in Hk. discriminate.
Qed.

Lemma new_client_fields s faults now :
  let w := new_client s faults now in
  w_cache w = ∅ /\ w_cache_times w = ∅ /\ w_heap w = [] /\ w_store w = s
  /\ w_now w = now /\ w_rng w = np_seed 42.
Proof.
  unfold new_client, try_except, bind, store_call, modify, ret.
  destruct faults as [|[|] [|[|] [|[|] [|[|] [|[|] ?]]]]]; simpl; auto 10.
Qed.

Lemma catalog_ok_any w : client_ok w -> catalog_ok (fun _ => True) [] w.
Proof.
  intros H. split; [exact H|].
  repeat split; try (apply Forall_forall; intros; exact I). apply Forall_nil_2.
Qed.

Lemma record_ok_off_tags (r r' : record) :
  same_off_tags r r' -> record_ok r -> record_ok r'.
Proof.
  intros Hs ((z1 & H1) & (z2 & H2) & (z3 & H3) & (z4 & H4) & H5).
  repeat split.
  - exists z1. rewrite (same_off_tags_counter r r') by (auto; discriminate). exact H1.
  - exists z2. rewrite (same_off_tags_counter r r') by (auto; discriminate). exact H2.
  - exists z3. rewrite (same_off_tags_counter r r') by (auto; discriminate). exact H3.
  - exists z4. unfold counter1 in *.
    rewrite (same_off_tags_get r r') by (auto; discriminate). exact H4.
  - unfold id_encodable in *. rewrite (same_off_tags_content_id r r' Hs). exact H5.
Qed.

Lemma record_ok_tag (r : record) k v :
  k = "_type" \/ k = "contentId" -> record_ok r -> record_ok (<[k := v]> r).
Proof.
  intros Hk. apply record_ok_off_tags. intros k' H1 H2.
  apply lookup_insert_ne. destruct Hk; congruence.
Qed.

(** X1. The order of the caches is an invariant of the client: it holds
    after construction over tables whose vectors have the configured
    dimension, and each operation keeps it, whether it returns or
    raises: a key with a time always has a payload of its namespace's
    kind, and the stored vectors keep the configured dimension. *)
Theorem client_order_kept s faults now w user_id content_id cid content
    action_type limit content_type :
  stored_dims s -> client_ok w ->
  client_ok (new_client s faults now)
  /\ client_ok (snd (get_user_embedding user_id w))
  /\ client_ok (snd (get_content_embedding cid content w))
  /\ client_ok (snd (get_user_follows user_id w))
  /\ client_ok (snd (get_all_posts w))
  /\ client_ok (snd (get_ott_videos w))
  /\ client_ok
       (snd (learn_from_interaction user_id content_id action_type content w))
  /\ client_ok (snd (get_recommendations user_id limit content_type w)).
Proof.
  intros Hs Hw. pose proof (catalog_ok_any w Hw) as HI.
  assert (forall L w', catalog_ok (fun _ => True) L w' -> client_ok w') as Hback
    by (intros L w' [H _]; exact H).
  split.
  { destruct (new_client_fields s faults now) as (H1 & H2 & _ & H4 & _).
    apply client_ok_empty; [exact H1|exact H2|]. rewrite H4. exact Hs. }
  repeat match goal with |- _ /\ _ => split end; apply wp_snd.
  - eapply wp_get_user_embedding; [exact HI|]. eauto.
  - eapply wp_get_content_embedding; [exact HI| |]; eauto.
  - eapply wp_get_user_follows; [exact HI|]. eauto.
  - apply (wp_scan_cached (fun _ => True) []); [tauto| |exact HI|eauto].
    intros w0 (_ & _ & H3 & _). exact H3.
  - apply (wp_scan_cached (fun _ => True) []); [tauto| |exact HI|eauto].
    intros w0 (_ & _ & _ & H4 & _). exact H4.
  - eapply wp_learn_from_interaction; [exact HI| |]; eauto.
  - apply (wp_get_recommendations (fun _ => True)); [auto|exact HI| |]; eauto.
Qed.




(** X5. [get_embedding_counts] looks the cache up under the bare table
    names, where the client never writes: on a client in order it reports
    no user and no content vector, also right after a vector has been
    fetched or learned and cached. *)
Theorem embedding_counts_zero user_id content_id action_type content w :
  client_ok w ->
  get_embedding_counts w = (Ok (0%nat, 0%nat), w)
  /\ fst (get_embedding_counts (snd (get_user_embedding user_id w)))
     = Ok (0%nat, 0%nat)
  /\ fst (get_embedding_counts
            (snd (learn_from_interaction user_id content_id action_type content w)))
     = Ok (0%nat, 0%nat).
Proof.
  assert (forall w0, client_ok w0 ->
            get_embedding_counts w0 = (Ok (0%nat, 0%nat), w0)) as Hzero.
  { intros w0 [_ Hn _]. unfold get_embedding_counts, gets, cache_len.
    destruct (w_cache w0 !! "user_emb") as [p|] eqn:Hu.
    { destruct (Hn "user_emb") as [Hbad _]; [eauto|]. congruence. }
    destruct (w_cache w0 !! "content_emb") as [p|] eqn:Hc.
    { destruct (Hn "content_emb") as [_ Hbad]; [eauto|]. congruence. }
    reflexivity. }
  intros Hw. pose proof (catalog_ok_any w Hw) as HI.
  split; [apply Hzero, Hw|]. split.
  - rewrite Hzero; [reflexivity|]. apply wp_snd.
    eapply wp_get_user_embedding; [exact HI|]. intros v w' [H _] _. exact H.
  - rewrite Hzero; [reflexivity|]. apply wp_snd.
    eapply wp_learn_from_interaction; [exact HI| |].
    + intros v w' [H _] _ _. exact H.
    + intros w' [H _] _. exact H.
Qed.

End Kept.

(** ** Reading back what was saved *)

Section ReadBack.

Context {RT : Runtime}.

Lemma get_user_embedding_cached user_id w t v :
  w_cache_times w !! _cache_key "user_emb" user_id = Some t ->
  w_now w - t < IZR CACHE_TTL ->
  w_cache w !! _cache_key "user_emb" user_id = Some (CEmb v) ->
  get_user_embedding user_id w = (Ok v, w).
Proof.
  intros Ht Hfresh Hc.
  unfold get_user_embedding, bind, _is_cached, cache_read. rewrite Ht.
  destruct (Rlt_dec (w_now w - t) (IZR CACHE_TTL)); [|contradiction].
  rewrite Hc. reflexivity.
Qed.

Lemma is_cached_expired k w t :
  w_cache_times w !! k = Some t -> IZR CACHE_TTL <= w_now w - t ->
  _is_cached k w = (Ok false, w).
Proof.
  intros Ht Hold. unfold _is_cached. rewrite Ht.
  destruct (Rlt_dec (w_now w - t) (IZR CACHE_TTL)); [lra|reflexivity].
Qed.

Lemma is_cached_not_fresh k w : ~ fresh k w -> _is_cached k w = (Ok false, w).
Proof.
  intros Hk. unfold _is_cached.
  destruct (w_cache_times w !! k) as [t|] eqn:Ht; [|reflexivity].
  destruct (Rlt_dec (w_now w - t) (IZR CACHE_TTL)); [|reflexivity].
  exfalso. apply Hk. exists t. auto.
Qed.

(** X6. A vector that [save_user_embedding] wrote is what
    [get_user_embedding] returns for as long as the entry is fresh, that
    is while the clock shows less than [CACHE_TTL] seconds more than at the
    save: the read makes no call to the store and changes nothing. *)
Theorem saved_vector_read_back user_id e w t' :
  next_call_fails w = false ->
  t' - w_now w < IZR CACHE_TTL ->
  let w1 := set_now t' (snd (save_user_embedding user_id e w)) in
  get_user_embedding user_id w1 = (Ok e, w1).
Proof.
  intros Hf Ht w1.
  destruct (save_user_embedding_cases user_id e w) as (w' & Hsave & Hok & _).
  destruct (Hok Hf) as (_ & Hc & Htime).
  subst w1. rewrite Hsave. simpl.
  apply (get_user_embedding_cached user_id (set_now t' w') (w_now w) e);
    simpl; assumption.
Qed.

(** X7. An entry that has reached the age of [CACHE_TTL] seconds is not
    served: [get_user_embedding] asks the store, returns the vector the
    table holds, whatever the cache held, and caches it anew under the
    current time. *)
Theorem expired_entry_refetched user_id w t e :
  w_cache_times w !! _cache_key "user_emb" user_id = Some t ->
  IZR CACHE_TTL <= w_now w - t ->
  next_call_fails w = false ->
  user_embeddings (w_store w) !! user_id = Some e ->
  exists w',
    get_user_embedding user_id w = (Ok e, w')
    /\ w_cache w' !! _cache_key "user_emb" user_id = Some (CEmb e)
    /\ w_cache_times w' !! _cache_key "user_emb" user_id = Some (w_now w)
    /\ w_store w' = w_store w.
Proof.
  intros Ht Hold Hf Hs.
  unfold get_user_embedding, bind. rewrite (is_cached_expired _ _ _ Ht Hold).
  unfold try_except, bind, store_call, gets, cache_write, modify, ret.
  unfold next_call_fails in Hf.
  destruct (w_faults w) as [|[|] fs]; try discriminate; simpl; rewrite Hs; simpl;
    eexists; (split; [reflexivity|]); simpl; rewrite !lookup_insert_eq; auto.
Qed.

(** X8. When no fresh entry is cached and the read of the store fails,
    [get_user_embedding] falls back to a new random vector and saves it:
    if that write goes through, the table row of the user now holds the
    random vector, whatever learned vector it held before. *)
Theorem failed_read_replaces_stored_vector user_id w fs :
  ~ fresh (_cache_key "user_emb" user_id) w ->
  w_faults w = true :: false :: fs ->
  let v := Np.scale (sqrt (2 / INR EMBEDDING_DIM))
                    (fst (randn_array EMBEDDING_DIM (w_rng w))) in
  exists w',
    get_user_embedding user_id w = (Ok v, w')
    /\ user_embeddings (w_store w') !! user_id = Some v
    /\ w_cache w' !! _cache_key "user_emb" user_id = Some (CEmb v)
    /\ w_faults w' = fs.
Proof.
  intros Hmiss Hf v.
  unfold get_user_embedding, bind. rewrite (is_cached_not_fresh _ _ Hmiss).
  unfold try_except, bind, store_call, gets, ret. rewrite Hf.
  rewrite create_random_embedding_value.
  unfold save_user_embedding, try_except, put_user_embedding, bind, store_call,
    cache_write, modify, ret.
  simpl. eexists. split; [reflexivity|]. simpl.
  rewrite !lookup_insert_eq. auto.
Qed.

(** X9. The feature vector of a content item is computed once. After
    [get_content_embedding] has built it from a record and saved it, every
    later call for that id, at any time and with any record -- other
    counters, another creation time, none at all -- returns that first
    vector, from the cache while the entry is fresh and from the table
    afterwards (the store being reachable). *)
Theorem content_vector_frozen content_id (c : record) w e :
  w_cache_times w !! _cache_key "content_emb" (Py.str content_id) = None ->
  content_embeddings (w_store w) !! Py.str content_id = None ->
  w_faults w = [] -> c <> ∅ ->
  create_content_embedding (w_now w) c = Ok e ->
  exists w1,
    get_content_embedding content_id (Some c) w = (Ok e, w1)
    /\ forall content t',
         exists w2,
           get_content_embedding content_id content (set_now t' w1) = (Ok e, w2).
Proof.
  intros Hc Hs Hf Hne He.
  eexists. split.
  { rewrite (get_content_embedding_fresh content_id c w Hc Hs Hf Hne), He.
    reflexivity. }
  intros content t'. rewrite (save_content_embedding_world content_id e w Hf).
  match goal with |- context [get_content_embedding _ _ ?x] => set (w1 := x) end.
  assert (w_cache_times w1 !! _cache_key "content_emb" (Py.str content_id)
          = Some (w_now w)) as Ht by (simpl; apply lookup_insert_eq).
  assert (w_cache w1 !! _cache_key "content_emb" (Py.str content_id)
          = Some (CEmb e)) as Hce by (simpl; apply lookup_insert_eq).
  destruct (Rlt_dec (t' - w_now w) (IZR CACHE_TTL)) as [Hfresh|Hold].
  - exists w1. eapply get_content_embedding_cached; eassumption.
  - unfold get_content_embedding, bind.
    rewrite (is_cached_expired _ w1 (w_now w) Ht) by (simpl; lra).
    unfold try_except, bind, store_call, gets, cache_write, modify, ret.
    simpl. rewrite Hf. simpl. rewrite lookup_insert_eq. simpl.
    eexists. reflexivity.
Qed.

(** X10. When a content id is neither cached nor stored and no record (or
    an empty one) comes with the call -- the learning route passes none --
    [get_content_embedding] returns the next random vector and keeps it
    nowhere: the cache and the tables are as before, only the generator
    has advanced, so that the next call for the same id draws another
    vector. *)
Theorem random_fallback_not_kept content_id content w :
  w_cache_times w !! _cache_key "content_emb" (Py.str content_id) = None ->
  content_embeddings (w_store w) !! Py.str content_id = None ->
  content = None \/ content = Some ∅ ->
  exists w',
    get_content_embedding content_id content w
    = (Ok (Np.scale (sqrt (2 / INR EMBEDDING_DIM))
                    (fst (randn_array EMBEDDING_DIM (w_rng w)))), w')
    /\ w_cache w' = w_cache w /\ w_cache_times w' = w_cache_times w
    /\ w_store w' = w_store w
    /\ w_rng w' = snd (randn_array EMBEDDING_DIM (w_rng w)).
Proof.
  intros Hc Hs Hcontent.
  unfold get_content_embedding, bind, _is_cached. rewrite Hc.
  unfold try_except, bind, store_call, gets, ret.
  destruct Hcontent as [->| ->];
    destruct (w_faults w) as [|[|] fs]; simpl; rewrite ?Hs; simpl;
    rewrite ?decide_True by reflexivity;
    rewrite create_random_embedding_value; simpl;
    eexists; (split; [reflexivity|]); simpl; auto.
Qed.

End ReadBack.

(** ** Listings and follows on a cache miss *)

Section Misses.

Context {RT : Runtime}.

Lemma following_ids_all items :
  Forall (fun item : record => is_Some (item !! "followingId")) items ->
  following_ids items = Ok (omap (fun item : record => item !! "followingId") items).
Proof.
  induction 1 as [|item items [v Hv] _ IH]; [reflexivity|].
  simpl. rewrite Hv, IH. reflexivity.
Qed.

Lemma following_ids_missing items :
  Exists (fun item : record => item !! "followingId" = None) items ->
  following_ids items = Raise KeyError.
Proof.
  induction 1 as [item items Hv|item items _ IH]; simpl.
  - rewrite Hv. reflexivity.
  - destruct (item !! "followingId"); [|reflexivity]. rewrite IH. reflexivity.
Qed.

Lemma following_ids_length (items : list record) :
  Forall (fun item : record => is_Some (item !! "followingId")) items ->
  length (omap (fun item : record => item !! "followingId") items) = length items.
Proof.
  induction 1 as [|item items [v Hv] _ IH]; [reflexivity|].
  simpl. rewrite Hv. simpl. f_equal. exact IH.
Qed.

(** X11. On a cache miss with the store reachable, [get_user_follows]
    returns and caches the [followingId] of every item of the user, in the
    order of the response; but a single item without that key makes it
    return the empty list and cache nothing, as a failed call to the store
    does. *)
Theorem get_user_follows_all_or_nothing user_id w :
  ~ fresh (_cache_key "follows" user_id) w ->
  let items := default [] (follows (w_store w) !! user_id) in
  let ids := omap (fun item : record => item !! "followingId") items in
  (next_call_fails w = false ->
   Forall (fun item : record => is_Some (item !! "followingId")) items ->
   exists w',
     get_user_follows user_id w = (Ok ids, w')
     /\ length ids = length items
     /\ w_cache w' !! _cache_key "follows" user_id = Some (CIds ids)
     /\ w_cache_times w' !! _cache_key "follows" user_id = Some (w_now w))
  /\ (next_call_fails w = true
      \/ Exists (fun item : record => item !! "followingId" = None) items ->
      exists w',
        get_user_follows user_id w = (Ok [], w')
        /\ w_cache w' = w_cache w /\ w_cache_times w' = w_cache_times w).
Proof.
  intros Hmiss items ids.
  unfold get_user_follows, bind. rewrite (is_cached_not_fresh _ _ Hmiss).
  unfold try_except, bind, store_call, gets, lift, cache_write, modify, ret,
    next_call_fails.
  split.
  - intros Hf Hall. fold items.
    assert (length ids = length items) as Hlen
      by (apply following_ids_length, Hall).
    destruct (w_faults w) as [|[|] fs]; try discriminate; simpl; fold items;
      rewrite (following_ids_all items Hall); simpl;
      eexists; (split; [reflexivity|]); simpl; rewrite !lookup_insert_eq; auto.
  - intros [Hf|Hbad].
    + destruct (w_faults w) as [|[|] fs]; try discriminate; simpl.
      eexists; split; [reflexivity|]; auto.
    + destruct (w_faults w) as [|[|] fs]; simpl; fold items;
        rewrite ?(following_ids_missing items Hbad);
        eexists; (split; [reflexivity|]); auto.
Qed.

Lemma listing_fetch_unfold x :
  listing_fetch x = scan_cached (listing_key x) (listing_table x) (listing_limit x).
Proof. destruct x; reflexivity. Qed.

(** X12. On a cache miss a listing is scanned from its table: at most 500
    posts, at most 200 videos, each item a new object. A failed scan
    returns the empty list and caches nothing, so the next call scans
    again. A scan that went through is cached, also when it is empty, and
    is then served unchanged while the entry is fresh, whatever the table
    holds by then. *)
Theorem listing_scanned_then_served x w :
  ~ fresh (listing_key x) w ->
  (next_call_fails w = true ->
   exists w',
     listing_fetch x w = (Ok [], w')
     /\ w_cache w' = w_cache w /\ w_cache_times w' = w_cache_times w
     /\ w_heap w' = w_heap w)
  /\ (next_call_fails w = false ->
      let items := take (listing_limit x) (listing_table x (w_store w)) in
      exists ls w',
        listing_fetch x w = (Ok ls, w')
        /\ (length ls <= listing_limit x)%nat
        /\ w_heap w' = w_heap w ++ items
        /\ Forall2 (fun (l : nat) item => w_heap w' !! l = Some item) ls items
        /\ forall s' t',
             t' - w_now w < IZR CACHE_TTL ->
             let w2 := set_now t' (set_store s' w') in
             listing_fetch x w2 = (Ok ls, w2)).
Proof.
  intros Hmiss. rewrite listing_fetch_unfold.
  unfold scan_cached at 1 2, bind. rewrite (is_cached_not_fresh _ _ Hmiss).
  unfold try_except, bind, store_call, gets, alloc_all, cache_write, modify, ret,
    next_call_fails.
  split; intros Hf.
  - destruct (w_faults w) as [|[|] fs]; try discriminate; simpl.
    eexists. split; [reflexivity|]. auto.
  - set (items := take (listing_limit x) (listing_table x (w_store w))).
    assert (Forall2 (fun (l : nat) item => (w_heap w ++ items) !! l = Some item)
              (seq (length (w_heap w)) (length items)) items) as Hitems.
    { apply Forall2_same_length_lookup_2.
      - rewrite length_seq. reflexivity.
      - intros i l item Hl Hi. apply lookup_seq in Hl as [-> _].
        rewrite lookup_app_r by lia.
        replace (length (w_heap w) + i - length (w_heap w))%nat with i by lia.
        exact Hi. }
    assert (length (seq (length (w_heap w)) (length items)) <= listing_limit x)%nat
      as Hlen.
    { rewrite length_seq. unfold items. rewrite length_take. lia. }
    destruct (w_faults w) as [|[|] fs]; try discriminate; simpl; fold items;
      (eexists _, _; split; [reflexivity|]; split; [exact Hlen|];
       split; [reflexivity|]; split; [exact Hitems|];
       intros s' t' Ht; simpl;
       eapply scan_cached_hit; simpl;
       [apply lookup_insert_eq|exact Ht|apply lookup_insert_eq]).
Qed.

End Misses.

(** ** The type and time blocks of the feature vector *)

Section Blocks.

Context {RT : Runtime}.

Lemma create_content_embedding_low now (c : record) e :
  create_content_embedding now c = Ok e ->
  exists e1,
    length e1 = EMBEDDING_DIM
    /\ (forall j : nat, (5 <= j < EMBEDDING_DIM)%nat -> e1 !! j = Some 0)
    /\ forall j : nat, (j < 30)%nat ->
         e !! j = type_features c (time_features now c e1) !! j.
Proof.
  unfold create_content_embedding, hash_features.
  destruct (counter c "likes" "likeCount" 0) as [likes|]; [|discriminate].
  destruct (counter c "viewCount" "views" 1) as [views|]; [|discriminate].
  destruct (counter c "commentsCount" "commentCount" 0) as [comments|];
    [|discriminate].
  destruct (counter1 c "shares") as [shares|]; [|discriminate].
  generalize (engagement_features_length likes views comments shares).
  generalize (engagement_features_rest likes views comments shares).
  generalize (engagement_features likes views comments shares) as e1.
  intros e1 Hrest Hlen.
  destruct (Py.truthy (content_id_of c)).
  - destruct (content_id_of c) as [| |s]; intros H;
      [discriminate H|discriminate H|].
    apply Ok_inj in H. subst e. exists e1. split; [exact Hlen|].
    split; [exact Hrest|]. intros j Hj. apply hash_fill_lookup_lt. exact Hj.
  - intros H. apply Ok_inj in H. subst e. exists e1. auto.
Qed.

Lemma set_slice_five (a0 a1 a2 a3 a4 : R) (e : list R) :
  (15 <= length e)%nat ->
  let e' := set_slice 10 [a0; a1; a2; a3; a4] e in
  e' !! 10%nat = Some a0 /\ e' !! 11%nat = Some a1 /\ e' !! 12%nat = Some a2
  /\ e' !! 13%nat = Some a3 /\ e' !! 14%nat = Some a4.
Proof.
  intros Hlen. simpl.
  repeat split; rewrite ?list_lookup_insert_ne by lia;
    apply list_lookup_insert_eq; rewrite ?length_insert; lia.
Qed.

(** X13. Whenever [create_content_embedding] returns, indices 10 to 14 of
    the vector are a one-hot code of [mediaType]: index 10 for
    ['video'], index 11 for ['image'], index 12 for every other value and
    for a record without the field, indices 13 and 14 always 0. Indices 5
    to 7 hold the week-long recency decay, the hour over 24 and the weekday
    over 7 of a parseable [createdAt], and 0 without one. *)
Theorem content_embedding_type_and_time now (content : record) e :
  create_content_embedding now content = Ok e ->
  let media := Py.get content "mediaType" (PStr "text") in
  let slot : nat := if decide (media = PStr "video") then 10%nat
                    else if decide (media = PStr "image") then 11%nat else 12%nat in
  (forall j : nat, (10 <= j < 15)%nat ->
                   e !! j = Some (if decide (j = slot) then 1 else 0))
  /\ match created_of content with
     | Some created_dt =>
         e !! 5%nat = Some (Rmax 0 (1 - hours_old now created_dt / 168))
         /\ e !! 6%nat = Some (IZR (dt_hour created_dt) / 24)
         /\ e !! 7%nat = Some (IZR (dt_weekday created_dt) / 7)
     | None => e !! 5%nat = Some 0 /\ e !! 6%nat = Some 0 /\ e !! 7%nat = Some 0
     end.
Proof.
  intros He media slot.
  destruct (create_content_embedding_low now content e He)
    as (e1 & Hlen & Hrest & Hlow).
  unfold EMBEDDING_DIM in *.
  split.
  - intros j Hj. rewrite Hlow by lia.
    assert (15 <= length (time_features now content e1))%nat as Hl
      by (rewrite time_features_length; lia).
    unfold type_features. fold media. subst slot.
    destruct (decide (media = PStr "video")).
    + destruct (set_slice_five 1 0 0 0 0 _ Hl) as (H10 & H11 & H12 & H13 & H14).
      assert (j = 10 \/ j = 11 \/ j = 12 \/ j = 13 \/ j = 14)%nat
        as [->|[->|[->|[->| ->]]]] by lia; assumption.
    + destruct (decide (media = PStr "image")).
      * destruct (set_slice_five 0 1 0 0 0 _ Hl) as (H10 & H11 & H12 & H13 & H14).
        assert (j = 10 \/ j = 11 \/ j = 12 \/ j = 13 \/ j = 14)%nat
          as [->|[->|[->|[->| ->]]]] by lia; assumption.
      * destruct (set_slice_five 0 0 1 0 0 _ Hl) as (H10 & H11 & H12 & H13 & H14).
        assert (j = 10 \/ j = 11 \/ j = 12 \/ j = 13 \/ j = 14)%nat
          as [->|[->|[->|[->| ->]]]] by lia; assumption.
  - rewrite !Hlow by lia.
    rewrite !type_features_lookup_out by lia.
    unfold time_features. destruct (created_of content) as [d|].
    + repeat split; rewrite ?list_lookup_insert_ne by lia;
        apply list_lookup_insert_eq; rewrite ?length_insert; lia.
    + repeat split; apply Hrest; lia.
Qed.

End Blocks.

(** ** Events of an unknown type *)

Lemma step_towards_zero (u t : list R) :
  length u = length t -> step_towards 0 u t = u.
Proof.
  revert t. induction u as [|x u IH]; intros [|y t] Hl; try discriminate;
    [reflexivity|].
  unfold step_towards in *. simpl. f_equal; [lra|]. apply IH. simpl in Hl. lia.
Qed.

Lemma action_weight_unknown (a : Z) : (a < 0 \/ 7 < a)%Z -> action_weight a = 0.
Proof.
  intros Ha. unfold action_weight.
  destruct a as [|p|p]; [lia| |reflexivity].
  destruct p as [[[p|p|]|[p|p|]|]|[[p|p|]|[p|p|]|]|]; try reflexivity; lia.
Qed.


(** ** The range of a score *)

Section ScoreRange.

Context {RT : Runtime}.

Lemma engagement_boost_range likes views comments :
  engagement_boost likes views comments <= 20
  /\ ((0 <= likes)%Z -> (0 <= comments)%Z ->
      0 <= engagement_boost likes views comments).
Proof.
  unfold engagement_boost. split; [apply Rmin_r|].
  intros Hl Hc. apply Rmin_glb; [|lra].
  assert (0 <= IZR (likes * 2 + comments * 3)) by (apply IZR_le; lia).
  assert (1 <= IZR (Z.max views 1)) by (apply IZR_le; lia).
  apply Rmult_le_pos; [|lra].
  apply Rmult_le_pos; [assumption|].
  left. apply Rinv_0_lt_compat. lra.
Qed.

Lemma recency_boost_range now (content : record) :
  0 <= recency_boost now content
  /\ ((forall d, created_of content = Some d -> dt_instant d <= now) ->
      recency_boost now content <= 15).
Proof.
  unfold recency_boost. destruct (created_of content) as [d|]; [|split; intros; lra].
  split; [apply Rmax_l|].
  intros Hd. specialize (Hd d eq_refl). unfold hours_old.
  apply Rmax_lub; lra.
Qed.


End ScoreRange.

(** ** The preferences computed from the behaviour history *)

Section Preferences.

Context {RT : Runtime} {FP : FloatParser}.

Lemma add_score_lookup k x (d : gmap pyval R) k' :
  default 0 (RecommendationEngine.add_score k x d !! k')
  = default 0 (d !! k') + (if decide (k = k') then x else 0).
Proof.
  unfold RecommendationEngine.add_score. destruct (decide (k = k')) as [<-|Hne].
  - rewrite lookup_insert_eq. reflexivity.
  - rewrite lookup_insert_ne by assumption. lra.
Qed.

Lemma add_score_is_Some k x (d : gmap pyval R) k' :
  is_Some (RecommendationEngine.add_score k x d !! k') <-> k = k' \/ is_Some (d !! k').
Proof.
  unfold RecommendationEngine.add_score. destruct (decide (k = k')) as [<-|Hne].
  - rewrite lookup_insert_eq. split; eauto.
  - rewrite lookup_insert_ne by assumption. tauto.
Qed.

Lemma tally_item_ok item acc acc' :
  RecommendationEngine.tally_item item acc = Ok acc' ->
  (forall k, is_Some (Production.pref_active_hours acc' !! k) ->
             is_Some (Production.pref_active_hours acc !! k) \/ exists z, k = PInt z)
  /\ (forall k, is_Some (Production.pref_content acc' !! k) <->
                Py.get item "contentId" (PStr "") = k
                \/ is_Some (Production.pref_content acc !! k))
  /\ (forall k, default 0 (Production.pref_content acc' !! k)
                = default 0 (Production.pref_content acc !! k)
                  + (if decide (Py.get item "contentId" (PStr "") = k)
                     then item_content_score item else 0)).
Proof.
  unfold RecommendationEngine.tally_item, item_content_score.
  destruct (Py.int (Py.get item "actionType" (PInt 0))) as [action|];
    [|discriminate].
  destruct (Py.int (Py.get item "hour" (PInt 12))) as [hour|]; [|discriminate].
  destruct (RecommendationEngine.float (Py.get item "watchTime" (PInt 0)))
    as [watch_time|]; [|discriminate].
  intros H. apply Ok_inj in H. subst acc'. simpl.
  split; [|split].
  - intros k. unfold RecommendationEngine.add_one.
    destruct (decide (PInt hour = k)) as [<-|Hne]; [eauto|].
    rewrite lookup_insert_ne by assumption. auto.
  - intros k. destruct (Rlt_dec 0 watch_time);
      rewrite ?add_score_is_Some; tauto.
  - intros k. destruct (Rlt_dec 0 watch_time);
      rewrite ?add_score_lookup;
      destruct (decide (Py.get item "contentId" (PStr "") = k)); lra.
Qed.

Lemma tally_ok behavior acc acc' :
  RecommendationEngine.tally behavior acc = Ok acc' ->
  (forall k, is_Some (Production.pref_active_hours acc' !! k) ->
             is_Some (Production.pref_active_hours acc !! k) \/ exists z, k = PInt z)
  /\ (forall k, is_Some (Production.pref_content acc' !! k) <->
                (exists item, item ∈ behavior
                              /\ Py.get item "contentId" (PStr "") = k)
                \/ is_Some (Production.pref_content acc !! k))
  /\ (forall k, default 0 (Production.pref_content acc' !! k)
                = default 0 (Production.pref_content acc !! k)
                  + content_total k behavior).
Proof.
  revert acc. induction behavior as [|item rest IH]; intros acc Hrun;
    simpl in Hrun.
  - apply Ok_inj in Hrun. subst acc'. split; [auto|]. split.
    + intros k. split; [auto|]. intros [(item & Hin & _)|H]; [|exact H].
      inversion Hin.
    + intros k. simpl. lra.
  - destruct (RecommendationEngine.tally_item item acc) as [acc1|] eqn:Hitem;
      [|discriminate].
    destruct (tally_item_ok _ _ _ Hitem) as (Hh1 & Hc1 & Hs1).
    destruct (IH _ Hrun) as (Hh & Hc & Hs).
    split; [|split].
    + intros k Hk. destruct (Hh k Hk) as [H|H]; auto.
    + intros k. rewrite Hc, Hc1. split.
      * intros [(it & Hin & Hit)|[Hit|H]]; auto.
        -- left. exists it. split; [right; exact Hin|exact Hit].
        -- left. exists item. split; [left|exact Hit].
      * intros [(it & Hin & Hit)|H]; auto.
        apply elem_of_cons in Hin as [->|Hin]; auto.
        left. exists it. auto.
    + intros k. rewrite Hs, Hs1. simpl. lra.
Qed.

(** X16. [compute_user_preferences] files the active hours under the
    integers that [int(item.get('hour', 12))] gives, while the scoring
    looks the current hour up as a string: for preferences that
    [compute_user_preferences] returned, the five points for an active hour
    are never given, at whatever time. *)
Theorem active_hour_bonus_never_given behavior prefs n :
  RecommendationEngine.compute_user_preferences behavior = Ok (prefs, n) ->
  (forall k, is_Some (Production.pref_active_hours prefs !! k) -> exists z, k = PInt z)
  /\ forall now, Production.hour_boost now prefs = 0.
Proof.
  unfold RecommendationEngine.compute_user_preferences.
  destruct (RecommendationEngine.tally behavior _) as [acc|] eqn:Hrun;
    [|discriminate].
  intros H. apply Ok_inj in H. injection H as -> _.
  destruct (tally_ok _ _ _ Hrun) as (Hh & _).
  assert (forall k, is_Some (Production.pref_active_hours prefs !! k) ->
                    exists z, k = PInt z) as Hkeys.
  { intros k Hk. destruct (Hh k Hk) as [H|H]; [|exact H].
    simpl in H. rewrite lookup_empty in H. destruct H; discriminate. }
  split; [exact Hkeys|].
  intros now. unfold Production.hour_boost.
  destruct (Production.pref_active_hours prefs !! PStr (pretty (local_hour now)))
    as [z|] eqn:Hz; [|reflexivity].
  destruct (Hkeys _ (mk_is_Some _ _ Hz)) as (z' & Hbad). discriminate.
Qed.

(** X17. For preferences that [compute_user_preferences] returned, a
    candidate is charged the ten points for content already seen exactly
    when some item of the history carries its id as [contentId], whatever
    the action was, a skip or an unlike included; the count returned is
    the length of the history. *)
Theorem seen_penalty_iff_in_history behavior prefs n content_id :
  RecommendationEngine.compute_user_preferences behavior = Ok (prefs, n) ->
  n = length behavior
  /\ (Production.seen_penalty prefs content_id = 10 <->
      exists item, item ∈ behavior
                   /\ Py.get item "contentId" (PStr "") = content_id)
  /\ (Production.seen_penalty prefs content_id = 0 <->
      ~ exists item, item ∈ behavior
                     /\ Py.get item "contentId" (PStr "") = content_id).
Proof.
  unfold RecommendationEngine.compute_user_preferences.
  destruct (RecommendationEngine.tally behavior _) as [acc|] eqn:Hrun;
    [|discriminate].
  intros H. apply Ok_inj in H. injection H as -> <-.
  destruct (tally_ok _ _ _ Hrun) as (_ & Hc & _).
  split; [reflexivity|].
  assert (is_Some (Production.pref_content prefs !! content_id) <->
          exists item, item ∈ behavior
                       /\ Py.get item "contentId" (PStr "") = content_id) as Hiff.
  { rewrite Hc. simpl. rewrite lookup_empty. split; [|auto].
    intros [H|H]; [exact H|]. destruct H; discriminate. }
  unfold Production.seen_penalty.
  destruct (decide (is_Some (Production.pref_content prefs !! content_id)))
    as [Hs|Hs].
  - split; split; intros; try lra; tauto.
  - split; split; intros; try lra; tauto.
Qed.

(** X18. The preference score that [compute_user_preferences] returns for
    a content id is the sum, over the items of the history that name it,
    of the weight of the action plus the watch-time bonus
    [min(watchTime/60, 1) * 2] of the items with a positive watch time;
    items that name other content do not enter it. *)
Theorem content_score_is_sum behavior prefs n content_id :
  RecommendationEngine.compute_user_preferences behavior = Ok (prefs, n) ->
  default 0 (Production.pref_content prefs !! content_id)
  = content_total content_id behavior.
Proof.
  unfold RecommendationEngine.compute_user_preferences.
  destruct (RecommendationEngine.tally behavior _) as [acc|] eqn:Hrun;
    [|discriminate].
  intros H. apply Ok_inj in H. injection H as -> _.
  destruct (tally_ok _ _ _ Hrun) as (_ & _ & Hs).
  rewrite Hs. simpl. rewrite lookup_empty. simpl. lra.
Qed.

End Preferences.

(** ** The ranking of [server_production.py] *)

Section ProductionRanking.

Context {RT : Runtime} {BT : BehaviorTable} {FP : FloatParser}.

Lemma preserves_production_score_content {X} (f : world -> X) (c : record)
    prefs following :
  frame_field f -> preserves f (Production.score_content c prefs following).
Proof. intros Hf. unfold Production.score_content. repeat frame_step. Qed.

Lemma production_score_entry_ok prefs following l w r w' :
  RecommendationEngine.score_entry prefs following l w = (Ok r, w') ->
  exists c, w_heap w !! l = Some c
            /\ r_creatorId r
               = Py.or (Py.get c "userId" PNone) (Py.get c "creatorId" PNone)
            /\ w_heap w' = w_heap w.
Proof.
  unfold RecommendationEngine.score_entry. intros Hrun.
  apply bind_ok in Hrun as (c & w0 & Hc & Hrun).
  apply heap_read_ok in Hc as [Hc ->].
  apply bind_ok in Hrun as (sc & w1 & Hsc & Hrun).
  apply ret_ok in Hrun as [<- <-].
  exists c. split; [exact Hc|]. split; [reflexivity|].
  pose proof (preserves_production_score_content w_heap c prefs following
                heap_frame w) as H.
  rewrite Hsc in H. exact H.
Qed.

Lemma production_mapM_score_entry user_id prefs following ls w scored w' :
  mapM (RecommendationEngine.score_entry prefs following) ls w = (Ok scored, w') ->
  Forall (fun l => exists c, w_heap w !! l = Some c /\ not_own user_id c = true) ls ->
  Forall (fun r => r_creatorId r <> PStr user_id) scored
  /\ length scored = length ls.
Proof.
  revert w scored w'. induction ls as [|l ls IH]; intros w scored w' Hrun Hall;
    simpl in Hrun.
  - apply ret_ok in Hrun as [<- <-]. split; [constructor|reflexivity].
  - apply bind_ok in Hrun as (r & w1 & Hr & Hrun).
    apply bind_ok in Hrun as (rs & w2 & Hrs & Hrun).
    apply ret_ok in Hrun as [<- <-].
    apply Forall_cons in Hall as [(c & Hc & Hown) Hall].
    apply production_score_entry_ok in Hr as (c' & Hc' & Hcreator & Hheap).
    rewrite Hc in Hc'. injection Hc' as <-.
    destruct (IH w1 rs w2 Hrs) as [Hrest Hlen].
    { rewrite Hheap. exact Hall. }
    split; [|simpl; now rewrite Hlen].
    constructor; [|exact Hrest].
    rewrite Hcreator. apply not_own_creator, Hown.
Qed.

Lemma slice_to_take {A} (l : list A) (n : Z) : exists k, Py.slice_to l n = take k l.
Proof. unfold Py.slice_to. destruct (0 <=? n)%Z; eauto. Qed.


End ProductionRanking.

(** ** The first vector after a restart *)

(** X20. The generator is seeded with 42 whenever a client is
    constructed, so when the first thing a new client is asked is the
    vector of a user the table does not know, the vector it creates is the
    same one after every restart: it does not depend on the user, on the
    tables, on the time or on whether the store could be reached during
    construction. *)
Theorem first_vector_same_after_restart {RT : Runtime} s1 faults1 now1 user_id1
    s2 faults2 now2 user_id2 :
  user_embeddings s1 !! user_id1 = None ->
  user_embeddings s2 !! user_id2 = None ->
  exists v w1 w2,
    get_user_embedding user_id1 (new_client s1 faults1 now1) = (Ok v, w1)
    /\ get_user_embedding user_id2 (new_client s2 faults2 now2) = (Ok v, w2)
    /\ v = Np.scale (sqrt (2 / INR EMBEDDING_DIM))
                    (fst (randn_array EMBEDDING_DIM (np_seed 42))).
Proof.
  intros H1 H2.
  destruct (new_client_fields s1 faults1 now1) as (_ & Ht1 & _ & Hs1 & _ & Hg1).
  destruct (new_client_fields s2 faults2 now2) as (_ & Ht2 & _ & Hs2 & _ & Hg2).
  destruct (get_user_embedding_create user_id1 (new_client s1 faults1 now1))
    as (w1 & Hrun1 & _).
  { rewrite Ht1. apply lookup_empty. }
  { rewrite Hs1. exact H1. }
  destruct (get_user_embedding_create user_id2 (new_client s2 faults2 now2))
    as (w2 & Hrun2 & _).
  { rewrite Ht2. apply lookup_empty. }
  { rewrite Hs2. exact H2. }
  rewrite Hg1 in Hrun1. rewrite Hg2 in Hrun2.
  eexists _, w1, w2. split; [exact Hrun1|]. split; [exact Hrun2|reflexivity].
Qed.

(** ** The hash block of the feature vector *)

Lemma byte_window_shift (h k : Z) :
  (0 <= k)%Z ->
  Z.land (Z.shiftr h (k + 1)) 255
  = (Z.land (Z.shiftr h k) 255 / 2 + 128 * Z.b2z (Z.testbit h (k + 8)))%Z.
Proof.
  intros Hk.
  replace (Z.testbit h (k + 8)) with (Z.testbit (Z.shiftr h k) 8)
    by (rewrite Z.shiftr_spec by lia; f_equal; lia).
  replace (Z.shiftr h (k + 1)) with (Z.shiftr (Z.shiftr h k) 1)
    by (rewrite Z.shiftr_shiftr by lia; reflexivity).
  generalize (Z.shiftr h k) as y. intros y.
  change 255%Z with (Z.ones 8). rewrite !Z.land_ones by lia.
  rewrite Z.shiftr_div_pow2 by lia.
  rewrite (Z.testbit_spec' y 8) by lia.
  change (2 ^ 8)%Z with 256%Z. change (2 ^ 1)%Z with 2%Z.
  pose proof (Z.mod_pos_bound (y / 256) 2 ltac:(lia)).
  assert (Z.b2z (Z.eqb ((y / 256) mod 2) 1) = (y / 256) mod 2)%Z as Hb.
  { destruct (Z.eqb_spec ((y / 256) mod 2) 1) as [-> | Hne]; simpl; lia. }
  replace (Z.b2z ((y / 256) mod 2 =? 1)%Z) with ((y / 256) mod 2)%Z.
  Z.div_mod_to_equations. lia.
Qed.

Section HashBlock.

Context {RT : Runtime}.

Lemma create_content_embedding_hash now (c : record) e s :
  create_content_embedding now c = Ok e ->
  content_id_of c = PStr s -> s <> "" ->
  forall j : nat, (30 <= j < EMBEDDING_DIM)%nat ->
    e !! j = Some (IZR (Z.land (Z.shiftr (md5_int s) (Z.of_nat (j - 30))) 255) / 255).
Proof.
  unfold create_content_embedding, hash_features.
  destruct (counter c "likes" "likeCount" 0) as [likes|]; [|discriminate].
  destruct (counter c "viewCount" "views" 1) as [views|]; [|discriminate].
  destruct (counter c "commentsCount" "commentCount" 0) as [comments|];
    [|discriminate].
  destruct (counter1 c "shares") as [shares|]; [|discriminate].
  generalize (engagement_features_length likes views comments shares).
  generalize (engagement_features likes views comments shares) as e1.
  intros e1 Hlen H Hid Hs. rewrite Hid in H.
  assert (Py.truthy (PStr s) = true) as Ht.
  { simpl. destruct (String.eqb_spec s ""); [contradiction|reflexivity]. }
  rewrite Ht in H. apply Ok_inj in H. subst e.
  intros j Hj. unfold EMBEDDING_DIM in *. apply hash_fill_lookup_in; [lia|].
  rewrite type_features_length, time_features_length. lia.
Qed.

(** X21. The hash block of a content with a non-empty string id is a
    window sliding over the md5 digest one bit at a time: entry [j] is the
    byte of the digest starting at bit [j - 30], over 255, so every entry
    after the first is half the byte before it, rounded down, with one new
    bit of the digest on top, so that two neighbours share seven of their
    eight bits. *)
Theorem hash_block_sliding_window now (content : record) e s :
  create_content_embedding now content = Ok e ->
  content_id_of content = PStr s -> s <> "" ->
  forall j : nat, (30 <= j < 63)%nat ->
    exists b b' : Z,
      e !! j = Some (IZR b / 255) /\ e !! S j = Some (IZR b' / 255)
      /\ (0 <= b < 256)%Z
      /\ b' = (b / 2 + 128 * Z.b2z (Z.testbit (md5_int s) (Z.of_nat (j - 22))))%Z.
Proof.
  intros He Hid Hs j Hj.
  pose proof (create_content_embedding_hash now content e s He Hid Hs) as Hh.
  unfold EMBEDDING_DIM in Hh.
  eexists _, _. split; [apply Hh; lia|]. split; [apply Hh; lia|].
  split.
  - change 255%Z with (Z.ones 8). rewrite Z.land_ones by lia.
    apply Z.mod_pos_bound. lia.
  - replace (Z.of_nat (S j - 30)) with (Z.of_nat (j - 30) + 1)%Z by lia.
    replace (Z.of_nat (j - 22)) with (Z.of_nat (j - 30) + 8)%Z by lia.
    apply byte_window_shift. lia.
Qed.

End HashBlock.

(** ** A request of [server_production.py] runs through *)

Section ProductionRequests.

Context {RT : Runtime} {BT : BehaviorTable} {FP : FloatParser}.

Variable G : record -> Prop.

Hypothesis G_tag : forall (r : record) k v,
  k = "_type" \/ k = "contentId" -> G r -> G (<[k := v]> r).

Hypothesis G_query : forall u now days limit,
  Forall G (query_behavior u now days limit).

Lemma wp_get_user_behavior L user_id days limit (Q : list loc -> world -> Prop)
    (E : world -> Prop) w :
  catalog_ok G L w ->
  (forall ls w', catalog_ok G (ls ++ L) w' -> Q ls w') ->
  wp (get_user_behavior user_id days limit) Q E w.
Proof.
  intros HI HQ. unfold get_user_behavior. apply wp_bind, wp_is_cached.
  - intros t Ht _.
    destruct (client_ok_read _ _ _ (catalog_ok_client _ _ _ HI) Ht)
      as (p & Hp & _ & _ & _ & _ & _ & H6).
    destruct (H6 _ eq_refl) as (ls & -> & Hls).
    apply wp_bind, wp_cache_read; [|congruence].
    intros p' Hp'. assert (p' = CItems ls) as -> by congruence.
    apply wp_ret, HQ, catalog_ok_add; assumption.
  - apply wp_try, wp_bind, wp_store_call_any.
    + intros fs. apply wp_bind, wp_gets, wp_bind, wp_alloc_all.
      simpl.
      set (items := query_behavior user_id (w_now w) days limit).
      assert (catalog_ok G (seq (length (w_heap w)) (length items) ++ L)
                (set_heap (w_heap w ++ items) (set_faults fs w))) as HI'.
      { apply (catalog_ok_alloc G L items (set_faults fs w)).
        - apply catalog_ok_faults, HI.
        - apply G_query. }
      apply wp_bind, wp_cache_write, wp_ret, HQ.
      apply catalog_ok_cache; [exact HI'| |apply key_not_bare; tauto].
      apply fits_items; [tauto|]. exact (catalog_ok_listed _ _ _ _ HI').
    + intros fs. apply wp_ret, HQ. apply (catalog_ok_faults G L fs w HI).
Qed.

Lemma wp_mapM_heap_read L ls (Q : list record -> world -> Prop)
    (E : world -> Prop) w :
  catalog_ok G L w -> ls ⊆ L ->
  (forall items, Forall G items -> Q items w) ->
  wp (mapM heap_read ls) Q E w.
Proof.
  intros HI. revert Q. induction ls as [|l ls IH]; intros Q Hsub HQ.
  - apply wp_ret, HQ, Forall_nil_2.
  - assert (l ∈ L) as Hl by (apply Hsub; left).
    assert (ls ⊆ L) as Hrest by (intros l' Hl'; apply Hsub; right; exact Hl').
    assert (l < length (w_heap w))%nat as Hlt.
    { destruct HI as (_ & _ & _ & _ & H5). rewrite Forall_forall in H5. auto. }
    destruct (lookup_lt_is_Some_2 _ _ Hlt) as [r Hr].
    simpl. apply wp_bind, wp_heap_read; [|congruence].
    intros c Hc.
    assert (G c) as HG.
    { destruct HI as (_ & H2 & _). rewrite Forall_lookup in H2. eauto. }
    apply wp_bind. apply IH; [exact Hrest|].
    intros items Hitems. apply wp_ret, HQ. apply Forall_cons_2; assumption.
Qed.

Lemma tally_item_total item acc :
  history_ok item -> exists acc', RecommendationEngine.tally_item item acc = Ok acc'.
Proof.
  intros ((a & Ha) & (h & Hh) & (x & Hx)).
  unfold RecommendationEngine.tally_item. rewrite Ha, Hh, Hx. eauto.
Qed.

Lemma tally_raise behavior acc e :
  RecommendationEngine.tally behavior acc = Raise e ->
  exists item, item ∈ behavior /\ ~ history_ok item.
Proof.
  revert acc. induction behavior as [|item rest IH]; intros acc Hrun;
    simpl in Hrun; [discriminate|].
  destruct (RecommendationEngine.tally_item item acc) as [acc1|x] eqn:Hitem.
  - destruct (IH _ Hrun) as (it & Hin & Hbad).
    exists it. split; [right; exact Hin|exact Hbad].
  - exists item. split; [left|]. intros Hok.
    destruct (tally_item_total item acc Hok) as (acc' & Hacc). congruence.
Qed.

Lemma wp_production_score_content L (c : record) prefs following
    (Q : R -> world -> Prop) (E : world -> Prop) w :
  catalog_ok G L w ->
  (forall s w', catalog_ok G L w' -> Q s w') ->
  (forall w', catalog_ok G L w' -> ~ record_ok c -> E w') ->
  wp (Production.score_content c prefs following) Q E w.
Proof.
  intros HI HQ HE. unfold Production.score_content.
  apply wp_bind, wp_lift.
  2:{ intros e He. apply HE; [exact HI|]. intros ((z & Hz) & _). congruence. }
  intros likes _. apply wp_bind, wp_lift.
  2:{ intros e He. apply HE; [exact HI|].
      intros (_ & (z & Hz) & _). congruence. }
  intros views _. apply wp_bind, wp_lift.
  2:{ intros e He. apply HE; [exact HI|].
      intros (_ & _ & (z & Hz) & _). congruence. }
  intros comments _. apply wp_bind, wp_lift.
  2:{ intros e He. apply HE; [exact HI|].
      intros (_ & _ & _ & (z & Hz) & _). congruence. }
  intros shares _. apply wp_bind, wp_gets, wp_bind, wp_np_random.
  intros x g. apply wp_ret, HQ, catalog_ok_rng, HI.
Qed.

Lemma wp_production_mapM_score_entry L prefs following ls
    (Q : list recommendation -> world -> Prop) (E : world -> Prop) w :
  catalog_ok G L w -> ls ⊆ L ->
  (forall rs w', catalog_ok G L w' -> length rs = length ls -> Q rs w') ->
  (forall w', catalog_ok G L w' -> (exists c, G c /\ ~ record_ok c) -> E w') ->
  wp (mapM (RecommendationEngine.score_entry prefs following) ls) Q E w.
Proof.
  intros HI Hsub HQ HE. revert w Q HI HQ.
  induction ls as [|l ls IH]; intros w Q HI HQ.
  - apply wp_ret, HQ; [exact HI|reflexivity].
  - assert (l ∈ L) as Hl by (apply Hsub; left).
    assert (ls ⊆ L) as Hrest by (intros l' Hl'; apply Hsub; right; exact Hl').
    assert (l < length (w_heap w))%nat as Hlt.
    { destruct HI as (_ & _ & _ & _ & H5). rewrite Forall_forall in H5. auto. }
    destruct (lookup_lt_is_Some_2 _ _ Hlt) as [r Hr].
    simpl. apply wp_bind. unfold RecommendationEngine.score_entry at 1.
    apply wp_bind, wp_heap_read; [|congruence].
    intros c Hc.
    assert (G c) as HG.
    { destruct HI as (_ & H2 & _). rewrite Forall_lookup in H2. eauto. }
    apply wp_bind. apply (wp_production_score_content L); [exact HI| |].
    2:{ intros w' HI' Hbad. apply HE; eauto. }
    intros s w1 HI1. apply wp_ret, wp_bind. apply IH; [exact Hrest|exact HI1|].
    intros rs w2 HI2 Hlen. apply wp_ret, HQ; [exact HI2|].
    simpl. congruence.
Qed.

Lemma wp_production_get_recommendations user_id limit content_type
    (Q : list recommendation -> world -> Prop) (E : world -> Prop) w :
  catalog_ok G [] w ->
  (forall recs w', catalog_ok G [] w' -> Q recs w') ->
  (forall w', catalog_ok G [] w' -> (exists c, G c /\ ~ readable c) -> E w') ->
  wp (RecommendationEngine.get_recommendations user_id limit content_type) Q E w.
Proof.
  intros HI HQ HE. unfold RecommendationEngine.get_recommendations.
  assert (forall L w', catalog_ok G L w' -> catalog_ok G [] w') as Hdrop.
  { intros L w' H. eapply catalog_ok_sub; [exact H|]. intros l Hl. inversion Hl. }
  apply wp_bind. apply (wp_get_user_behavior []); [exact HI|].
  intros behavior w1 HI1.
  apply wp_bind. apply (wp_get_user_follows G (behavior ++ [])); [exact HI1|].
  intros following w2 HI2.
  apply wp_bind. apply (wp_mapM_heap_read (behavior ++ [])); [exact HI2| |].
  { intros l Hl. apply elem_of_app. auto. }
  intros items Hitems.
  apply wp_bind, wp_lift.
  2:{ intros e He. apply HE; [exact (Hdrop _ _ HI2)|].
      unfold RecommendationEngine.compute_user_preferences in He.
      destruct (RecommendationEngine.tally items _) as [acc|x] eqn:Hrun;
        [discriminate|].
      destruct (tally_raise _ _ _ Hrun) as (item & Hin & Hbad).
      exists item. split.
      - rewrite Forall_forall in Hitems. auto.
      - intros [_ Hh]. exact (Hbad Hh). }
  intros prefs _.
  apply wp_bind. apply (wp_gather_content G G_tag (behavior ++ [])); [exact HI2|].
  intros ls w3 HI3.
  apply wp_bind.
  apply (wp_filter_not_own G (ls ++ behavior ++ [])); [exact HI3| |].
  { intros l Hl. apply elem_of_app. auto. }
  intros cands Hcands.
  apply wp_bind.
  apply (wp_production_mapM_score_entry (ls ++ behavior ++ [])); [exact HI3| | |].
  - intros l Hl. apply elem_of_app. auto.
  - intros rs w4 HI4 _. apply wp_ret, HQ, (Hdrop _ _ HI4).
  - intros w4 HI4 (c & HG & Hbad). apply HE; [exact (Hdrop _ _ HI4)|].
    exists c. split; [exact HG|]. intros [Hr _]. exact (Hbad Hr).
Qed.

End ProductionRequests.

Section ProductionReturns.

Context {RT : Runtime} {BT : BehaviorTable} {FP : FloatParser}.

Lemma history_ok_tag (r : record) k v :
  k = "_type" \/ k = "contentId" -> history_ok r -> history_ok (<[k := v]> r).
Proof.
  intros Hk ((a & Ha) & (h & Hh) & (x & Hx)).
  unfold history_ok, Py.get in *.
  rewrite !lookup_insert_ne by (destruct Hk as [->| ->]; discriminate).
  repeat split; eauto.
Qed.

Lemma readable_tag (r : record) k v :
  k = "_type" \/ k = "contentId" -> readable r -> readable (<[k := v]> r).
Proof.
  intros Hk [H1 H2]. split; [apply record_ok_tag|apply history_ok_tag]; assumption.
Qed.


End ProductionReturns.

(** ** The further properties on the concrete environment *)

Lemma stored_dims_empty : stored_dims empty_store.
Proof. split; intros k v H; simpl in H; rewrite lookup_empty in H; discriminate. Qed.

Lemma client_ok_demo s faults now :
  stored_dims s -> client_ok (demo_world s faults now).
Proof. intros Hs. apply client_ok_empty; [reflexivity|reflexivity|exact Hs]. Qed.

Lemma not_fresh_demo k s faults now : ~ fresh k (demo_world s faults now).
Proof. intros (t & Ht & _). simpl in Ht. rewrite lookup_empty in Ht. discriminate. Qed.

Lemma record_ok_demo_new : record_ok demo_new.
Proof.
  repeat split; try (exists 0%Z; reflexivity); try (exists 1%Z; reflexivity).
  right. exists "p_new". reflexivity.
Qed.

Lemma record_ok_demo_old : record_ok demo_old.
Proof.
  repeat split; try (exists 0%Z; reflexivity); try (exists 1%Z; reflexivity).
  right. exists "p_old". reflexivity.
Qed.

Lemma demo_new_not_empty : demo_new <> ∅.
Proof.
  intros Hc. apply (f_equal (fun m : record => m !! "postId")) in Hc.
  discriminate Hc.
Qed.

Lemma client_order_kept_witness :
  client_ok (new_client (RT := demo_runtime) empty_store [true] 0)
  /\ client_ok (snd (get_recommendations (RT := demo_runtime) "u1" 20 "all"
                       (demo_world empty_store [] 0))).
Proof.
  destruct (client_order_kept (RT := demo_runtime) empty_store [true] 0
              (demo_world empty_store [] 0) "u1" "p_new" (PStr "p_new") None
              1 20 "all")
    as (H0 & _ & _ & _ & _ & _ & _ & H7).
  - exact stored_dims_empty.
  - apply client_ok_demo, stored_dims_empty.
  - split; assumption.
Defined.




Lemma embedding_counts_zero_witness :
  fst (get_embedding_counts
         (snd (get_user_embedding (RT := demo_runtime) "u1"
                 (demo_world empty_store [] 0))))
  = Ok (0%nat, 0%nat).
Proof.
  destruct (embedding_counts_zero (RT := demo_runtime) "u1" "p_new" 1 None
              (demo_world empty_store [] 0)) as (_ & H & _).
  - apply client_ok_demo, stored_dims_empty.
  - exact H.
Defined.

Lemma saved_vector_read_back_witness :
  let w1 := set_now 100 (snd (save_user_embedding (RT := demo_runtime) "u1"
                                demo_vector (demo_world empty_store [] 0))) in
  get_user_embedding "u1" w1 = (Ok demo_vector, w1).
Proof.
  apply (saved_vector_read_back (RT := demo_runtime) "u1" demo_vector
           (demo_world empty_store [] 0) 100).
  - reflexivity.
  - simpl. lra.
Defined.

(** A client whose entry for u1 is 300 seconds old, over a table that
    holds another vector for u1. *)
Lemma expired_entry_refetched_witness :
  let w := mk_world (RT := demo_runtime)
             {[ "user_emb:u1" := CEmb demo_averse ]} {[ "user_emb:u1" := 0 ]} []
             (mk_store {[ "u1" := demo_vector ]} ∅ [] [] ∅) [] 300 O true in
  exists w', get_user_embedding "u1" w = (Ok demo_vector, w')
             /\ w_cache w' !! "user_emb:u1" = Some (CEmb demo_vector).
Proof.
  intros w.
  destruct (expired_entry_refetched (RT := demo_runtime) "u1" w 0 demo_vector)
    as (w' & Hrun & Hc & _).
  - reflexivity.
  - simpl. lra.
  - reflexivity.
  - reflexivity.
  - exists w'. auto.
Defined.

Lemma failed_read_replaces_stored_vector_witness :
  let w := demo_world (mk_store {[ "u1" := demo_vector ]} ∅ [] [] ∅)
             [true; false] 0 in
  exists v w',
    get_user_embedding (RT := demo_runtime) "u1" w = (Ok v, w')
    /\ user_embeddings (w_store w) !! "u1" = Some demo_vector
    /\ user_embeddings (w_store w') !! "u1" = Some v
    /\ v = Np.scale (sqrt (2 / INR EMBEDDING_DIM))
                    (fst (randn_array (RT := demo_runtime) EMBEDDING_DIM O)).
Proof.
  intros w.
  destruct (failed_read_replaces_stored_vector (RT := demo_runtime) "u1" w [])
    as (w' & Hrun & Hs & _).
  - apply not_fresh_demo.
  - reflexivity.
  - eexists _, w'. split; [exact Hrun|]. split; [reflexivity|].
    split; [exact Hs|reflexivity].
Defined.

Lemma content_vector_frozen_witness :
  exists e w1,
    get_content_embedding (RT := demo_runtime) (PStr "p_new") (Some demo_new)
      (demo_world empty_store [] demo_now) = (Ok e, w1)
    /\ exists w2,
         get_content_embedding (PStr "p_new")
           (Some {[ "postId" := PStr "p_new"; "likes" := PInt 1000 ]})
           (set_now (demo_now + 86400) w1) = (Ok e, w2).
Proof.
  destruct (create_content_embedding_ok (RT := demo_runtime) demo_now demo_new
              0 1 0 0) as (e & He & _);
    try reflexivity; [right; exists "p_new"; reflexivity|].
  destruct (content_vector_frozen (RT := demo_runtime) (PStr "p_new") demo_new
              (demo_world empty_store [] demo_now) e) as (w1 & Hrun & Hlater).
  - reflexivity.
  - reflexivity.
  - reflexivity.
  - exact demo_new_not_empty.
  - exact He.
  - exists e, w1. split; [exact Hrun|]. apply Hlater.
Defined.

Lemma random_fallback_not_kept_witness :
  let w := demo_world empty_store [] 0 in
  exists v w',
    get_content_embedding (RT := demo_runtime) (PStr "p_new") None w = (Ok v, w')
    /\ w_cache w' = w_cache w /\ w_store w' = w_store w.
Proof.
  intros w.
  destruct (random_fallback_not_kept (RT := demo_runtime) (PStr "p_new") None w)
    as (w' & Hrun & Hc & _ & Hs & _).
  - reflexivity.
  - reflexivity.
  - left. reflexivity.
  - eexists _, w'. split; [exact Hrun|]. auto.
Defined.

(** A follow table in which the second item of u1 lacks the key. *)
Lemma get_user_follows_all_or_nothing_witness :
  let s := mk_store ∅ ∅ [] []
             {[ "u1" := [ ({[ "followingId" := PStr "u2" ]} : record); ∅ ] ]} in
  exists w',
    get_user_follows (RT := demo_runtime) "u1" (demo_world s [] 0) = (Ok [], w')
    /\ w_cache w' = ∅.
Proof.
  intros s.
  destruct (get_user_follows_all_or_nothing (RT := demo_runtime) "u1"
              (demo_world s [] 0) (not_fresh_demo _ _ _ _)) as [_ Hbad].
  destruct Hbad as (w' & Hrun & Hc & _).
  - right.
    assert (default [] (follows (w_store (demo_world s [] 0)) !! "u1")
            = [ ({[ "followingId" := PStr "u2" ]} : record); ∅ ]) as ->
      by reflexivity.
    apply Exists_cons_tl, Exists_cons_hd. reflexivity.
  - exists w'. split; [exact Hrun|exact Hc].
Defined.

Lemma listing_scanned_then_served_witness :
  let s := mk_store ∅ ∅ [demo_new] [] ∅ in
  (exists w', listing_fetch (RT := demo_runtime) Posts (demo_world s [true] 0)
              = (Ok [], w') /\ w_cache w' = ∅)
  /\ (exists ls w',
        listing_fetch (RT := demo_runtime) Posts (demo_world s [] 0) = (Ok ls, w')
        /\ w_heap w' = [demo_new]
        /\ listing_fetch Posts (set_now 299 (set_store empty_store w'))
           = (Ok ls, set_now 299 (set_store empty_store w'))).
Proof.
  intros s. split.
  - destruct (listing_scanned_then_served (RT := demo_runtime) Posts
                (demo_world s [true] 0) (not_fresh_demo _ _ _ _)) as [Hfail _].
    destruct (Hfail eq_refl) as (w' & Hrun & Hc & _).
    exists w'. split; [exact Hrun|exact Hc].
  - destruct (listing_scanned_then_served (RT := demo_runtime) Posts
                (demo_world s [] 0) (not_fresh_demo _ _ _ _)) as [_ Hok].
    destruct (Hok eq_refl) as (ls & w' & Hrun & _ & Hheap & _ & Hserved).
    exists ls, w'. split; [exact Hrun|]. split; [exact Hheap|].
    apply Hserved. simpl. lra.
Defined.

Lemma content_embedding_type_and_time_witness :
  exists e,
    create_content_embedding (RT := demo_runtime) demo_now demo_new = Ok e
    /\ e !! 12%nat = Some 1 /\ e !! 10%nat = Some 0
    /\ e !! 6%nat = Some (IZR 8 / 24).
Proof.
  destruct (create_content_embedding_ok (RT := demo_runtime) demo_now demo_new
              0 1 0 0) as (e & He & _);
    try reflexivity; [right; exists "p_new"; reflexivity|].
  destruct (content_embedding_type_and_time (RT := demo_runtime) demo_now demo_new
              e He) as [Htype Htime].
  exists e. split; [exact He|].
  split; [exact (Htype 12%nat ltac:(lia))|].
  split; [exact (Htype 10%nat ltac:(lia))|].
  destruct Htime as (_ & H6 & _). exact H6.
Defined.




Lemma demo_history_preferences :
  exists prefs,
    RecommendationEngine.compute_user_preferences (FP := demo_floats) demo_history
    = Ok (prefs, 1%nat).
Proof. eexists. reflexivity. Qed.

Lemma active_hour_bonus_never_given_witness :
  exists prefs,
    RecommendationEngine.compute_user_preferences (FP := demo_floats) demo_history
    = Ok (prefs, 1%nat)
    /\ Production.pref_active_hours prefs !! PInt 8 = Some 1%Z
    /\ Production.hour_boost (RT := demo_runtime) demo_now prefs = 0.
Proof.
  eexists. split; [reflexivity|]. split; [reflexivity|].
  refine (proj2 (active_hour_bonus_never_given (RT := demo_runtime)
                   (FP := demo_floats) demo_history _ 1%nat _) demo_now).
  reflexivity.
Defined.

Lemma seen_penalty_iff_in_history_witness :
  exists prefs,
    RecommendationEngine.compute_user_preferences (FP := demo_floats) demo_history
    = Ok (prefs, 1%nat)
    /\ (Production.seen_penalty prefs (PStr "p_new") = 10 <->
        exists item, item ∈ demo_history
                     /\ Py.get item "contentId" (PStr "") = PStr "p_new").
Proof.
  destruct demo_history_preferences as (prefs & Hp).
  exists prefs. split; [exact Hp|].
  exact (proj1 (proj2 (seen_penalty_iff_in_history (FP := demo_floats)
                         demo_history prefs 1%nat (PStr "p_new") Hp))).
Defined.

Lemma content_score_is_sum_witness :
  exists prefs,
    RecommendationEngine.compute_user_preferences (FP := demo_floats) demo_history
    = Ok (prefs, 1%nat)
    /\ default 0 (Production.pref_content prefs !! PStr "p_new")
       = content_total (FP := demo_floats) (PStr "p_new") demo_history.
Proof.
  destruct demo_history_preferences as (prefs & Hp).
  exists prefs. split; [exact Hp|].
  exact (content_score_is_sum (FP := demo_floats) demo_history prefs 1%nat
           (PStr "p_new") Hp).
Defined.

Lemma readable_demo_new : readable (FP := demo_floats) demo_new.
Proof.
  split; [exact record_ok_demo_new|].
  repeat split; [exists 0%Z|exists 12%Z|exists 0]; reflexivity.
Qed.

Lemma readable_demo_old : readable (FP := demo_floats) demo_old.
Proof.
  split; [exact record_ok_demo_old|].
  repeat split; [exists 0%Z|exists 12%Z|exists 0]; reflexivity.
Qed.

Lemma readable_demo_history n :
  Forall (readable (FP := demo_floats)) (take n demo_history).
Proof.
  apply Forall_take. apply Forall_cons_2; [|apply Forall_nil_2].
  split.
  - repeat split; try (exists 0%Z; reflexivity); try (exists 1%Z; reflexivity).
    left. reflexivity.
  - repeat split; [exists 1%Z|exists 8%Z|exists 30]; reflexivity.
Qed.

(** The production engine over a post table with the two candidates and
    the one-item history. *)
Lemma demo_production_run :
  let s := mk_store ∅ ∅ [demo_new; demo_old] [] ∅ in
  exists recs w',
    RecommendationEngine.get_recommendations (RT := demo_runtime)
      (BT := demo_behavior) (FP := demo_floats) "u2" 20 "all"
      (demo_world s [] demo_now) = (Ok recs, w') /\ client_ok w'.
Proof.
  intros s. apply wp_run.
  apply (wp_production_get_recommendations (RT := demo_runtime)
           (BT := demo_behavior) (FP := demo_floats) readable readable_tag
           (fun _ _ _ n => readable_demo_history n)).
  - split; [|repeat split].
    + apply client_ok_demo. split; intros k v H; simpl in H;
        rewrite lookup_empty in H; discriminate.
    + apply Forall_nil_2.
    + apply Forall_cons_2; [exact readable_demo_new|].
      apply Forall_cons_2; [exact readable_demo_old|]. apply Forall_nil_2.
    + apply Forall_nil_2.
    + apply Forall_nil_2.
  - intros recs w' [H _]. exact H.
  - intros w' _ (c & Hc & Hbad). exact (Hbad Hc).
Qed.



Lemma first_vector_same_after_restart_witness :
  exists v w1 w2,
    get_user_embedding (RT := demo_runtime) "u1" (new_client empty_store [] 0)
    = (Ok v, w1)
    /\ get_user_embedding (RT := demo_runtime) "u2"
         (new_client (mk_store ∅ ∅ [demo_new] [] ∅) [true] 86400) = (Ok v, w2).
Proof.
  destruct (first_vector_same_after_restart (RT := demo_runtime)
              empty_store [] 0 "u1" (mk_store ∅ ∅ [demo_new] [] ∅) [true] 86400 "u2")
    as (v & w1 & w2 & H1 & H2 & _).
  - reflexivity.
  - reflexivity.
  - exists v, w1, w2. auto.
Defined.

Lemma hash_block_sliding_window_witness :
  exists e (b b' : Z),
    create_content_embedding (RT := demo_runtime) demo_now demo_new = Ok e
    /\ e !! 30%nat = Some (IZR b / 255) /\ e !! 31%nat = Some (IZR b' / 255)
    /\ b' = (b / 2 + 128 * Z.b2z (Z.testbit (demo_md5 "p_new") 8))%Z.
Proof.
  destruct (create_content_embedding_ok (RT := demo_runtime) demo_now demo_new
              0 1 0 0) as (e & He & _);
    try reflexivity; [right; exists "p_new"; reflexivity|].
  destruct (hash_block_sliding_window (RT := demo_runtime) demo_now demo_new e
              "p_new" He eq_refl ltac:(discriminate) 30%nat ltac:(lia))
    as (b & b' & H30 & H31 & _ & Hb).
  exists e, b, b'. auto.
Defined.

(** ** Learning, then reading *)

Section LearnThenRead.

Context {RT : Runtime}.

Lemma quiet_ret {A} (a : A) : quiet (ret a).
Proof. intros w H. exact H. Qed.

Lemma quiet_lift {A} (r : result A) : quiet (lift r).
Proof. intros w H. exact H. Qed.

Lemma quiet_gets {A} (f : world -> A) : quiet (gets f).
Proof. intros w H. exact H. Qed.

Lemma quiet_bind {A B} (m : M A) (k : A -> M B) :
  quiet m -> (forall a, quiet (k a)) -> quiet (bind m k).
Proof.
  intros Hm Hk w H. unfold bind. specialize (Hm w H).
  destruct (m w) as [[a|e] w1]; simpl in *; [apply Hk, Hm|exact Hm].
Qed.

Lemma quiet_try {A} (m h : M A) : quiet m -> quiet h -> quiet (try_except m h).
Proof.
  intros Hm Hh w H. unfold try_except. specialize (Hm w H).
  destruct (m w) as [[a|e] w1]; simpl in *; [exact Hm|apply Hh, Hm].
Qed.

Lemma quiet_store_call : quiet store_call.
Proof. intros w H. unfold store_call. rewrite H. exact H. Qed.

Lemma quiet_is_cached k : quiet (_is_cached k).
Proof.
  intros w H. unfold _is_cached. destruct (w_cache_times w !! k); exact H.
Qed.

Lemma quiet_cache_read k : quiet (cache_read k).
Proof. intros w H. unfold cache_read. destruct (w_cache w !! k); exact H. Qed.

Lemma quiet_cache_write k p : quiet (cache_write k p).
Proof. intros w H. exact H. Qed.

Lemma quiet_as_emb p : quiet (as_emb p).
Proof. destruct p; intros w H; exact H. Qed.

Lemma quiet_create_random_embedding : quiet create_random_embedding.
Proof. intros w H. rewrite create_random_embedding_value. exact H. Qed.

Lemma quiet_save_user_embedding u e : quiet (save_user_embedding u e).
Proof.
  unfold save_user_embedding, put_user_embedding.
  apply quiet_try; [|apply quiet_ret].
  apply quiet_bind; [|intros _; apply quiet_cache_write].
  apply quiet_bind; [apply quiet_store_call|]. intros _ w H. exact H.
Qed.

Lemma quiet_save_content_embedding c e : quiet (save_content_embedding c e).
Proof.
  unfold save_content_embedding, put_content_embedding.
  apply quiet_try; [|apply quiet_ret].
  apply quiet_bind; [|intros _; apply quiet_cache_write].
  apply quiet_bind; [apply quiet_store_call|]. intros _ w H. exact H.
Qed.

Ltac quiet_step :=
  first
    [ apply quiet_ret | apply quiet_lift | apply quiet_gets
    | apply quiet_store_call | apply quiet_is_cached | apply quiet_cache_read
    | apply quiet_cache_write | apply quiet_as_emb
    | apply quiet_create_random_embedding
    | apply quiet_save_user_embedding | apply quiet_save_content_embedding
    | apply quiet_try
    | apply quiet_bind; [|intros ?]
    | match goal with
      | |- quiet (if ?b then _ else _) => destruct b
      | |- quiet (match ?x with _ => _ end) => destruct x
      end ].

Lemma quiet_get_user_embedding u : quiet (get_user_embedding u).
Proof. unfold get_user_embedding. repeat quiet_step. Qed.

Lemma quiet_get_content_embedding c content : quiet (get_content_embedding c content).
Proof. unfold get_content_embedding. repeat quiet_step. Qed.

(** X23. With the store reachable, the vector a learning event returns
    is the one the next read gets: [get_user_embedding] returns it from the
    cache, untouched, for as long as the clock shows less than
    [CACHE_TTL] seconds past the time of the event, and the table row of
    the user holds it as well. *)
Theorem learned_vector_read_back user_id content_id action_type content w v w' t' :
  w_faults w = [] ->
  learn_from_interaction user_id content_id action_type content w = (Ok v, w') ->
  t' - w_now w < IZR CACHE_TTL ->
  get_user_embedding user_id (set_now t' w') = (Ok v, set_now t' w')
  /\ user_embeddings (w_store w') !! user_id = Some v.
Proof.
  intros Hf Hrun Ht. unfold learn_from_interaction in Hrun.
  apply bind_ok in Hrun as (user_emb & wa & Ha & Hrun).
  apply bind_ok in Hrun as (content_emb & wb & Hb & Hrun).
  apply bind_ok in Hrun as (updated & wc & Hc & Hrun).
  apply bind_ok in Hrun as ([] & wd & Hd & Hrun).
  apply ret_ok in Hrun as [-> <-].
  assert (wc = wb) as -> by (unfold lift in Hc; congruence).
  assert (w_faults wb = []) as Hfb.
  { pose proof (quiet_get_user_embedding user_id w Hf) as H1.
    rewrite Ha in H1.
    pose proof (quiet_get_content_embedding (PStr content_id) content wa H1) as H2.
    rewrite Hb in H2. exact H2. }
  assert (w_now wb = w_now w) as Hnow.
  { pose proof (preserves_get_user_embedding w_now now_frame user_id
                  (now_ignores_cache _) w) as H1.
    rewrite Ha in H1.
    pose proof (preserves_get_content_embedding w_now now_frame (PStr content_id)
                  content (now_ignores_cache _) wa) as H2.
    rewrite Hb in H2. simpl in *. congruence. }
  destruct (save_user_embedding_cases user_id v wb) as (w1 & Hsave & Hok & _).
  assert (w1 = wd) as -> by congruence.
  destruct Hok as (Hs & Hcache & Htime).
  { unfold next_call_fails. rewrite Hfb. reflexivity. }
  split; [|exact Hs].
  apply (get_user_embedding_cached user_id (set_now t' wd) (w_now wb) v); simpl.
  - exact Htime.
  - rewrite Hnow. exact Ht.
  - exact Hcache.
Qed.

End LearnThenRead.

Lemma learned_vector_read_back_witness :
  exists v w',
    learn_from_interaction (RT := demo_runtime) "u1" "p_new" 1 (Some demo_new)
      (demo_world empty_store [] demo_now) = (Ok v, w')
    /\ get_user_embedding "u1" (set_now (demo_now + 60) w')
       = (Ok v, set_now (demo_now + 60) w').
Proof.
  destruct (wp_run (learn_from_interaction (RT := demo_runtime) "u1" "p_new" 1
                      (Some demo_new)) (fun _ _ => True)
              (demo_world empty_store [] demo_now)) as (v & w' & Hrun & _).
  { eapply wp_learn_from_interaction.
    - apply catalog_ok_any, client_ok_demo, stored_dims_empty.
    - intros; exact I.
    - intros w1 _ (c & Hc & Hbad). injection Hc as <-.
      exact (Hbad record_ok_demo_new). }
  exists v, w'. split; [exact Hrun|].
  apply (learned_vector_read_back (RT := demo_runtime) "u1" "p_new" 1
           (Some demo_new) (demo_world empty_store [] demo_now) v w'
           (demo_now + 60) eq_refl Hrun).
  simpl. unfold demo_now. lra.
Defined.
